(** * Chicago Crime Dashboard: filter engine, summary metrics, arrest rates
      and map view of [solution/streamlit-app.py]

    The script is a Streamlit page over a pandas table.  The embedding follows
    the script line by line from the sidebar (line 36) to the map tab
    (line 227); [df] is the table [load_data()] returned.  Calls into pandas,
    Python built-ins and the Streamlit/Plotly widgets are modelled by the
    behaviour of the library function that is called:
    - a table is a header and a list of rows, a column is read by name and a
      missing name raises [KeyError];
    - a cell is a Python object: NaN (the null), a number, a string or a bool;
      numbers are integers, the values the data set gives to [Year];
    - a float the script computes is the rational it denotes, and an
      operation on floats rounds its exact result to binary64 ([F64]);
    - Python code that can raise runs in the error monad [Py.result]. *)

From Stdlib Require Import List ZArith QArith Qreduction Qround Qabs Qpower.
From Stdlib Require Import Bool String Ascii Lia Lqa SpecFloat.
From Stdlib Require Import Permutation Sorted DecimalString.
Import ListNotations.

Local Open Scope string_scope.
Local Open Scope list_scope.
Local Open Scope Z_scope.

(* ================================================================== *)
(** ** Python values, exceptions and built-ins *)

Module Py.

(** The exceptions the script can raise; [KeyError] carries the labels
    that were not found. *)
Inductive exn :=
| KeyError (keys : list string)
| ValueError (msg : string)
| TypeError (msg : string)
| OverflowError (msg : string).

Inductive result (A : Type) :=
| Ok (a : A)
| Raise (e : exn).
Arguments Ok {A} a.
Arguments Raise {A} e.

Definition bind {A B} (m : result A) (k : A -> result B) : result B :=
  match m with
  | Ok a => k a
  | Raise e => Raise e
  end.

(** A cell of the table. *)
Inductive object :=
| NaN
| Num (z : Z)
| Str (s : string)
| Bool (b : bool).

Definition int_of_bool (b : bool) : Z := if b then 1 else 0.

(** [x == y]: NaN equals nothing, [True == 1], [False == 0], a string
    never equals a number. *)
Definition eqb (x y : object) : bool :=
  match x, y with
  | Num a, Num b => Z.eqb a b
  | Num a, Bool b => Z.eqb a (int_of_bool b)
  | Bool a, Num b => Z.eqb (int_of_bool a) b
  | Bool a, Bool b => Bool.eqb a b
  | Str a, Str b => String.eqb a b
  | _, _ => false
  end.

Definition is_str (x : object) : bool :=
  match x with Str _ => true | _ => false end.

(** The integer a number or a bool compares as. *)
Definition num_key (x : object) : option Z :=
  match x with
  | Num z => Some z
  | Bool b => Some (int_of_bool b)
  | _ => None
  end.

(** [x < y] where it is defined: numbers and bools by value, strings by
    code point; comparisons with NaN are false. *)
Definition ltb (x y : object) : bool :=
  match x, y with
  | Str a, Str b => String.ltb a b
  | _, _ =>
      match num_key x, num_key y with
      | Some a, Some b => Z.ltb a b
      | _, _ => false
      end
  end.

Fixpoint insert (x : object) (l : list object) : list object :=
  match l with
  | [] => [x]
  | y :: l' => if ltb y x then y :: insert x l' else x :: y :: l'
  end.

(** [sorted(l)]: a stable ascending sort; ordering a string against a
    number raises [TypeError]. *)
Definition sorted (l : list object) : result (list object) :=
  if existsb is_str l && existsb (fun x => negb (is_str x)) l
  then Raise (TypeError "'<' not supported between instances")
  else Ok (fold_right insert [] l).

(** A float as [min()] and [max()] return it: NaN, an infinity, or a
    finite value, which is a rational. *)
Inductive float :=
| FNaN
| FInf (negative : bool)
| FNum (q : Q).

(** [int(x)] of a float: the value truncated toward zero; NaN and the
    infinities have no integer. *)
Definition int (x : float) : result Z :=
  match x with
  | FNum q => Ok (Z.quot (Qnum q) (Zpos (Qden q)))
  | FInf _ => Raise (OverflowError "cannot convert float infinity to integer")
  | FNaN => Raise (ValueError "cannot convert float NaN to integer")
  end.

(** [f"{z}"] of an int. *)
Definition format (z : Z) : string := NilZero.string_of_int (Z.to_int z).

End Py.

Notation "x <- m ;; k" := (Py.bind m (fun x => k))
(at level 61, m at next level, right associativity).

(* ================================================================== *)
(** ** numpy: float64 arithmetic *)

(** A finite float64 is the rational it denotes.  An operation returns its
    exact result rounded to 53 significant bits, to nearest and ties to
    even: binary64 rounding for every magnitude between 2^-1022 and 2^1024,
    which holds the counts of an int64, their quotients and the products of
    these by 100. *)
Module F64.

Definition pow2 (s : Z) : Q := (2 ^ s)%Q.

(** The exponent of a positive value [x]: the [e] with
    2^e <= x < 2^(e+1). *)
Definition exponent (x : Q) : Z :=
  let k := Z.log2 (Qnum x) - Z.log2 (Zpos (Qden x)) in
  if Qle_bool (pow2 k) x then k else k - 1.

(** The integer nearest to [y], the even one of two that are equally
    near. *)
Definition rne (y : Q) : Z :=
  let f := Qfloor y in
  match (y - inject_Z f ?= 1 # 2)%Q with
  | Lt => f
  | Gt => f + 1
  | Eq => if Z.even f then f else f + 1
  end.

(** The float64 nearest to [x]: its significand, scaled to lie between
    2^52 and 2^53, is rounded to an integer. *)
Definition round (x : Q) : Q :=
  if Qeq_bool x 0 then 0%Q
  else let s := exponent (Qabs x) - 52 in
       Qred (inject_Z (rne (x / pow2 s)) * pow2 s).

(** The float64 of an integer. *)
Definition of_int (z : Z) : Q := round (inject_Z z).

(** [a / n] of two integers: both become float64 and are divided. *)
Definition truediv (a n : Z) : Q := round (of_int a / of_int n).

(** [x * y] of two float64. *)
Definition mul (x y : Q) : Q := round (x * y).

(** The same rate, (a / n) * 100, by the IEEE 754 operations of the
    Standard Library ([SpecFloat], precision 53 and maximal exponent 1024),
    and the rational a finite result denotes. *)
Definition spec_of_int (z : Z) : spec_float :=
  binary_normalize 53 1024 z 0 false.

Definition spec_rate (a n : Z) : spec_float :=
  SFmul 53 1024 (SFdiv 53 1024 (spec_of_int a) (spec_of_int n))
        (spec_of_int 100).

Definition of_spec (f : spec_float) : option Q :=
  match f with
  | S754_zero _ => Some 0%Q
  | S754_finite s m e =>
      Some (Qred (inject_Z (if s then Z.neg m else Z.pos m) * pow2 e))
  | _ => None
  end.

(** The counts [a] within the sizes [n] from 1 to [m]. *)
Definition counts_up_to (m : nat) : list (Z * Z) :=
  flat_map (fun n => map (fun a => (Z.of_nat a, Z.of_nat n)) (seq 0 (S n)))
           (seq 1 m).

End F64.

(* ================================================================== *)
(** ** pandas: DataFrame and Series operations the script calls *)

Module Pd.
Import Py.

Definition Series := list object.

Record DataFrame := {
  columns : list string;
  rows : list (list object)
}.

Definition len (df : DataFrame) : nat := List.length (rows df).

(** [name in df.columns] *)
Definition has_column (df : DataFrame) (name : string) : bool :=
  existsb (String.eqb name) (columns df).

Fixpoint get_loc (name : string) (cols : list string) : option nat :=
  match cols with
  | [] => None
  | c :: cols' =>
      if String.eqb name c then Some O
      else option_map S (get_loc name cols')
  end.

(** The cell of a row at a column position; a short row reads as NaN. *)
Definition cell (i : nat) (row : list object) : object := nth i row NaN.

(** [df[name]] *)
Definition getitem (df : DataFrame) (name : string) : result Series :=
  match get_loc name (columns df) with
  | Some i => Ok (map (cell i) (rows df))
  | None => Raise (KeyError [name])
  end.

Definition notna (x : object) : bool :=
  match x with NaN => false | _ => true end.

(** [s.dropna()] *)
Definition dropna (s : Series) : Series := filter notna s.

(** Equality of hash-table keys ([isin], [unique], [groupby]): as [==],
    and NaN is the same key as NaN. *)
Definition same_key (x y : object) : bool :=
  match x, y with
  | NaN, NaN => true
  | _, _ => Py.eqb x y
  end.

Fixpoint unique_from (seen : list object) (s : Series) : list object :=
  match s with
  | [] => []
  | x :: s' =>
      if existsb (same_key x) seen then unique_from seen s'
      else x :: unique_from (x :: seen) s'
  end.

(** [s.unique()]: the distinct values in order of first appearance. *)
Definition unique (s : Series) : list object := unique_from [] s.

(** [s.nunique()]: the number of distinct non-null values. *)
Definition nunique (s : Series) : nat :=
  List.length (unique (dropna s)).

(** [s.isin(values)] *)
Definition isin (s : Series) (values : list object) : list bool :=
  map (fun x => existsb (same_key x) values) s.

(** [s == b] for a bool [b] *)
Definition eq_scalar (s : Series) (b : bool) : list bool :=
  map (fun x => Py.eqb x (Bool b)) s.

Fixpoint select (rs : list (list object)) (mask : list bool)
  : list (list object) :=
  match rs, mask with
  | r :: rs', m :: mask' =>
      if m then r :: select rs' mask' else select rs' mask'
  | _, _ => []
  end.

(** [df[mask]] *)
Definition getitem_mask (df : DataFrame) (mask : list bool) : DataFrame :=
  {| columns := columns df; rows := select (rows df) mask |}.

(** [mask.sum()] *)
Definition sum_mask (mask : list bool) : Z :=
  Z.of_nat (List.length (filter (fun b => b) mask)).

Definition is_bool (x : object) : bool :=
  match x with Bool _ => true | _ => false end.

(** [s.dtype == bool]: a bool column holds bools only. *)
Definition dtype_is_bool (s : Series) : bool := forallb is_bool s.

(** [s.sum()], nulls skipped. *)
Definition sum (s : Series) : Z :=
  fold_right (fun x acc => match num_key x with
                           | Some z => z + acc
                           | None => acc
                           end) 0 s.

(** The non-null values of a numeric column. *)
Definition numbers (s : Series) : list Z :=
  flat_map (fun x => match num_key x with
                     | Some z => [z]
                     | None => []
                     end) s.

(** [s.min()] and [s.max()] of a numeric column (line 24 made [Year]
    numeric): nulls are skipped, and the result is NaN when nothing is
    left.  The numbers of a cell are integers, so the result is NaN or an
    integer-valued float. *)
Definition min (s : Series) : float :=
  match numbers s with
  | [] => FNaN
  | z :: zs => FNum (inject_Z (fold_left Z.min zs z))
  end.

Definition max (s : Series) : float :=
  match numbers s with
  | [] => FNaN
  | z :: zs => FNum (inject_Z (fold_left Z.max zs z))
  end.

(** [df.head(n)] *)
Definition head (df : DataFrame) (n : Z) : DataFrame :=
  {| columns := columns df;
     rows := if 0 <=? n then firstn (Z.to_nat n) (rows df)
             else firstn (len df - Z.to_nat (- n))%nat (rows df) |}.

(** [df.dropna(subset=names)]: a name that is no column raises
    [KeyError] with the missing names; otherwise the rows with a null in
    one of the named columns are dropped. *)
Definition dropna_subset (df : DataFrame) (names : list string)
  : result DataFrame :=
  match filter (fun n => negb (has_column df n)) names with
  | [] =>
      let locs := flat_map (fun n => match get_loc n (columns df) with
                                     | Some i => [i]
                                     | None => []
                                     end) names in
      Ok {| columns := columns df;
            rows := filter (fun r => forallb (fun i => notna (cell i r)) locs)
                           (rows df) |}
  | missing => Raise (KeyError missing)
  end.

(** The row with its cell at position [i] replaced; a short row is padded
    with nulls up to the position. *)
Fixpoint set_cell (i : nat) (v : object) (row : list object) : list object :=
  match i, row with
  | O, [] => [v]
  | O, _ :: row' => v :: row'
  | S i', [] => NaN :: set_cell i' v []
  | S i', x :: row' => x :: set_cell i' v row'
  end.

Fixpoint set_cells (i : nat) (rs : list (list object)) (s : Series)
  : list (list object) :=
  match rs, s with
  | r :: rs', v :: s' => set_cell i v r :: set_cells i rs' s'
  | _, _ => []
  end.

(** [df[name] = s]: the values of an existing column are replaced, a new
    name adds a column at the end; a series of another length than the table
    raises [ValueError]. *)
Definition setitem (df : DataFrame) (name : string) (s : Series)
  : result DataFrame :=
  if Nat.eqb (List.length s) (len df) then
    match get_loc name (columns df) with
    | Some i =>
        Ok {| columns := columns df; rows := set_cells i (rows df) s |}
    | None =>
        Ok {| columns := columns df ++ [name];
              rows := set_cells (List.length (columns df)) (rows df) s |}
    end
  else Raise (ValueError "Length of values does not match length of index").

End Pd.

(* ================================================================== *)
(** ** pandas: [groupby] and [sort_values] *)

Module PdGroup.
Import Py Pd.

(** The order [groupby(sort=True)] gives its keys: numbers by value, then
    strings by code point. *)
Definition key_ltb (x y : object) : bool :=
  match x, y with
  | Str a, Str b => String.ltb a b
  | Str _, _ => false
  | _, Str _ => true
  | _, _ => Py.ltb x y
  end.

Fixpoint insert_key (x : object) (l : list object) : list object :=
  match l with
  | [] => [x]
  | y :: l' => if key_ltb y x then y :: insert_key x l' else x :: y :: l'
  end.

(** The group keys of [groupby(by)]: the distinct non-null values,
    sorted. *)
Definition group_keys (by_col : Series) : list object :=
  fold_right insert_key [] (unique (dropna by_col)).

(** The values of one group, in row order. *)
Definition group (by_col vals : Series) (k : object) : Series :=
  map snd (filter (fun p => same_key (fst p) k) (combine by_col vals)).

(** [df.groupby(by)[col].apply(f)] for a scalar-valued [f]: one entry per
    key, in key order. *)
Definition groupby_apply {A} (by_col vals : Series) (f : Series -> A)
  : list (object * A) :=
  map (fun k => (k, f (group by_col vals k))) (group_keys by_col).

Definition descending (a b : object * Q) : Prop := (snd b <= snd a)%Q.

(** [s.sort_values(ascending=False)] with the default [kind='quicksort']:
    the entries rearranged in descending order of value.  The default sort
    is not stable, so the order among equal values is not fixed and the
    call is a relation between the series and its admissible results. *)
Definition sort_values_desc (s out : list (object * Q)) : Prop :=
  Permutation s out /\ StronglySorted descending out.

Fixpoint insert_desc (x : object * Q) (l : list (object * Q))
  : list (object * Q) :=
  match l with
  | [] => [x]
  | y :: l' =>
      if Qle_bool (snd x) (snd y) && negb (Qle_bool (snd y) (snd x))
      then y :: insert_desc x l'
      else x :: y :: l'
  end.

(** The result a stable descending sort gives: equal values keep the
    order they had in the series. *)
Definition sort_values_desc_stable (s : list (object * Q))
  : list (object * Q) :=
  fold_right insert_desc [] s.

End PdGroup.

(* ================================================================== *)
(** ** pandas: [value_counts] and [sort_index] *)

Module PdCount.
Import Py Pd.

(** How often a value occurs in a column. *)
Definition occurrences (s : Series) (k : object) : Z :=
  Z.of_nat (List.length (filter (fun x => same_key x k) s)).

(** The distinct non-null values with their counts, in order of first
    appearance: [value_counts] before it sorts. *)
Definition counts (s : Series) : list (object * Z) :=
  map (fun k => (k, occurrences s k)) (unique (dropna s)).

Definition by_count_desc (a b : object * Z) : Prop := snd b <= snd a.

(** [s.value_counts()]: the counts in descending order.  The sort is the
    default quicksort of [sort_values], so the order among equal counts is
    not fixed and the call is a relation. *)
Definition value_counts (s : Series) (out : list (object * Z)) : Prop :=
  Permutation (counts s) out /\ StronglySorted by_count_desc out.

Definition by_index_asc (a b : object * Z) : Prop :=
  Py.ltb (fst a) (fst b) = true.

(** [s.sort_index()] of a series with distinct labels: ascending labels.
    Labels that do not compare admit no result. *)
Definition sort_index (s out : list (object * Z)) : Prop :=
  Permutation s out /\ StronglySorted by_index_asc out.

Fixpoint insert_count (x : object * Z) (l : list (object * Z))
  : list (object * Z) :=
  match l with
  | [] => [x]
  | y :: l' => if snd x <? snd y then y :: insert_count x l' else x :: y :: l'
  end.

(** The result a stable sort gives [value_counts]: equal counts keep the
    order of first appearance. *)
Definition value_counts_stable (s : Series) : list (object * Z) :=
  fold_right insert_count [] (counts s).

(** The counts with their labels in ascending order. *)
Definition counts_by_label (s : Series) : list (object * Z) :=
  map (fun k => (k, occurrences s k))
      (fold_right Py.insert [] (unique (dropna s))).

End PdCount.

(* ================================================================== *)
(** ** The script *)

Module App.
Import Py Pd PdGroup.

(** [arrest_options = ['All', 'Yes', 'No']] (line 61) *)
Inductive arrest_option := All | Yes | No.

Definition arrest_option_eqb (a b : arrest_option) : bool :=
  match a, b with
  | All, All | Yes, Yes | No, No => true
  | _, _ => false
  end.

(** What the sidebar widgets return in one run of the script. *)
Record Sidebar := {
  selected_years : list object;
  selected_crime_types : list object;
  selected_locations : list object;
  selected_arrest : arrest_option
}.

(** Lines 37, 45 and 53: [sorted(df[name].dropna().unique())]. *)
Definition options (df : DataFrame) (name : string)
  : result (list object) :=
  s <- getitem df name ;;
  sorted (unique (dropna s)).

Definition years (df : DataFrame) := options df "Year".
Definition crime_types (df : DataFrame) := options df "Primary Type".
Definition location_descriptions (df : DataFrame) :=
  options df "Location Description".

(** Truth value of a list: [if selected_years and ...]. *)
Definition truthy (l : list object) : bool :=
  match l with [] => false | _ => true end.

(** Lines 71-78: one membership filter. *)
Definition filter_isin (selected : list object) (name : string)
           (filtered_df : DataFrame) : result DataFrame :=
  if truthy selected && has_column filtered_df name then
    s <- getitem filtered_df name ;;
    Ok (getitem_mask filtered_df (isin s selected))
  else Ok filtered_df.

(** Lines 80-82. *)
Definition filter_arrest (selected : arrest_option)
           (filtered_df : DataFrame) : result DataFrame :=
  if negb (arrest_option_eqb selected All) && has_column filtered_df "Arrest"
  then
    let arrest_bool := arrest_option_eqb selected Yes in
    s <- getitem filtered_df "Arrest" ;;
    Ok (getitem_mask filtered_df (eq_scalar s arrest_bool))
  else Ok filtered_df.

(** The four dimensions of the filter. *)
Inductive dimension := DYear | DPrimaryType | DLocation | DArrest.

Definition filter_dimension (sel : Sidebar) (d : dimension)
           (filtered_df : DataFrame) : result DataFrame :=
  match d with
  | DYear => filter_isin (selected_years sel) "Year" filtered_df
  | DPrimaryType =>
      filter_isin (selected_crime_types sel) "Primary Type" filtered_df
  | DLocation =>
      filter_isin (selected_locations sel) "Location Description" filtered_df
  | DArrest => filter_arrest (selected_arrest sel) filtered_df
  end.

(** Lines 69-82, in the order of the script. *)
Definition apply_filters (df : DataFrame) (sel : Sidebar)
  : result DataFrame :=
  filtered_df <- Ok df ;;
  filtered_df <- filter_dimension sel DYear filtered_df ;;
  filtered_df <- filter_dimension sel DPrimaryType filtered_df ;;
  filtered_df <- filter_dimension sel DLocation filtered_df ;;
  filter_dimension sel DArrest filtered_df.

(** The same four steps taken in another order. *)
Definition apply_filters_in (order : list dimension) (df : DataFrame)
           (sel : Sidebar) : result DataFrame :=
  fold_left (fun acc d => filtered_df <- acc ;;
                          filter_dimension sel d filtered_df)
            order (Ok df).

Definition script_order : list dimension :=
  [DYear; DPrimaryType; DLocation; DArrest].

(** What [st.metric] is given to show. *)
Inductive metric_value :=
| MInt (n : Z)
| MStr (s : string).

Definition not_available : metric_value := MStr "N/A".

(** Line 88. *)
Definition total_incidents (filtered_df : DataFrame) : metric_value :=
  MInt (Z.of_nat (len filtered_df)).

(** Lines 91-95. *)
Definition arrests_made (filtered_df : DataFrame) : result metric_value :=
  if has_column filtered_df "Arrest" then
    s <- getitem filtered_df "Arrest" ;;
    let arrest_count :=
      if dtype_is_bool s then Pd.sum s else sum_mask (eq_scalar s true) in
    Ok (MInt arrest_count)
  else Ok not_available.

(** Lines 98-102. *)
Definition crime_types_metric (filtered_df : DataFrame)
  : result metric_value :=
  if has_column filtered_df "Primary Type" then
    s <- getitem filtered_df "Primary Type" ;;
    Ok (MInt (Z.of_nat (nunique s)))
  else Ok not_available.

(** Lines 105-109. *)
Definition year_range (filtered_df : DataFrame) : result metric_value :=
  if has_column filtered_df "Year" then
    s <- getitem filtered_df "Year" ;;
    lo <- Py.int (Pd.min s) ;;
    hi <- Py.int (Pd.max s) ;;
    Ok (MStr (Py.format lo ++ "-" ++ Py.format hi))
  else Ok not_available.

Record Summary := {
  year_options : list object;
  crime_type_options : list object;
  location_options : list object;
  filtered : DataFrame;
  m_total : metric_value;
  m_arrests : metric_value;
  m_crime_types : metric_value;
  m_year_range : metric_value
}.

(** Lines 36-109: sidebar, filters and the four metrics.  An exception
    raised here ends the run and is what the page shows. *)
Definition sidebar_and_summary (df : DataFrame) (sel : Sidebar)
  : result Summary :=
  ys <- years df ;;
  cts <- crime_types df ;;
  locs <- location_descriptions df ;;
  filtered_df <- apply_filters df sel ;;
  let c1 := total_incidents filtered_df in
  c2 <- arrests_made filtered_df ;;
  c3 <- crime_types_metric filtered_df ;;
  c4 <- year_range filtered_df ;;
  Ok {| year_options := ys; crime_type_options := cts;
        location_options := locs; filtered := filtered_df;
        m_total := c1; m_arrests := c2; m_crime_types := c3;
        m_year_range := c4 |}.

(** *** Arrest rate by crime type (lines 178-192) *)

(** The lambda of line 181 as numpy evaluates it: the count of the cells
    that equal [True] is an int64, [/] divides it by the length in float64
    and [* 100] multiplies in float64. *)
Definition arrest_rate64 (x : Series) : Q :=
  if (0 <? List.length x)%nat
  then F64.mul (F64.truediv (sum_mask (eq_scalar x true))
                            (Z.of_nat (List.length x)))
               (F64.of_int 100)
  else 0%Q.

(** Line 180: the rate of every group, in key order. *)
Definition group_rates64 (filtered_df : DataFrame)
  : result (list (object * Q)) :=
  by_col <- getitem filtered_df "Primary Type" ;;
  arrest <- getitem filtered_df "Arrest" ;;
  Ok (groupby_apply by_col arrest arrest_rate64).

(** Lines 180-182: [arrest_rates], the group rates sorted in descending
    order and cut to the first 15. *)
Definition arrest_rates64 (filtered_df : DataFrame)
           (out : list (object * Q)) : Prop :=
  exists rates sorted,
    group_rates64 filtered_df = Ok rates
    /\ sort_values_desc rates sorted
    /\ out = firstn 15 sorted.

(** The same three in exact arithmetic: the rate of line 181 before any
    rounding, 100 * count / length as a rational.  It is 100 or 0 exactly
    when the float64 rate is, for every group of fewer than 2^53 rows. *)
Definition arrest_rate (x : Series) : Q :=
  if (0 <? List.length x)%nat
  then Qred (inject_Z (sum_mask (eq_scalar x true))
             / inject_Z (Z.of_nat (List.length x)) * 100)%Q
  else 0%Q.

Definition group_rates (filtered_df : DataFrame)
  : result (list (object * Q)) :=
  by_col <- getitem filtered_df "Primary Type" ;;
  arrest <- getitem filtered_df "Arrest" ;;
  Ok (groupby_apply by_col arrest arrest_rate).


(** *** Map view (lines 194-227) *)

(** The arguments of [st.slider] on line 204. *)
Record Slider := {
  min_value : Z;
  max_value : Z;
  value : Z
}.

(** The range the widget offers: [st.slider] widens the bounds it is given
    until they hold one another and the default value. *)
Definition slider_range (s : Slider) : Z * Z :=
  let lo := Z.min (min_value s) (max_value s) in
  let hi := Z.max lo (max_value s) in
  (Z.min (value s) lo, Z.max (value s) hi).

(** What the slider returns: its default until the user has moved it, then
    the position chosen, which lies in the range of the widget. *)
Definition slider_result (s : Slider) (moved : option Z) : Z :=
  match moved with
  | Some v => Z.max (fst (slider_range s)) (Z.min (snd (slider_range s)) v)
  | None => value s
  end.

Inductive map_tab :=
| MapWarning (msg : string)
| MapChart (available : nat) (slider : Slider) (map_df_sample : DataFrame)
           (hover_name : option string) (hover_data : list string)
           (color : option string).

Definition optional (name : option string) : list string :=
  match name with
  | Some n => [n]
  | None => []
  end.

(** [px.scatter_map(data_frame, lat=, lon=, hover_name=, hover_data=,
    color=)]: every name it is given must be a column of the data frame,
    otherwise it raises [ValueError].  Here only a name of [hover_data] can
    be missing; the message starts with the text below, for the first entry
    of [hover_data], and goes on to list the columns of the data frame. *)
Definition scatter_map (data_frame : DataFrame) (lat lon : string)
           (hover_name : option string) (hover_data : list string)
           (color : option string) : result unit :=
  if forallb (has_column data_frame)
             (lat :: lon :: optional hover_name ++ hover_data ++ optional color)
  then Ok tt
  else Raise (ValueError
    "Value of 'hover_data_0' is not the name of a column in 'data_frame'").

Definition map_view (filtered_df : DataFrame) (moved : option Z)
  : result map_tab :=
  map_df <- dropna_subset filtered_df ["Latitude"; "Longitude"] ;;
  if (0 <? len map_df)%nat then
    let slider := {| min_value := 100;
                     max_value := Z.min 1000 (Z.of_nat (len map_df));
                     value := 500 |} in
    let max_points := slider_result slider moved in
    let map_df_sample := head map_df max_points in
    let hover_name := if has_column map_df_sample "Primary Type"
                      then Some "Primary Type" else None in
    let hover_data := if has_column map_df_sample "Description"
                      then ["Date"; "Description"] else ["Date"] in
    let color := if has_column map_df_sample "Primary Type"
                 then Some "Primary Type" else None in
    fig <- scatter_map map_df_sample "Latitude" "Longitude"
                       hover_name hover_data color ;;
    Ok (MapChart (len map_df) slider map_df_sample hover_name hover_data color)
  else Ok (MapWarning "No data points with valid coordinates available").

(** *** Loading (lines 16-27) *)

(** [load_data] on the table [pd.read_csv] returned.  The two converters
    are the calls [pd.to_datetime(..., errors='coerce')] and
    [pd.to_numeric(..., errors='coerce')] on a column. *)
Definition load_data (to_datetime to_numeric : Series -> Series)
           (read_csv : DataFrame) : result DataFrame :=
  df <- Ok read_csv ;;
  df <- (if has_column df "Date" then
           s <- getitem df "Date" ;;
           setitem df "Date" (to_datetime s)
         else Ok df) ;;
  df <- (if has_column df "Year" then
           s <- getitem df "Year" ;;
           setitem df "Year" (to_numeric s)
         else Ok df) ;;
  Ok df.

(** *** Frequency tables of the visualizations (lines 139, 152, 166) *)

(** Lines 139 and 166: [value_counts().head(15)]. *)
Definition top_counts (s : Series) (out : list (object * Z)) : Prop :=
  exists vc, PdCount.value_counts s vc /\ out = firstn 15 vc.

(** Line 152: [value_counts().sort_index()]. *)
Definition year_counts (s : Series) (out : list (object * Z)) : Prop :=
  exists vc, PdCount.value_counts s vc /\ PdCount.sort_index vc out.

End App.

(* ================================================================== *)
(** ** Vocabulary of the properties *)

Module Spec.
Import Py Pd PdGroup App.

(** The column a dimension filters on. *)
Definition column_of (d : dimension) : string :=
  match d with
  | DYear => "Year"
  | DPrimaryType => "Primary Type"
  | DLocation => "Location Description"
  | DArrest => "Arrest"
  end.

(** The selection set of a membership dimension. *)
Definition selection_of (sel : Sidebar) (d : dimension) : list object :=
  match d with
  | DYear => selected_years sel
  | DPrimaryType => selected_crime_types sel
  | DLocation => selected_locations sel
  | DArrest => []
  end.

(** The selection with one dimension left unrestricted. *)
Definition clear (d : dimension) (sel : Sidebar) : Sidebar :=
  match d with
  | DYear =>
      {| selected_years := [];
         selected_crime_types := selected_crime_types sel;
         selected_locations := selected_locations sel;
         selected_arrest := selected_arrest sel |}
  | DPrimaryType =>
      {| selected_years := selected_years sel;
         selected_crime_types := [];
         selected_locations := selected_locations sel;
         selected_arrest := selected_arrest sel |}
  | DLocation =>
      {| selected_years := selected_years sel;
         selected_crime_types := selected_crime_types sel;
         selected_locations := [];
         selected_arrest := selected_arrest sel |}
  | DArrest =>
      {| selected_years := selected_years sel;
         selected_crime_types := selected_crime_types sel;
         selected_locations := selected_locations sel;
         selected_arrest := All |}
  end.

Definition no_selection : Sidebar :=
  {| selected_years := []; selected_crime_types := [];
     selected_locations := []; selected_arrest := All |}.

Definition dimension_eqb (a b : dimension) : bool :=
  match a, b with
  | DYear, DYear | DPrimaryType, DPrimaryType
  | DLocation, DLocation | DArrest, DArrest => true
  | _, _ => false
  end.

(** The row test one dimension amounts to on a table with header [cols]:
    every row passes when the column is missing or nothing is selected. *)
Definition keeps (cols : list string) (sel : Sidebar) (d : dimension)
           (r : list object) : bool :=
  match get_loc (column_of d) cols with
  | None => true
  | Some i =>
      match d with
      | DArrest =>
          match selected_arrest sel with
          | All => true
          | Yes => Py.eqb (cell i r) (Bool true)
          | No => Py.eqb (cell i r) (Bool false)
          end
      | _ =>
          match selection_of sel d with
          | [] => true
          | vs => existsb (same_key (cell i r)) vs
          end
      end
  end.

(** The value a row holds in a named column, if the column exists. *)
Definition value_in (df : DataFrame) (name : string) (r : list object)
  : option object :=
  option_map (fun i => cell i r) (get_loc name (columns df)).

(** An arrest flag that is true: the cell equals [True]. *)
Definition arrest_true (x : object) : bool := Py.eqb x (Bool true).

(** The number of rows whose arrest flag is true. *)
Definition true_arrests (df : DataFrame) : nat :=
  List.length
    (filter (fun r => match value_in df "Arrest" r with
                      | Some x => arrest_true x
                      | None => false
                      end) (rows df)).

(** A row of the group of primary type [k]. *)
Definition in_group (df : DataFrame) (k : object) (r : list object)
  : bool :=
  match value_in df "Primary Type" r with
  | Some x => same_key x k
  | None => false
  end.

Definition arrested (df : DataFrame) (r : list object) : bool :=
  match value_in df "Arrest" r with
  | Some x => arrest_true x
  | None => false
  end.

(** count(group) and count(arrest = true in group). *)
Definition group_size (df : DataFrame) (k : object) : nat :=
  List.length (filter (in_group df k) (rows df)).

Definition group_arrests (df : DataFrame) (k : object) : nat :=
  List.length (filter (fun r => in_group df k r && arrested df r) (rows df)).

(** A row with both coordinates present. *)
Definition has_coordinates (df : DataFrame) (r : list object) : bool :=
  match value_in df "Latitude" r, value_in df "Longitude" r with
  | Some lat, Some lon => notna lat && notna lon
  | _, _ => false
  end.

(** The dimensions other than [d], in the order of the script. *)
Definition other_dimensions (d : dimension) : list dimension :=
  filter (fun d' => negb (dimension_eqb d d')) script_order.

(** The selection with the arrest status replaced. *)
Definition with_arrest (a : arrest_option) (sel : Sidebar) : Sidebar :=
  {| selected_years := selected_years sel;
     selected_crime_types := selected_crime_types sel;
     selected_locations := selected_locations sel;
     selected_arrest := a |}.

(** An arrest flag that is false: the cell equals [False]. *)
Definition arrest_false (x : object) : bool := Py.eqb x (Bool false).

Definition not_arrested (df : DataFrame) (r : list object) : bool :=
  match value_in df "Arrest" r with
  | Some x => arrest_false x
  | None => false
  end.

(** The two kinds of values [sorted] can order: strings, or numbers and
    bools. *)
Definition of_kind (str : bool) (x : object) : bool :=
  if str then is_str x
  else match num_key x with Some _ => true | None => false end.

(** Strictly ascending in the order of [<]. *)
Definition ascending (a b : object) : Prop := Py.ltb a b = true.

(** The number of cells of a column equal to a value. *)
Definition count_matching (l : list object) (k : object) : nat :=
  List.length (filter (fun x => same_key x k) l).

(** The sum of the counts of a series of counts. *)
Definition total (l : list (object * Z)) : Z :=
  fold_right (fun e acc => snd e + acc) 0 l.

(** The value a cell counts as in a hash table: a bool is its number. *)
Definition canon (x : object) : object :=
  match x with
  | Bool b => Num (Py.int_of_bool b)
  | _ => x
  end.

(** A row with a known (non-null) value in a named column. *)
Definition known_in (df : DataFrame) (name : string) (r : list object)
  : bool :=
  match value_in df name r with
  | Some v => notna v
  | None => false
  end.

(** The three membership dimensions. *)
Definition membership_dimensions : list dimension :=
  [DYear; DPrimaryType; DLocation].

End Spec.

(* ================================================================== *)
(** ** Tables and selections used as instances *)

Module Examples.
Import Py Pd App.

(** Four incidents with every column; some cells are null. *)
Definition incidents : DataFrame :=
  {| columns := ["Year"; "Primary Type"; "Location Description"; "Arrest";
                 "Latitude"; "Longitude"];
     rows := [ [Num 2019; Str "THEFT"; Str "STREET"; Bool true;
                Num 41; Num (-87)];
               [Num 2020; Str "THEFT"; NaN; Bool false;
                Num 41; Num (-87)];
               [NaN; Str "BATTERY"; Str "APARTMENT"; Bool true;
                NaN; NaN];
               [Num 2020; NaN; Str "STREET"; Bool false;
                Num 42; NaN] ] |}.

Definition picks : Sidebar :=
  {| selected_years := [Num 2020];
     selected_crime_types := [Str "THEFT"];
     selected_locations := [];
     selected_arrest := No |}.

(** The same incidents without the [Arrest] column. *)
Definition incidents_without_arrest : DataFrame :=
  {| columns := ["Year"; "Primary Type"];
     rows := [ [Num 2019; Str "THEFT"]; [Num 2020; Str "BATTERY"] ] |}.

(** A table whose [Arrest] column is all false. *)
Definition incidents_no_arrests : DataFrame :=
  {| columns := ["Primary Type"; "Arrest"];
     rows := [ [Str "THEFT"; Bool false]; [Str "BATTERY"; Bool false] ] |}.

(** A table that has no [Year] column. *)
Definition incidents_without_year : DataFrame :=
  {| columns := ["Primary Type"; "Location Description"; "Arrest"];
     rows := [ [Str "THEFT"; Str "STREET"; Bool true];
               [Str "BATTERY"; Str "APARTMENT"; Bool false] ] |}.

Definition picks_2020 : Sidebar :=
  {| selected_years := [Num 2020];
     selected_crime_types := [];
     selected_locations := [];
     selected_arrest := All |}.

(** A selection no row of [incidents] satisfies: the only incident of
    2019 led to an arrest. *)
Definition picks_2019_no_arrest : Sidebar :=
  {| selected_years := [Num 2019];
     selected_crime_types := [];
     selected_locations := [];
     selected_arrest := No |}.

(** A table whose years are all unknown. *)
Definition incidents_unknown_years : DataFrame :=
  {| columns := ["Year"; "Primary Type"; "Location Description"; "Arrest"];
     rows := [ [NaN; Str "THEFT"; Str "STREET"; Bool true] ] |}.

(** A table without coordinates. *)
Definition incidents_without_coordinates : DataFrame :=
  {| columns := ["Year"; "Primary Type"; "Location Description"; "Arrest"];
     rows := [ [Num 2019; Str "THEFT"; Str "STREET"; Bool true] ] |}.

(** Incidents numbered by [ID], with every column the page reads. *)
Definition dated_columns : list string :=
  ["ID"; "Date"; "Year"; "Primary Type"; "Location Description"; "Arrest";
   "Latitude"; "Longitude"].

Definition dated (n : nat) : list object :=
  [Num (Z.of_nat n); Str "01/05/2019"; Num 2019; Str "THEFT"; Str "STREET";
   Bool false; Num 41; Num (-87)].

(** 502 incidents: the first has no latitude, the last no longitude, the
    500 between have both. *)
Definition incidents_500_dated : DataFrame :=
  {| columns := dated_columns;
     rows := [Num 0; Str "01/05/2019"; Num 2019; Str "THEFT"; Str "STREET";
              Bool false; NaN; Num (-87)]
               :: map dated (seq 1 500)
               ++ [[Num 501; Str "01/05/2019"; Num 2019; Str "THEFT";
                    Str "STREET"; Bool false; Num 41; NaN]] |}.

(** 200 incidents, all with both coordinates. *)
Definition incidents_200_dated : DataFrame :=
  {| columns := dated_columns;
     rows := map dated (seq 1 200) |}.

(** Incidents whose coordinates are all unknown. *)
Definition incidents_nowhere : DataFrame :=
  {| columns := dated_columns;
     rows := [ [Num 1; Str "01/05/2019"; Num 2019; Str "THEFT"; Str "STREET";
                Bool false; NaN; NaN] ] |}.

(** The table of the arrest-rate example. *)
Definition theft_theft_battery : DataFrame :=
  {| columns := ["Primary Type"; "Arrest"];
     rows := [ [Str "THEFT"; Bool true];
               [Str "THEFT"; Bool false];
               [Str "BATTERY"; Bool true] ] |}.

(** 1025 crime types, TYPE 1000 to TYPE 2024 in this order, with one
    incident each and no arrest: every arrest rate is 0. *)
Definition tied_types : list string :=
  map (fun n => String.append "TYPE " (Py.format (Z.of_nat n)))
      (seq 1000 1025).

Definition no_arrest_anywhere : DataFrame :=
  {| columns := ["Primary Type"; "Arrest"];
     rows := map (fun t => [Str t; Bool false]) tied_types |}.

Definition rate_zero (t : string) : object * Q := (Str t, 0%Q).

(** One arrest among three incidents of one type. *)
Definition one_arrest_in_three : Series :=
  [Bool true; Bool false; Bool false].

(** Three incidents, one with an unknown arrest status. *)
Definition incidents_unknown_arrest : DataFrame :=
  {| columns := ["Primary Type"; "Arrest"];
     rows := [ [Str "THEFT"; Bool true];
               [Str "THEFT"; NaN];
               [Str "BATTERY"; Bool false] ] |}.

Definition picks_arrested : Sidebar :=
  {| selected_years := [];
     selected_crime_types := [];
     selected_locations := [];
     selected_arrest := Yes |}.

(** A table as read from a file, before the loader converts it: the year
    column holds a text that is no number. *)
Definition raw_incidents : DataFrame :=
  {| columns := ["Date"; "Year"; "Primary Type"];
     rows := [ [Str "01/05/2019"; Num 2019; Str "THEFT"];
               [Str "unknown"; Str "n/a"; Str "BATTERY"] ] |}.

(** A converter that keeps numbers and turns every other cell into the
    null. *)
Definition numbers_or_null (s : Series) : Series :=
  map (fun x => match x with Num z => Num z | _ => NaN end) s.

End Examples.

(* ================================================================== *)
(** ** Column access and boolean indexing *)

Section Columns.
Import Py Pd.

Lemma has_column_get_loc (cols : list string) (name : string) :
  existsb (String.eqb name) cols = true ->
  exists i, get_loc name cols = Some i.
Proof.
  induction cols as [|c cols IH]; simpl; [discriminate|].
  destruct (String.eqb name c); simpl.
  - intros _. now exists O.
  - intros H. destruct (IH H) as [i Hi]. rewrite Hi. now exists (S i).
Qed.

Lemma no_column_get_loc (cols : list string) (name : string) :
  existsb (String.eqb name) cols = false -> get_loc name cols = None.
Proof.
  induction cols as [|c cols IH]; simpl; [reflexivity|].
  destruct (String.eqb name c); simpl; [discriminate|].
  intros H. now rewrite (IH H).
Qed.

Lemma get_loc_has_column (cols : list string) (name : string) (i : nat) :
  get_loc name cols = Some i -> existsb (String.eqb name) cols = true.
Proof.
  destruct (existsb (String.eqb name) cols) eqn:E; [reflexivity|].
  rewrite (no_column_get_loc _ _ E). discriminate.
Qed.

(** Indexing by a mask computed row by row is a filter of the rows. *)
Lemma select_map (f : list object -> bool) (rs : list (list object)) :
  select rs (map f rs) = filter f rs.
Proof.
  induction rs as [|r rs IH]; simpl; [reflexivity|].
  rewrite IH. reflexivity.
Qed.

Lemma isin_rows (i : nat) (vs : list object) (rs : list (list object)) :
  select rs (isin (map (cell i) rs) vs)
  = filter (fun r => existsb (same_key (cell i r)) vs) rs.
Proof.
  unfold isin. rewrite map_map. apply select_map.
Qed.

Lemma eq_scalar_rows (i : nat) (b : bool) (rs : list (list object)) :
  select rs (eq_scalar (map (cell i) rs) b)
  = filter (fun r => Py.eqb (cell i r) (Bool b)) rs.
Proof.
  unfold eq_scalar. rewrite map_map. apply select_map.
Qed.

Lemma filter_true {A} (l : list A) : filter (fun _ => true) l = l.
Proof. induction l; simpl; congruence. Qed.

Lemma filter_twice {A} (p q : A -> bool) (l : list A) :
  filter q (filter p l) = filter (fun x => p x && q x) l.
Proof.
  induction l as [|x l IH]; simpl; [reflexivity|].
  destruct (p x); simpl; [destruct (q x)|]; now rewrite IH.
Qed.

Lemma filter_length_le {A} (p : A -> bool) (l : list A) :
  (List.length (filter p l) <= List.length l)%nat.
Proof. induction l as [|x l IH]; simpl; [lia|]. destruct (p x); simpl; lia. Qed.

End Columns.

(* ================================================================== *)
(** ** The filter engine *)

Section Filters.
Import Py Pd App Spec.

(** Each dimension keeps the header and filters the rows by [keeps]; it
    never raises. *)
Lemma filter_dimension_rows (sel : Sidebar) (d : dimension)
      (fdf : DataFrame) :
  filter_dimension sel d fdf
  = Ok {| columns := columns fdf;
          rows := filter (keeps (columns fdf) sel d) (rows fdf) |}.
Proof.
  destruct fdf as [cols rs].
  assert (Hisin : forall vs name,
    filter_isin vs name {| columns := cols; rows := rs |}
    = Ok {| columns := cols;
            rows := filter (fun r =>
                      match get_loc name cols with
                      | None => true
                      | Some i => match vs with
                                  | [] => true
                                  | _ => existsb (same_key (cell i r)) vs
                                  end
                      end) rs |}).
  { intros vs name. unfold filter_isin, has_column, getitem. simpl.
    destruct (existsb (String.eqb name) cols) eqn:E.
    - destruct (has_column_get_loc _ _ E) as [i Hi]. rewrite Hi.
      destruct vs as [|v vs]; simpl.
      + now rewrite filter_true.
      + unfold getitem_mask. simpl. now rewrite isin_rows.
    - rewrite (no_column_get_loc _ _ E), andb_false_r, filter_true.
      reflexivity. }
  destruct d; unfold filter_dimension, keeps;
    cbn [column_of selection_of columns rows];
    try (rewrite Hisin; do 2 f_equal; apply filter_ext; intros r;
         destruct (get_loc _ cols); [|reflexivity];
         match goal with
         | |- match ?vs with _ => _ end = _ => destruct vs; reflexivity
         end).
  unfold filter_arrest, has_column, getitem. cbn [columns rows].
  destruct (existsb (String.eqb "Arrest") cols) eqn:E.
  - destruct (has_column_get_loc _ _ E) as [i Hi]. rewrite Hi.
    destruct (selected_arrest sel);
      cbn [arrest_option_eqb negb andb bind];
      unfold getitem_mask; cbn [columns rows];
      rewrite ?eq_scalar_rows, ?filter_true; reflexivity.
  - rewrite (no_column_get_loc _ _ E), andb_false_r, filter_true.
    reflexivity.
Qed.

(** A sequence of dimensions filters by the conjunction of their tests. *)
Lemma apply_filters_in_rows (order : list dimension) (df : DataFrame)
      (sel : Sidebar) :
  apply_filters_in order df sel
  = Ok {| columns := columns df;
          rows := filter (fun r => forallb (fun d => keeps (columns df) sel d r)
                                           order)
                         (rows df) |}.
Proof.
  unfold apply_filters_in.
  assert (G : forall (p : list object -> bool),
    fold_left (fun acc d => filtered_df <- acc ;;
                            filter_dimension sel d filtered_df)
              order
              (Ok {| columns := columns df; rows := filter p (rows df) |})
    = Ok {| columns := columns df;
            rows := filter (fun r => p r &&
                      forallb (fun d => keeps (columns df) sel d r) order)
                    (rows df) |}).
  { induction order as [|d order IH]; intros p; simpl.
    - f_equal. f_equal. apply filter_ext. intros r. now rewrite andb_true_r.
    - rewrite filter_dimension_rows. simpl. rewrite filter_twice, IH.
      f_equal. f_equal. apply filter_ext. intros r.
      now rewrite andb_assoc. }
  specialize (G (fun _ => true)). rewrite filter_true in G.
  destruct df as [cols rs]. simpl in *. exact G.
Qed.

Lemma apply_filters_script_order (df : DataFrame) (sel : Sidebar) :
  apply_filters df sel = apply_filters_in script_order df sel.
Proof.
  unfold apply_filters, apply_filters_in, script_order.
  cbn [fold_left bind].
  repeat (rewrite filter_dimension_rows; cbn [bind]).
  reflexivity.
Qed.

Lemma forallb_permutation {A} (p : A -> bool) (l l' : list A) :
  Permutation l l' -> forallb p l = forallb p l'.
Proof.
  induction 1; simpl; try congruence.
  destruct (p x), (p y); reflexivity.
Qed.

End Filters.

Section FilterProperties.
Import Py Pd App Spec.

Lemma keeps_clear_same (cols : list string) (sel : Sidebar)
      (d : dimension) (r : list object) :
  keeps cols (clear d sel) d r = true.
Proof.
  unfold keeps. destruct (get_loc (column_of d) cols); [|reflexivity].
  destruct d; reflexivity.
Qed.

Lemma keeps_clear_other (cols : list string) (sel : Sidebar)
      (d d' : dimension) (r : list object) :
  dimension_eqb d d' = false ->
  keeps cols (clear d sel) d' r = keeps cols sel d' r.
Proof.
  destruct d, d'; simpl; try discriminate; reflexivity.
Qed.

(** C4: for every table and every filter selection, the four dimension
    filters applied in any permutation of their order give the same
    filtered subset as the script's order. *)
Theorem filters_order_independent (df : DataFrame) (sel : Sidebar)
        (order : list dimension) :
  Permutation script_order order ->
  apply_filters_in order df sel = apply_filters df sel.
Proof.
  intros Hperm.
  rewrite apply_filters_script_order, !apply_filters_in_rows.
  do 2 f_equal. apply filter_ext. intros r.
  symmetry. now apply forallb_permutation.
Qed.

(** The filter of a dimension with nothing selected returns its table. *)
Lemma cleared_dimension_keeps_table (df : DataFrame) (sel : Sidebar)
      (d : dimension) :
  filter_dimension (clear d sel) d df = Ok df.
Proof.
  rewrite filter_dimension_rows. destruct df as [cols rs]. simpl.
  do 2 f_equal. rewrite <- (filter_true rs) at 2.
  apply filter_ext. intros r. apply keeps_clear_same.
Qed.

(** C5: an empty selection on a dimension (or "All" for the arrest
    status) imposes no restriction on that dimension: its filter returns
    the table unchanged, the filtered subset is the one the other three
    dimensions give, and with nothing selected on any dimension the
    filtered subset is the full table. *)
Theorem empty_selection_is_unrestricted (df : DataFrame) (sel : Sidebar)
        (d : dimension) :
  filter_dimension (clear d sel) d df = Ok df
  /\ apply_filters df (clear d sel)
     = apply_filters_in (other_dimensions d) df sel
  /\ apply_filters df no_selection = Ok df.
Proof.
  split; [|split].
  - apply cleared_dimension_keeps_table.
  - rewrite apply_filters_script_order, !apply_filters_in_rows.
    do 2 f_equal. apply filter_ext. intros r.
    destruct d; unfold other_dimensions, script_order;
      cbn [filter dimension_eqb negb forallb];
      rewrite ?keeps_clear_same, ?keeps_clear_other by reflexivity;
      rewrite ?andb_true_r; reflexivity.
  - rewrite apply_filters_script_order, apply_filters_in_rows.
    destruct df as [cols rs]. simpl. do 2 f_equal.
    rewrite <- (filter_true rs) at 2. apply filter_ext. intros r.
    assert (K : forall d', keeps cols no_selection d' r = true).
    { intros d'. unfold keeps.
      destruct (get_loc (column_of d') cols); [|reflexivity].
      destruct d'; reflexivity. }
    now rewrite !K.
Qed.

(** C9: for every table and every filter selection, the filters return a
    subset, and it has at most as many rows as the table. *)
Theorem filtered_rows_le_table_rows (df : DataFrame) (sel : Sidebar) :
  exists filtered_df,
    apply_filters df sel = Ok filtered_df
    /\ (len filtered_df <= len df)%nat.
Proof.
  rewrite apply_filters_script_order, apply_filters_in_rows.
  eexists. split; [reflexivity|].
  unfold len. simpl. apply filter_length_le.
Qed.

End FilterProperties.

Section NullsAndMembership.
Import Py Pd App Spec.

Lemma insert_in (x y : object) (l : list object) :
  In x (Py.insert y l) -> x = y \/ In x l.
Proof.
  induction l as [|z l IH]; simpl.
  - intros [H|[]]; auto.
  - destruct (Py.ltb z y); simpl; intros [H|H]; auto.
    destruct (IH H); auto.
Qed.

Lemma sorted_in (l l' : list object) (x : object) :
  sorted l = Ok l' -> In x l' -> In x l.
Proof.
  unfold sorted.
  destruct (existsb is_str l && existsb (fun x => negb (is_str x)) l);
    [discriminate|].
  intros E. injection E as <-.
  induction l as [|y l IH]; simpl; [tauto|].
  intros H. destruct (insert_in _ _ _ H); auto.
Qed.

Lemma unique_from_in (seen : list object) (s : Series) (x : object) :
  In x (unique_from seen s) -> In x s.
Proof.
  revert seen. induction s as [|y s IH]; intros seen; simpl; [tauto|].
  destruct (existsb (same_key y) seen); simpl.
  - intros H. right. eapply IH, H.
  - intros [H|H]; [now left|right; eapply IH, H].
Qed.

(** No option offered by a multiselect is null. *)
Lemma options_notna (df : DataFrame) (name : string)
      (opts : list object) (x : object) :
  options df name = Ok opts -> In x opts -> notna x = true.
Proof.
  unfold options. destruct (getitem df name) as [s|e]; [|discriminate].
  cbn [bind]. intros Hs Hx.
  apply (sorted_in _ _ _ Hs), unique_from_in in Hx.
  unfold dropna in Hx. now apply filter_In in Hx.
Qed.

Lemma options_get_loc (df : DataFrame) (name : string)
      (opts : list object) :
  options df name = Ok opts -> exists i, get_loc name (columns df) = Some i.
Proof.
  unfold options, getitem.
  destruct (get_loc name (columns df)) as [i|]; [now exists i|discriminate].
Qed.

Lemma same_key_notna (x y : object) :
  same_key x y = true -> notna y = true -> notna x = true.
Proof. destruct x, y; simpl; congruence. Qed.

(** A row of the filtered subset passes the test of every dimension. *)
Lemma filtered_row_keeps (df fdf : DataFrame) (sel : Sidebar)
      (d : dimension) (r : list object) :
  apply_filters df sel = Ok fdf ->
  In r (rows fdf) ->
  In r (rows df) /\ keeps (columns df) sel d r = true.
Proof.
  rewrite apply_filters_script_order, apply_filters_in_rows.
  intros E. injection E as <-. cbn [rows]. intros H.
  apply filter_In in H. destruct H as [Hin Hall]. split; [exact Hin|].
  rewrite !andb_true_iff in Hall.
  destruct Hall as (Hy & Ht & Hl & Ha & _). now destruct d.
Qed.

(** C10: with a non-empty selection on a membership dimension (year,
    primary type or location description) drawn from the options the
    sidebar offers, every row of the filtered subset holds a non-null
    value in that column, so a row whose value there is null is excluded;
    with the selection of that dimension emptied the filter of the
    dimension keeps every row, null or not. *)
Theorem membership_filter_excludes_nulls (df fdf : DataFrame)
        (sel : Sidebar) (d : dimension) (opts : list object) :
  options df (column_of d) = Ok opts ->
  incl (selection_of sel d) opts ->
  selection_of sel d <> [] ->
  apply_filters df sel = Ok fdf ->
  (forall r, In r (rows fdf) ->
     exists x, value_in df (column_of d) r = Some x /\ notna x = true)
  /\ (forall r, In r (rows df) ->
        value_in df (column_of d) r = Some NaN -> ~ In r (rows fdf))
  /\ filter_dimension (clear d sel) d df = Ok df.
Proof.
  intros Hopts Hincl Hne Hf.
  destruct (options_get_loc _ _ _ Hopts) as [i Hi].
  assert (Hkept : forall r, In r (rows fdf) -> notna (cell i r) = true).
  { intros r Hr.
    destruct (filtered_row_keeps _ _ _ d _ Hf Hr) as [_ Hk].
    unfold keeps in Hk. rewrite Hi in Hk.
    assert (Hex : existsb (same_key (cell i r)) (selection_of sel d) = true).
    { destruct d; cbn [selection_of] in *;
        try (destruct (selected_years sel); [congruence|exact Hk]);
        try (destruct (selected_crime_types sel); [congruence|exact Hk]);
        try (destruct (selected_locations sel); [congruence|exact Hk]).
      congruence. }
    apply existsb_exists in Hex. destruct Hex as [y [Hy Hsame]].
    apply (same_key_notna _ _ Hsame).
    apply (options_notna _ _ _ _ Hopts), Hincl, Hy. }
  split; [|split].
  - intros r Hr. exists (cell i r). unfold value_in. rewrite Hi.
    split; [reflexivity|]. now apply Hkept.
  - intros r _ Hnull Hr. unfold value_in in Hnull. rewrite Hi in Hnull.
    injection Hnull as Hnull. specialize (Hkept r Hr).
    rewrite Hnull in Hkept. discriminate.
  - apply (cleared_dimension_keeps_table df sel d).
Qed.

End NullsAndMembership.

Section FilterInstances.
Import Py Pd App Spec Examples.

(** The four filters taken in reverse on [incidents]. *)
Lemma filters_order_independent_witness :
  Permutation script_order [DArrest; DLocation; DPrimaryType; DYear]
  /\ apply_filters_in [DArrest; DLocation; DPrimaryType; DYear]
                      incidents picks
     = apply_filters incidents picks.
Proof.
  assert (P : Permutation script_order
                [DArrest; DLocation; DPrimaryType; DYear]).
  { unfold script_order.
    apply (Permutation_rev [DYear; DPrimaryType; DLocation; DArrest]). }
  split; [exact P|].
  exact (filters_order_independent incidents picks _ P).
Defined.

(** Year 2020 selected on [incidents]: the row without a year is gone. *)
Lemma membership_filter_excludes_nulls_witness :
  (forall r,
      In r [[Num 2020; Str "THEFT"; NaN; Bool false; Num 41; Num (-87)]] ->
      exists x, value_in incidents "Year" r = Some x /\ notna x = true)
  /\ (forall r, In r (rows incidents) ->
        value_in incidents "Year" r = Some NaN ->
        ~ In r [[Num 2020; Str "THEFT"; NaN; Bool false;
                 Num 41; Num (-87)]])
  /\ filter_dimension (clear DYear picks) DYear incidents = Ok incidents.
Proof.
  apply (membership_filter_excludes_nulls incidents
           {| columns := columns incidents;
              rows := [[Num 2020; Str "THEFT"; NaN; Bool false;
                        Num 41; Num (-87)]] |}
           picks DYear [Num 2019; Num 2020]).
  - reflexivity.
  - intros x [<-|[]]. right. left. reflexivity.
  - discriminate.
  - reflexivity.
Defined.

End FilterInstances.

(* ================================================================== *)
(** ** Summary metrics *)

Section Metrics.
Import Py Pd App Spec.

(** On a bool column the two ways line 92 counts agree. *)
Lemma sum_bool_column (s : Series) :
  dtype_is_bool s = true -> Pd.sum s = sum_mask (eq_scalar s true).
Proof.
  unfold sum_mask. induction s as [|x s IH]; [reflexivity|].
  cbn [dtype_is_bool forallb]. rewrite andb_true_iff. intros [Hx Hs].
  destruct x as [| |?|b]; try discriminate.
  specialize (IH Hs). unfold Pd.sum in *. cbn [fold_right num_key].
  rewrite IH. cbn [eq_scalar map Py.eqb filter].
  fold (eq_scalar s true).
  destruct b; cbn [Bool.eqb int_of_bool List.length]; lia.
Qed.

Lemma sum_mask_rows (i : nat) (rs : list (list object)) :
  sum_mask (eq_scalar (map (cell i) rs) true)
  = Z.of_nat (List.length (filter (fun r => arrest_true (cell i r)) rs)).
Proof.
  unfold sum_mask, eq_scalar, arrest_true. f_equal.
  induction rs as [|r rs IH]; [reflexivity|].
  cbn [map filter]. destruct (Py.eqb (cell i r) (Bool true));
    cbn [List.length]; now rewrite IH.
Qed.

(** C6: when the table has the arrest column, the arrest metric is the
    number of rows of the filtered view whose arrest flag is true; when it
    has not, the metric is the "N/A" sentinel, which is not the number 0,
    so zero arrests and an absent column are told apart. *)
Theorem arrests_made_count_or_sentinel (filtered_df : DataFrame) :
  (has_column filtered_df "Arrest" = true ->
     arrests_made filtered_df
     = Ok (MInt (Z.of_nat (true_arrests filtered_df))))
  /\ (has_column filtered_df "Arrest" = false ->
        arrests_made filtered_df = Ok not_available
        /\ not_available <> MInt 0).
Proof.
  unfold arrests_made, true_arrests, value_in, has_column, getitem.
  split; intros H; rewrite H.
  - destruct (has_column_get_loc _ _ H) as [i Hi]. rewrite Hi.
    cbn [bind option_map]. do 2 f_equal.
    destruct (dtype_is_bool (map (cell i) (rows filtered_df))) eqn:E.
    + rewrite (sum_bool_column _ E). apply sum_mask_rows.
    + apply sum_mask_rows.
  - split; [reflexivity|discriminate].
Qed.

End Metrics.

Section MetricInstances.
Import Py Pd App Spec Examples.

Lemma arrests_made_count_or_sentinel_witness :
  arrests_made incidents = Ok (MInt 2)
  /\ arrests_made incidents_no_arrests = Ok (MInt 0)
  /\ arrests_made incidents_without_arrest = Ok not_available
  /\ not_available <> MInt 0.
Proof.
  split; [|split].
  - exact (proj1 (arrests_made_count_or_sentinel incidents) eq_refl).
  - exact (proj1 (arrests_made_count_or_sentinel incidents_no_arrests)
                 eq_refl).
  - exact (proj2 (arrests_made_count_or_sentinel incidents_without_arrest)
                 eq_refl).
Defined.

End MetricInstances.

Section YearRange.
Import Py Pd App Spec Examples.

Lemma fold_min_le (zs : list Z) (z : Z) :
  fold_left Z.min zs z <= z
  /\ (forall y, In y zs -> fold_left Z.min zs z <= y)
  /\ In (fold_left Z.min zs z) (z :: zs).
Proof.
  revert z. induction zs as [|y zs IH]; intros z; cbn [fold_left].
  - repeat split; [lia|intros ? []|now left].
  - destruct (IH (Z.min z y)) as (H1 & H2 & H3). repeat split.
    + lia.
    + intros w [<-|Hw]; [lia|now apply H2].
    + destruct H3 as [H3|H3]; [|right; now right].
      rewrite <- H3. destruct (Z.min_spec z y) as [[_ ->]|[_ ->]];
        [now left|right; now left].
Qed.

Lemma fold_max_ge (zs : list Z) (z : Z) :
  z <= fold_left Z.max zs z
  /\ (forall y, In y zs -> y <= fold_left Z.max zs z)
  /\ In (fold_left Z.max zs z) (z :: zs).
Proof.
  revert z. induction zs as [|y zs IH]; intros z; cbn [fold_left].
  - repeat split; [lia|intros ? []|now left].
  - destruct (IH (Z.max z y)) as (H1 & H2 & H3). repeat split.
    + lia.
    + intros w [<-|Hw]; [lia|now apply H2].
    + destruct H3 as [H3|H3]; [|right; now right].
      rewrite <- H3. destruct (Z.max_spec z y) as [[_ ->]|[_ ->]];
        [right; now left|now left].
Qed.

(** Where the view has the year column and a year that is not null, the
    metric is the text "lo-hi" of the least and the greatest year. *)
Lemma year_range_of_known_years (filtered_df : DataFrame) (s : Series) :
  getitem filtered_df "Year" = Ok s ->
  numbers s <> [] ->
  exists lo hi,
    year_range filtered_df = Ok (MStr (Py.format lo ++ "-" ++ Py.format hi))
    /\ In lo (numbers s) /\ In hi (numbers s)
    /\ forall y, In y (numbers s) -> lo <= y <= hi.
Proof.
  intros Hs Hne. unfold year_range, has_column.
  assert (Hc : existsb (String.eqb "Year") (columns filtered_df) = true).
  { unfold getitem in Hs.
    destruct (get_loc "Year" (columns filtered_df)) eqn:E; [|discriminate].
    eapply get_loc_has_column, E. }
  rewrite Hc, Hs. cbn [bind]. unfold Pd.min, Pd.max.
  destruct (numbers s) as [|z zs]; [congruence|].
  destruct (fold_min_le zs z) as (A1 & A2 & A3).
  destruct (fold_max_ge zs z) as (B1 & B2 & B3).
  exists (fold_left Z.min zs z), (fold_left Z.max zs z).
  cbn [Py.int bind inject_Z Qnum Qden]. rewrite !Z.quot_1_r.
  split; [reflexivity|split; [exact A3|split; [exact B3|]]].
  intros y [<-|H]; split; auto.
Qed.

(** Without the year column the metric is "N/A". *)
Lemma year_range_without_column (filtered_df : DataFrame) :
  has_column filtered_df "Year" = false ->
  year_range filtered_df = Ok not_available.
Proof. unfold year_range. now intros ->. Qed.

(** With the year column and no year that is not null, [min()] is NaN and
    [int] raises. *)
Lemma year_range_raises (filtered_df : DataFrame) (s : Series) :
  getitem filtered_df "Year" = Ok s ->
  numbers s = [] ->
  year_range filtered_df
  = Raise (ValueError "cannot convert float NaN to integer").
Proof.
  intros Hs Hnone. unfold year_range, has_column.
  assert (Hc : existsb (String.eqb "Year") (columns filtered_df) = true).
  { unfold getitem in Hs.
    destruct (get_loc "Year" (columns filtered_df)) eqn:E; [|discriminate].
    eapply get_loc_has_column, E. }
  rewrite Hc, Hs. cbn [bind]. unfold Pd.min. now rewrite Hnone.
Qed.

(** C3, at the inputs where the code leaves the claim: on [incidents] the
    selection "2019, no arrest" matches no row, the filtered view is empty
    and has the year column, and the year-range metric raises [ValueError]
    where the claim has "N/A"; the exception ends the run.  The same
    happens on a table whose years are all null. *)
Theorem year_range_empty_view_raises :
  apply_filters incidents picks_2019_no_arrest
  = Ok {| columns := columns incidents; rows := [] |}
  /\ year_range {| columns := columns incidents; rows := [] |}
     = Raise (ValueError "cannot convert float NaN to integer")
  /\ sidebar_and_summary incidents picks_2019_no_arrest
     = Raise (ValueError "cannot convert float NaN to integer")
  /\ year_range incidents_unknown_years
     = Raise (ValueError "cannot convert float NaN to integer").
Proof. repeat split; reflexivity. Qed.

End YearRange.

(* ================================================================== *)
(** ** Exceptions that reach the page *)

Section Exceptions.
Import Py Pd App Spec Examples.

(** Line 37 reads [df['Year']] with no test for the column. *)
Lemma options_missing_column (df : DataFrame) (name : string) :
  has_column df name = false -> options df name = Raise (KeyError [name]).
Proof.
  intros H. unfold options, getitem.
  now rewrite (no_column_get_loc _ _ H).
Qed.

(** C2, at the input where the code leaves the claim: on a table without
    the year column the filters themselves skip the year dimension and
    keep every row, but the options of the year multiselect are built
    first, from [df['Year']], which raises [KeyError]; the run ends there
    for every selection. *)
Theorem missing_year_column_raises :
  apply_filters incidents_without_year picks_2020
    = Ok incidents_without_year
  /\ years incidents_without_year = Raise (KeyError ["Year"])
  /\ forall sel, sidebar_and_summary incidents_without_year sel
                 = Raise (KeyError ["Year"]).
Proof. repeat split; reflexivity. Qed.

(** C1, at inputs where an exception reaches the page: a table without
    the location column ends the run in [KeyError] while the sidebar is
    built; a table whose years are all null ends it in [ValueError] at the
    year-range metric; a view without coordinate columns raises [KeyError]
    in the map tab. *)
Theorem exceptions_reach_the_page :
  sidebar_and_summary incidents_without_arrest Spec.no_selection
    = Raise (KeyError ["Location Description"])
  /\ sidebar_and_summary incidents_unknown_years Spec.no_selection
     = Raise (ValueError "cannot convert float NaN to integer")
  /\ (forall moved, map_view incidents_without_coordinates moved
                    = Raise (KeyError ["Latitude"; "Longitude"])).
Proof. repeat split; reflexivity. Qed.

End Exceptions.

(* ================================================================== *)
(** ** Map view *)

Section MapView.
Import Py Pd App Spec.

(** With both coordinate columns in the view, [dropna] keeps the rows
    that hold both coordinates, in their order. *)
Lemma dropna_coordinates (filtered_df : DataFrame) :
  has_column filtered_df "Latitude" = true ->
  has_column filtered_df "Longitude" = true ->
  dropna_subset filtered_df ["Latitude"; "Longitude"]
  = Ok {| columns := columns filtered_df;
          rows := filter (has_coordinates filtered_df) (rows filtered_df) |}.
Proof.
  intros Hlat Hlon. unfold dropna_subset. cbn [filter flat_map].
  rewrite Hlat, Hlon. cbn [negb].
  unfold has_column in Hlat, Hlon.
  destruct (has_column_get_loc _ _ Hlat) as [i Hi].
  destruct (has_column_get_loc _ _ Hlon) as [j Hj].
  rewrite Hi, Hj. cbn [app]. do 2 f_equal.
  apply filter_ext. intros r. unfold has_coordinates, value_in.
  rewrite Hi, Hj. cbn [option_map forallb]. now rewrite andb_true_r.
Qed.

Lemma nonempty_length_pos {A} (l : list A) :
  l <> [] -> (0 <? List.length l)%nat = true.
Proof. destruct l; [congruence|reflexivity]. Qed.

(** The map tab over a view with both coordinate columns and a
    coordinate-valid row: the chart of the first rows when the view has the
    [Date] column, and the [ValueError] of [px.scatter_map] when it has
    not. *)
Lemma map_view_chart (filtered_df : DataFrame) (moved : option Z) :
  has_column filtered_df "Latitude" = true ->
  has_column filtered_df "Longitude" = true ->
  let valid := filter (has_coordinates filtered_df) (rows filtered_df) in
  let slider := {| min_value := 100;
                   max_value := Z.min 1000 (Z.of_nat (List.length valid));
                   value := 500 |} in
  let sample := head {| columns := columns filtered_df; rows := valid |}
                     (slider_result slider moved) in
  valid <> [] ->
  map_view filtered_df moved
  = if has_column filtered_df "Date"
    then Ok (MapChart (List.length valid) slider sample
               (if has_column filtered_df "Primary Type"
                then Some "Primary Type" else None)
               (if has_column filtered_df "Description"
                then ["Date"; "Description"] else ["Date"])
               (if has_column filtered_df "Primary Type"
                then Some "Primary Type" else None))
    else Raise (ValueError
      "Value of 'hover_data_0' is not the name of a column in 'data_frame'").
Proof.
  intros Hlat Hlon valid slider sample Hne. unfold map_view.
  rewrite (dropna_coordinates _ Hlat Hlon). cbn [bind].
  unfold len. cbn [rows]. fold valid.
  rewrite (nonempty_length_pos _ Hne). fold slider. fold sample.
  unfold scatter_map.
  change (has_column sample) with (has_column filtered_df).
  destruct (has_column filtered_df "Primary Type") eqn:Hpt,
           (has_column filtered_df "Description") eqn:Hde,
           (has_column filtered_df "Date") eqn:Hda;
    cbn [optional app forallb];
    rewrite ?Hlat, ?Hlon, ?Hpt, ?Hde, ?Hda; reflexivity.
Qed.

End MapView.

Section MapViewDivergence.
Import Py Pd App Spec Examples.

(** C8, at the inputs where the code leaves the claim.  The table
    [incidents] has every column the sidebar and the metrics read, two
    coordinate-valid rows and no [Date] column: the run reaches the map tab,
    and there line 213 names [Date] in [hover_data] without a test for the
    column, so [px.scatter_map] raises [ValueError] and no row is plotted,
    whatever the slider.  On a table with the [Date] column and 200
    coordinate-valid rows the untouched slider returns its default 500,
    above min(1000, 200), and all 200 rows are plotted, which are not
    exactly N rows. *)
Theorem map_view_departs_from_claim :
  (exists summary, sidebar_and_summary incidents no_selection = Ok summary)
  /\ List.length (filter (has_coordinates incidents) (rows incidents)) = 2%nat
  /\ (forall moved,
        map_view incidents moved
        = Raise (ValueError
            "Value of 'hover_data_0' is not the name of a column in 'data_frame'"))
  /\ (exists sample hover_name hover_data color,
        map_view incidents_200_dated None
        = Ok (MapChart 200
                {| min_value := 100; max_value := 200; value := 500 |}
                sample hover_name hover_data color)
        /\ slider_result {| min_value := 100; max_value := 200; value := 500 |}
                         None = 500
        /\ Z.min 1000 200 < 500
        /\ len sample = 200%nat).
Proof.
  split; [eexists; vm_compute; reflexivity|].
  split; [reflexivity|split].
  - intros moved.
    rewrite (map_view_chart incidents moved eq_refl eq_refl)
      by discriminate.
    reflexivity.
  - do 4 eexists. split; [vm_compute; reflexivity|].
    split; [reflexivity|split; [reflexivity|]].
    vm_compute. reflexivity.
Qed.

End MapViewDivergence.

(* ================================================================== *)
(** ** Arrest rate by crime type *)

Section GroupKeys.
Import Py Pd PdGroup.

Lemma same_key_refl (x : object) : same_key x x = true.
Proof.
  destruct x as [|z|s|b]; simpl.
  - reflexivity.
  - apply Z.eqb_refl.
  - apply String.eqb_refl.
  - now destruct b.
Qed.

Lemma unique_from_nodup (seen : list object) (s : Series) :
  NoDup (unique_from seen s)
  /\ forall x, In x (unique_from seen s) ->
               existsb (same_key x) seen = false.
Proof.
  revert seen. induction s as [|y s IH]; intros seen; cbn [unique_from].
  - split; [constructor|intros ? []].
  - destruct (existsb (same_key y) seen) eqn:E; [apply IH|].
    destruct (IH (y :: seen)) as [Hnd Hout]. split.
    + constructor; [|exact Hnd]. intros Hin.
      specialize (Hout y Hin). cbn [existsb] in Hout.
      now rewrite same_key_refl in Hout.
    + intros x [<-|Hx]; [exact E|].
      specialize (Hout x Hx). cbn [existsb] in Hout.
      now apply orb_false_iff in Hout.
Qed.

Lemma unique_from_complete (seen : list object) (s : Series) (x : object) :
  In x s ->
  existsb (same_key x) seen = true
  \/ exists k, In k (unique_from seen s) /\ same_key x k = true.
Proof.
  revert seen. induction s as [|y s IH]; intros seen; [intros []|].
  cbn [unique_from]. intros [->|Hx].
  - destruct (existsb (same_key x) seen) eqn:E; [now left|].
    right. exists x. split; [now left|apply same_key_refl].
  - destruct (existsb (same_key y) seen) eqn:E.
    + now apply IH.
    + destruct (IH (y :: seen) Hx) as [H|[k [Hk Hs]]].
      * cbn [existsb] in H. apply orb_true_iff in H.
        destruct H as [H|H]; [|now left].
        right. exists y. split; [now left|exact H].
      * right. exists k. split; [now right|exact Hs].
Qed.

Lemma insert_key_perm (x : object) (l : list object) :
  Permutation (x :: l) (insert_key x l).
Proof.
  induction l as [|y l IH]; cbn [insert_key]; [reflexivity|].
  destruct (key_ltb y x); [|reflexivity].
  rewrite perm_swap. now apply perm_skip.
Qed.

Lemma group_keys_perm (by_col : Series) :
  Permutation (unique (dropna by_col)) (group_keys by_col).
Proof.
  unfold group_keys. induction (unique (dropna by_col)) as [|x l IH];
    cbn [fold_right]; [reflexivity|].
  rewrite <- insert_key_perm. now apply perm_skip.
Qed.

Lemma group_keys_nodup (by_col : Series) : NoDup (group_keys by_col).
Proof.
  eapply Permutation_NoDup; [apply group_keys_perm|].
  apply unique_from_nodup.
Qed.

(** A key is a non-null value of the column. *)
Lemma group_keys_in (by_col : Series) (k : object) :
  In k (group_keys by_col) -> notna k = true /\ In k by_col.
Proof.
  intros H. apply (Permutation_in _ (Permutation_sym (group_keys_perm _)))
    in H.
  unfold unique in H. apply unique_from_in in H.
  unfold dropna in H. apply filter_In in H. tauto.
Qed.

(** Every non-null value of the column has its key. *)
Lemma group_keys_complete (by_col : Series) (v : object) :
  In v by_col -> notna v = true ->
  exists k, In k (group_keys by_col) /\ same_key v k = true.
Proof.
  intros Hin Hv.
  assert (Hd : In v (dropna by_col)) by (apply filter_In; tauto).
  destruct (unique_from_complete [] _ _ Hd) as [H|[k [Hk Hs]]];
    [discriminate|].
  exists k. split; [|exact Hs].
  eapply Permutation_in; [apply group_keys_perm|exact Hk].
Qed.

(** The values of a group are the cells of the rows of the group. *)
Lemma group_rows (i j : nat) (rs : list (list object)) (k : object) :
  group (map (cell i) rs) (map (cell j) rs) k
  = map (cell j) (filter (fun r => same_key (cell i r) k) rs).
Proof.
  unfold group. induction rs as [|r rs IH]; [reflexivity|].
  cbn [map combine filter fst]. destruct (same_key (cell i r) k);
    cbn [map snd]; now rewrite IH.
Qed.

End GroupKeys.

Section SortValues.
Import Py Pd PdGroup.

Lemma insert_desc_perm (x : object * Q) (l : list (object * Q)) :
  Permutation (x :: l) (insert_desc x l).
Proof.
  induction l as [|y l IH]; cbn [insert_desc]; [reflexivity|].
  destruct (Qle_bool (snd x) (snd y) && negb (Qle_bool (snd y) (snd x)));
    [|reflexivity].
  rewrite perm_swap. now apply perm_skip.
Qed.

Lemma insert_desc_sorted (x : object * Q) (l : list (object * Q)) :
  StronglySorted descending l -> StronglySorted descending (insert_desc x l).
Proof.
  induction 1 as [|y l Hs IH Hall]; cbn [insert_desc].
  - repeat constructor.
  - destruct (Qle_bool (snd x) (snd y) && negb (Qle_bool (snd y) (snd x)))
      eqn:E.
    + apply andb_true_iff in E. destruct E as [Hxy _].
      apply Qle_bool_iff in Hxy. constructor; [exact IH|].
      eapply Permutation_Forall; [apply insert_desc_perm|].
      constructor; [exact Hxy|exact Hall].
    + assert (Hyx : (snd y <= snd x)%Q).
      { apply andb_false_iff in E. destruct E as [E|E].
        - apply Qlt_le_weak, Qnot_le_lt. intros H.
          apply Qle_bool_iff in H. congruence.
        - apply negb_false_iff, Qle_bool_iff in E. exact E. }
      constructor; [now constructor|].
      constructor; [exact Hyx|].
      eapply Forall_impl; [|exact Hall].
      intros z Hz. unfold descending in *. eapply Qle_trans; eauto.
Qed.

(** A stable sort is one of the results [sort_values] admits: the call
    always has a result. *)
Lemma sort_values_desc_stable_admissible (s : list (object * Q)) :
  sort_values_desc s (sort_values_desc_stable s).
Proof.
  unfold sort_values_desc, sort_values_desc_stable. split.
  - induction s as [|x s IH]; cbn [fold_right]; [reflexivity|].
    rewrite <- insert_desc_perm. now apply perm_skip.
  - induction s as [|x s IH]; cbn [fold_right]; [constructor|].
    now apply insert_desc_sorted.
Qed.

Lemma firstn_sorted {A} (R : A -> A -> Prop) (n : nat) (l : list A) :
  StronglySorted R l -> StronglySorted R (firstn n l).
Proof.
  revert l. induction n as [|n IH]; intros l Hs; [constructor|].
  destruct l as [|x l]; [constructor|]. cbn [firstn].
  apply StronglySorted_inv in Hs. destruct Hs as [Hs Hall].
  constructor; [now apply IH|].
  rewrite Forall_forall in *. intros y Hy. apply Hall.
  rewrite <- (firstn_skipn n l). apply in_or_app. now left.
Qed.

Lemma firstn_incl {A} (n : nat) (l : list A) : incl (firstn n l) l.
Proof.
  intros x Hx. rewrite <- (firstn_skipn n l). apply in_or_app. now left.
Qed.

End SortValues.

(* ================================================================== *)
(** ** Rounding to float64 *)

Section Rounding.
Import F64.
Local Open Scope Q_scope.


Lemma pow2_pos (s : Z) : 0 < pow2 s.
Proof. now apply Qpower_0_lt. Qed.

Lemma pow2_add (a b : Z) : pow2 (a + b) == pow2 a * pow2 b.
Proof. apply Qpower_plus. discriminate. Qed.

Lemma pow2_succ (a : Z) : pow2 (a + 1) == 2 * pow2 a.
Proof. rewrite pow2_add. unfold pow2 at 2. rewrite Qpower_1_r. ring. Qed.

Lemma pow2_le (a b : Z) : (a <= b)%Z -> pow2 a <= pow2 b.
Proof. intros H. apply Qpower_le_compat_l; [exact H|discriminate]. Qed.

Lemma pow2_lt_inv (a b : Z) : pow2 a < pow2 b -> (a < b)%Z.
Proof. intros H. eapply Qpower_lt_compat_l_inv; [exact H|reflexivity]. Qed.

Lemma pow2_Z (n : Z) : (0 <= n)%Z -> pow2 n == inject_Z (2 ^ n).
Proof. intros H. unfold pow2. now rewrite Zpower_Qpower. Qed.

Lemma Q_as_quotient (x : Q) :
  x * inject_Z (Zpos (Qden x)) == inject_Z (Qnum x).
Proof.
  destruct x as [n d]. unfold Qeq, inject_Z. cbn [Qnum Qden Qmult].
  rewrite Pos.mul_1_r. lia.
Qed.

Lemma log2_bounds_Q (n : Z) :
  (0 < n)%Z ->
  pow2 (Z.log2 n) <= inject_Z n /\ inject_Z n < 2 * pow2 (Z.log2 n).
Proof.
  intros Hn. destruct (Z.log2_spec n Hn) as [Hlo Hhi].
  pose proof (Z.log2_nonneg n) as H0.
  rewrite <- pow2_succ. rewrite !pow2_Z by lia.
  rewrite <- Zle_Qle, <- Zlt_Qlt. replace (Z.log2 n + 1)%Z with (Z.succ (Z.log2 n)) by lia.
  split; assumption.
Qed.

(** The exponent of a positive value. *)
Lemma exponent_spec (x : Q) :
  0 < x -> pow2 (exponent x) <= x /\ x < pow2 (exponent x + 1).
Proof.
  intros Hx.
  assert (Hn : (0 < Qnum x)%Z).
  { destruct x as [n d]. unfold Qlt in Hx. cbn in *. lia. }
  destruct (log2_bounds_Q (Qnum x) Hn) as [A1 A2].
  destruct (log2_bounds_Q (Zpos (Qden x)) eq_refl) as [B1 B2].
  pose proof (Q_as_quotient x) as HQ.
  set (a := Z.log2 (Qnum x)) in *. set (b := Z.log2 (Zpos (Qden x))) in *.
  assert (Hk : pow2 (a - b) * pow2 b == pow2 a).
  { rewrite <- pow2_add. now replace (a - b + b)%Z with a by lia. }
  pose proof (pow2_pos a) as Pa. pose proof (pow2_pos b) as Pb.
  pose proof (pow2_pos (a - b)) as Pk.
  unfold exponent. fold a b.
  destruct (Qle_bool (pow2 (a - b)) x) eqn:E.
  - apply Qle_bool_iff in E. split; [exact E|].
    rewrite pow2_succ.
    set (K := pow2 (a - b)) in *. set (PA := pow2 a) in *.
    set (PB := pow2 b) in *. set (N := inject_Z (Qnum x)) in *.
    set (D := inject_Z (Zpos (Qden x))) in *.
    nra.
  - assert (E' : x < pow2 (a - b)).
    { apply Qnot_le_lt. intros H. apply Qle_bool_iff in H. congruence. }
    replace (a - b - 1 + 1)%Z with (a - b)%Z by lia. split; [|exact E'].
    assert (Hh : 2 * pow2 (a - b - 1) == pow2 (a - b)).
    { rewrite <- pow2_succ. now replace (a - b - 1 + 1)%Z with (a - b)%Z by lia. }
    pose proof (pow2_pos (a - b - 1)) as Ph.
    set (H := pow2 (a - b - 1)) in *.
    set (K := pow2 (a - b)) in *. set (PA := pow2 a) in *.
    set (PB := pow2 b) in *. set (N := inject_Z (Qnum x)) in *.
    set (D := inject_Z (Zpos (Qden x))) in *.
    nra.
Qed.

Lemma exponent_unique (x : Q) (e : Z) :
  pow2 e <= x -> x < pow2 (e + 1) -> 0 < x -> exponent x = e.
Proof.
  intros H1 H2 Hx. destruct (exponent_spec x Hx) as [E1 E2].
  assert (A : (e < exponent x + 1)%Z).
  { apply pow2_lt_inv. eapply Qle_lt_trans; eauto. }
  assert (B : (exponent x < e + 1)%Z).
  { apply pow2_lt_inv. eapply Qle_lt_trans; eauto. }
  lia.
Qed.


Lemma floor_bounds (y : Q) :
  inject_Z (Qfloor y) <= y /\ y < inject_Z (Qfloor y) + 1.
Proof.
  split; [apply Qfloor_le|].
  pose proof (Qlt_floor y) as H. rewrite inject_Z_plus in H. exact H.
Qed.

Lemma floor_unique (y : Q) (f : Z) :
  inject_Z f <= y -> y < inject_Z f + 1 -> Qfloor y = f.
Proof.
  intros H1 H2. destruct (floor_bounds y) as [F1 F2].
  assert (A : (f < Qfloor y + 1)%Z).
  { rewrite Zlt_Qlt, inject_Z_plus. change (inject_Z 1) with 1. lra. }
  assert (B : (Qfloor y < f + 1)%Z).
  { rewrite Zlt_Qlt, inject_Z_plus. change (inject_Z 1) with 1. lra. }
  lia.
Qed.

(** [rne] is the floor or the next integer. *)
Lemma rne_cases (y : Q) :
  (rne y = Qfloor y /\ y - inject_Z (Qfloor y) <= 1 # 2)
  \/ (rne y = (Qfloor y + 1)%Z /\ 1 # 2 <= y - inject_Z (Qfloor y)).
Proof.
  unfold rne.
  destruct (y - inject_Z (Qfloor y) ?= 1 # 2) eqn:E.
  - apply Qeq_alt in E. destruct (Z.even (Qfloor y)); [left|right];
      (split; [reflexivity|rewrite E; apply Qle_refl]).
  - apply Qlt_alt in E. left. split; [reflexivity|now apply Qlt_le_weak].
  - apply Qgt_alt in E. right. split; [reflexivity|now apply Qlt_le_weak].
Qed.

Lemma rne_error (y : Q) : Qabs (inject_Z (rne y) - y) <= 1 # 2.
Proof.
  destruct (floor_bounds y) as [F1 F2].
  apply Qabs_Qle_condition.
  destruct (rne_cases y) as [[-> H]|[-> H]];
    rewrite ?inject_Z_plus; change (inject_Z 1) with 1; split; lra.
Qed.

Lemma rne_le (y : Q) (k : Z) : y <= inject_Z k -> (rne y <= k)%Z.
Proof.
  intros H. destruct (floor_bounds y) as [F1 F2].
  destruct (rne_cases y) as [[-> _]|[-> Hf]].
  - rewrite Zle_Qle. lra.
  - assert (A : (Qfloor y < k)%Z) by (rewrite Zlt_Qlt; lra). lia.
Qed.

Lemma rne_ge (y : Q) (k : Z) : inject_Z k <= y -> (k <= rne y)%Z.
Proof.
  intros H. destruct (floor_bounds y) as [F1 F2].
  assert (A : (k < Qfloor y + 1)%Z).
  { rewrite Zlt_Qlt, inject_Z_plus. change (inject_Z 1) with 1. lra. }
  destruct (rne_cases y) as [[-> _]|[-> _]]; lia.
Qed.

Lemma rne_int (k : Z) : rne (inject_Z k) = k.
Proof.
  apply Z.le_antisymm; [apply rne_le|apply rne_ge]; apply Qle_refl.
Qed.

Lemma rne_same_floor (y1 y2 : Q) :
  y1 <= y2 -> Qfloor y1 = Qfloor y2 -> (rne y1 <= rne y2)%Z.
Proof.
  intros Hle Hf. unfold rne. rewrite Hf.
  set (f := Qfloor y2).
  destruct (y1 - inject_Z f ?= 1 # 2) eqn:E1;
    [apply Qeq_alt in E1|apply Qlt_alt in E1|apply Qgt_alt in E1];
    (destruct (y2 - inject_Z f ?= 1 # 2) eqn:E2;
     [apply Qeq_alt in E2|apply Qlt_alt in E2|apply Qgt_alt in E2]);
    try (destruct (Z.even f)); try lia; exfalso; lra.
Qed.

Lemma rne_mono (y1 y2 : Q) : y1 <= y2 -> (rne y1 <= rne y2)%Z.
Proof.
  intros Hle. destruct (floor_bounds y2) as [F1 F2].
  destruct (Qlt_le_dec (inject_Z (Qfloor y2)) y1) as [H|H].
  - apply rne_same_floor; [exact Hle|].
    apply floor_unique; lra.
  - apply Z.le_trans with (Qfloor y2); [now apply rne_le|now apply rne_ge].
Qed.

Lemma rne_comp (y1 y2 : Q) : y1 == y2 -> rne y1 = rne y2.
Proof.
  intros H. apply Z.le_antisymm; apply rne_mono; rewrite H; apply Qle_refl.
Qed.


Lemma exponent_comp (x y : Q) : 0 < x -> x == y -> exponent x = exponent y.
Proof.
  intros Hx E. destruct (exponent_spec x Hx) as [E1 E2].
  symmetry. apply exponent_unique; rewrite <- E; assumption.
Qed.

Lemma round_0 : round 0 = 0.
Proof. reflexivity. Qed.

(** A value and its scaled significand. *)
Lemma scaled (x : Q) (s : Z) : x / pow2 s * pow2 s == x.
Proof.
  pose proof (pow2_pos s). field. intros E. rewrite E in H.
  now apply Qlt_irrefl in H.
Qed.

Lemma round_nonzero (x : Q) :
  ~ x == 0 ->
  round x == inject_Z (rne (x / pow2 (exponent (Qabs x) - 52)))
             * pow2 (exponent (Qabs x) - 52).
Proof.
  intros Hx. unfold round.
  destruct (Qeq_bool x 0) eqn:E; [apply Qeq_bool_iff in E; contradiction|].
  apply Qred_correct.
Qed.

Lemma Qabs_nonzero (x : Q) : ~ x == 0 -> 0 < Qabs x.
Proof.
  destruct x as [[|p|p] d]; intros H.
  - exfalso. apply H. reflexivity.
  - reflexivity.
  - reflexivity.
Qed.

Lemma Qabs_of_pos (x : Q) : 0 < x -> Qabs x = x.
Proof.
  destruct x as [[|p|p] d]; intros H; try reflexivity; discriminate H.
Qed.

Lemma round_comp (x y : Q) : x == y -> round x = round y.
Proof.
  intros E. unfold round.
  assert (Eb : Qeq_bool x 0 = Qeq_bool y 0).
  { destruct (Qeq_bool x 0) eqn:Ex, (Qeq_bool y 0) eqn:Ey; try reflexivity.
    - apply Qeq_bool_iff in Ex. rewrite E in Ex.
      apply Qeq_bool_iff in Ex. congruence.
    - apply Qeq_bool_iff in Ey. rewrite <- E in Ey.
      apply Qeq_bool_iff in Ey. congruence. }
  rewrite <- Eb. destruct (Qeq_bool x 0) eqn:Ex; [reflexivity|].
  assert (Hx : ~ x == 0).
  { intros H. apply Qeq_bool_iff in H. congruence. }
  assert (Ee : exponent (Qabs x) = exponent (Qabs y)).
  { apply exponent_comp; [now apply Qabs_nonzero|now rewrite E]. }
  rewrite <- Ee. apply Qred_complete.
  rewrite (rne_comp (x / pow2 (exponent (Qabs x) - 52))
                    (y / pow2 (exponent (Qabs x) - 52))); [reflexivity|].
  unfold Qdiv. apply Qmult_comp; [exact E|reflexivity].
Qed.

(** The significand of a positive value lies between 2^52 and 2^53. *)
Lemma significand_range (x : Q) :
  0 < x ->
  inject_Z (2 ^ 52) <= x / pow2 (exponent x - 52)
  /\ x / pow2 (exponent x - 52) < inject_Z (2 ^ 53).
Proof.
  intros Hx. destruct (exponent_spec x Hx) as [E1 E2].
  set (e := exponent x) in *.
  pose proof (pow2_pos (e - 52)) as Ps.
  assert (A : pow2 e == inject_Z (2 ^ 52) * pow2 (e - 52)).
  { rewrite <- pow2_Z by lia. rewrite <- pow2_add.
    now replace (52 + (e - 52))%Z with e by lia. }
  assert (B : pow2 (e + 1) == inject_Z (2 ^ 53) * pow2 (e - 52)).
  { rewrite <- pow2_Z by lia. rewrite <- pow2_add.
    now replace (53 + (e - 52))%Z with (e + 1)%Z by lia. }
  split.
  - apply Qle_shift_div_l; [exact Ps|]. now rewrite <- A.
  - apply Qlt_shift_div_r; [exact Ps|]. now rewrite <- B.
Qed.

Lemma round_pos (x : Q) :
  0 < x ->
  round x == inject_Z (rne (x / pow2 (exponent x - 52)))
             * pow2 (exponent x - 52).
Proof.
  intros Hx. rewrite round_nonzero.
  - now rewrite (Qabs_of_pos x Hx).
  - intros E. rewrite E in Hx. now apply Qlt_irrefl in Hx.
Qed.

(** Rounding keeps a positive value within its binade. *)
Lemma round_range (x : Q) :
  0 < x ->
  pow2 (exponent x) <= round x /\ round x <= pow2 (exponent x + 1).
Proof.
  intros Hx. rewrite (round_pos x Hx).
  destruct (significand_range x Hx) as [S1 S2].
  set (e := exponent x) in *. set (y := x / pow2 (e - 52)) in *.
  pose proof (pow2_pos (e - 52)) as Ps.
  assert (A : pow2 e == inject_Z (2 ^ 52) * pow2 (e - 52)).
  { rewrite <- pow2_Z by lia. rewrite <- pow2_add.
    now replace (52 + (e - 52))%Z with e by lia. }
  assert (B : pow2 (e + 1) == inject_Z (2 ^ 53) * pow2 (e - 52)).
  { rewrite <- pow2_Z by lia. rewrite <- pow2_add.
    now replace (53 + (e - 52))%Z with (e + 1)%Z by lia. }
  rewrite A, B. split.
  - apply Qmult_le_compat_r; [|now apply Qlt_le_weak].
    rewrite <- Zle_Qle. now apply rne_ge.
  - apply Qmult_le_compat_r; [|now apply Qlt_le_weak].
    rewrite <- Zle_Qle. apply rne_le. now apply Qlt_le_weak.
Qed.

Lemma round_pos_pos (x : Q) : 0 < x -> 0 < round x.
Proof.
  intros Hx. destruct (round_range x Hx) as [H _].
  eapply Qlt_le_trans; [apply pow2_pos|exact H].
Qed.

(** Rounding is monotone on the non-negative values. *)
Lemma round_mono (x y : Q) : 0 <= x -> x <= y -> round x <= round y.
Proof.
  intros H0 Hxy.
  apply Qle_lt_or_eq in H0. destruct H0 as [Hx|Hx].
  2:{ rewrite <- (round_comp 0 x Hx). rewrite round_0.
      apply Qle_lt_or_eq in Hxy. destruct Hxy as [Hy|Hy].
      - apply Qlt_le_weak, round_pos_pos. now rewrite Hx.
      - rewrite <- (round_comp x y Hy), <- (round_comp 0 x Hx).
        apply Qle_refl. }
  assert (Hy : 0 < y) by (eapply Qlt_le_trans; eauto).
  destruct (exponent_spec x Hx) as [X1 X2].
  destruct (exponent_spec y Hy) as [Y1 Y2].
  destruct (Z.eq_dec (exponent x) (exponent y)) as [Ee|Ne].
  - rewrite (round_pos x Hx), (round_pos y Hy), Ee.
    pose proof (pow2_pos (exponent y - 52)) as Ps.
    apply Qmult_le_compat_r; [|now apply Qlt_le_weak].
    rewrite <- Zle_Qle. apply rne_mono.
    apply Qmult_le_compat_r; [exact Hxy|].
    apply Qlt_le_weak, Qinv_lt_0_compat, Ps.
  - assert (Hlt : (exponent x < exponent y + 1)%Z).
    { apply pow2_lt_inv. eapply Qle_lt_trans; [exact X1|].
      eapply Qle_lt_trans; eauto. }
    destruct (round_range x Hx) as [_ Rx].
    destruct (round_range y Hy) as [Ry _].
    eapply Qle_trans; [exact Rx|]. eapply Qle_trans; [|exact Ry].
    apply pow2_le. lia.
Qed.

(** An integer below 2^53 is a binary64 value. *)
Lemma round_int (z : Z) :
  (0 <= z < 2 ^ 53)%Z -> round (inject_Z z) == inject_Z z.
Proof.
  intros [H0 H53].
  destruct (Z.eq_dec z 0) as [->|Hz]; [reflexivity|].
  assert (Hx : 0 < inject_Z z).
  { change 0 with (inject_Z 0). rewrite <- Zlt_Qlt. lia. }
  rewrite (round_pos _ Hx).
  destruct (exponent_spec _ Hx) as [E1 E2].
  set (e := exponent (inject_Z z)) in *.
  assert (He : (e < 53)%Z).
  { apply pow2_lt_inv. eapply Qle_lt_trans; [exact E1|].
    rewrite pow2_Z by lia. now rewrite <- Zlt_Qlt. }
  assert (Hs : inject_Z z / pow2 (e - 52) == inject_Z (z * 2 ^ (52 - e))).
  { rewrite inject_Z_mult, <- pow2_Z by lia.
    replace (52 - e)%Z with (- (e - 52))%Z by lia.
    unfold pow2. rewrite Qpower_opp. reflexivity. }
  rewrite (rne_comp _ _ Hs), rne_int, <- Hs. apply scaled.
Qed.

(** The error of rounding a positive value: half a unit in the last place,
    which is at most the value times 2^-53. *)
Lemma round_error (x : Q) :
  0 < x -> Qabs (round x - x) <= x * pow2 (-53).
Proof.
  intros Hx. rewrite (round_pos x Hx).
  destruct (exponent_spec x Hx) as [E1 _].
  set (e := exponent x) in *. set (s := (e - 52)%Z).
  pose proof (pow2_pos s) as Ps.
  pose proof (rne_error (x / pow2 s)) as Hr.
  pose proof (scaled x s) as Hsc.
  assert (Hh : pow2 e * pow2 (-53) == (1 # 2) * pow2 s).
  { rewrite <- pow2_add. replace (e + -53)%Z with (s + -1)%Z by (unfold s; lia).
    rewrite pow2_add. change (pow2 (-1)) with (1 # 2). ring. }
  pose proof (pow2_pos (-53)) as P53.
  apply Qabs_Qle_condition in Hr. apply Qabs_Qle_condition.
  set (y := x / pow2 s) in *. set (r := inject_Z (rne y)) in *.
  set (P := pow2 s) in *. set (U := pow2 (-53)) in *.
  set (PE := pow2 e) in *.
  assert (B : (1 # 2) * P <= x * U) by nra.
  split; nra.
Qed.


Lemma of_int_mono (a b : Z) : (0 <= a <= b)%Z -> of_int a <= of_int b.
Proof.
  intros [H0 Hab]. apply round_mono.
  - change 0 with (inject_Z 0). now rewrite <- Zle_Qle.
  - now rewrite <- Zle_Qle.
Qed.

(** The quotient of a count by a size that holds it. *)
Lemma truediv_range (a n : Z) :
  (0 <= a <= n)%Z -> (0 < n)%Z -> 0 <= truediv a n /\ truediv a n <= 1.
Proof.
  intros [H0 Han] Hn.
  assert (Ha : 0 <= of_int a) by (apply (of_int_mono 0 a); lia).
  assert (Hle : of_int a <= of_int n) by (apply of_int_mono; lia).
  assert (H1 : 1 <= of_int n) by (apply (of_int_mono 1 n); lia).
  assert (Q0 : 0 <= of_int a / of_int n).
  { apply Qle_shift_div_l; lra. }
  assert (Q1 : of_int a / of_int n <= 1).
  { apply Qle_shift_div_r; lra. }
  unfold truediv. split.
  - apply (round_mono 0 _ (Qle_refl 0) Q0).
  - apply (round_mono _ 1 Q0 Q1).
Qed.

Lemma mul_100_range (q : Q) :
  0 <= q -> q <= 1 ->
  0 <= mul q (of_int 100) /\ mul q (of_int 100) <= 100.
Proof.
  intros H0 H1. change (of_int 100) with 100. unfold mul. split.
  - apply (round_mono 0 (q * 100) (Qle_refl 0)). lra.
  - apply (round_mono (q * 100) 100); lra.
Qed.

(** The rate of line 181 against the exact quotient: both roundings
    together change it by at most 2^-51 of its value. *)
Lemma rate_error (a n : Z) :
  (0 <= a <= n)%Z -> (0 < n < 2 ^ 53)%Z ->
  Qabs (mul (truediv a n) (of_int 100) - 100 * inject_Z a / inject_Z n)
  <= 100 * inject_Z a / inject_Z n * pow2 (-51).
Proof.
  intros [H0 Han] [Hn H53].
  assert (Ea : of_int a == inject_Z a) by (apply round_int; lia).
  assert (En : of_int n == inject_Z n) by (apply round_int; lia).
  assert (QN : 0 < inject_Z n).
  { change 0 with (inject_Z 0). now rewrite <- Zlt_Qlt. }
  assert (Eq : of_int a / of_int n == inject_Z a / inject_Z n).
  { now rewrite Ea, En. }
  unfold truediv. rewrite (round_comp _ _ Eq).
  change (of_int 100) with 100. unfold mul.
  destruct (Z.eq_dec a 0) as [->|Hz].
  - assert (E0 : inject_Z 0 / inject_Z n == 0).
    { unfold Qdiv. change (inject_Z 0) with 0. ring. }
    rewrite (round_comp _ _ E0), round_0.
    assert (E1 : 0 * 100 == 0) by ring.
    rewrite (round_comp _ _ E1), round_0.
    change (inject_Z 0) with 0.
    assert (Z0 : 100 * 0 / inject_Z n == 0) by (unfold Qdiv; ring).
    apply Qabs_Qle_condition. rewrite Z0. split; lra.
  - set (q := inject_Z a / inject_Z n).
    assert (Hq : 0 < q).
    { unfold q. apply Qlt_shift_div_l; [exact QN|].
      rewrite Qmult_0_l. change 0 with (inject_Z 0).
      rewrite <- Zlt_Qlt. lia. }
    pose proof (round_error q Hq) as Eq1.
    pose proof (round_pos_pos q Hq) as Hq'.
    set (q' := round q) in *.
    assert (Hp : 0 < q' * 100) by lra.
    pose proof (round_error _ Hp) as Ep.
    set (r := round (q' * 100)) in *.
    assert (U4 : pow2 (-51) == 4 * pow2 (-53)) by reflexivity.
    assert (U0 : 0 < pow2 (-53)) by apply pow2_pos.
    assert (U1 : pow2 (-53) <= 1) by (apply Qlt_le_weak; reflexivity).
    setoid_replace (100 * inject_Z a / inject_Z n) with (100 * q)
      by (unfold q, Qdiv; ring).
    rewrite U4. set (U := pow2 (-53)) in *.
    apply Qabs_Qle_condition in Eq1. apply Qabs_Qle_condition in Ep.
    apply Qabs_Qle_condition.
    assert (QU : 0 <= q * U) by nra.
    assert (QUU : q * U * U <= q * U) by nra.
    split; nra.
Qed.


(** On every group of up to 100 rows the rate agrees with the one the
    IEEE 754 operations of the Standard Library give. *)
Lemma rate_agrees_with_SpecFloat :
  forall a n, In (a, n) (counts_up_to 100) ->
    of_spec (spec_rate a n) = Some (mul (truediv a n) (of_int 100)).
Proof.
  assert (H : forallb (fun p =>
                match of_spec (spec_rate (fst p) (snd p)) with
                | Some q =>
                    Qeq_bool q (mul (truediv (fst p) (snd p)) (of_int 100))
                | None => false
                end) (counts_up_to 100) = true)
    by (vm_compute; reflexivity).
  rewrite forallb_forall in H. intros a n Hin. specialize (H _ Hin).
  cbn [fst snd] in H.
  destruct (of_spec (spec_rate a n)) as [q|] eqn:E; [|discriminate].
  apply Qeq_bool_iff in H. f_equal.
  assert (Hq : exists q0, q = Qred q0).
  { unfold of_spec in E.
    destruct (spec_rate a n) as [sg|sg| |sg m e]; try discriminate.
    - exists 0. injection E as <-. reflexivity.
    - exists (inject_Z (if sg then Z.neg m else Z.pos m) * pow2 e).
      congruence. }
  assert (Hr : exists r0, mul (truediv a n) (of_int 100) = Qred r0).
  { unfold mul. generalize (truediv a n * of_int 100). intros z.
    unfold round. destruct (Qeq_bool z 0); [now exists 0|].
    now exists (inject_Z (rne (z / pow2 (exponent (Qabs z) - 52)))
                * pow2 (exponent (Qabs z) - 52)). }
  destruct Hq as [q0 ->]. destruct Hr as [r0 Hr]. rewrite Hr in *.
  apply Qred_complete. now rewrite !Qred_correct in H.
Qed.

(** The rate is 0 only for a count of 0. *)
Lemma rate_zero_iff (a n : Z) :
  (0 <= a <= n)%Z -> (0 < n)%Z ->
  (mul (truediv a n) (of_int 100) == 0 <-> a = 0%Z).
Proof.
  intros [H0 Han] Hn. split.
  - intros E. destruct (Z.eq_dec a 0) as [Hz|Hz]; [exact Hz|exfalso].
    assert (Ha : 1 <= of_int a) by (apply (of_int_mono 1 a); lia).
    assert (HN : 1 <= of_int n) by (apply (of_int_mono 1 n); lia).
    assert (Hq : 0 < of_int a / of_int n).
    { apply Qlt_shift_div_l; lra. }
    pose proof (round_pos_pos _ Hq) as Hq'. fold (truediv a n) in Hq'.
    assert (Hp : 0 < truediv a n * of_int 100).
    { change (of_int 100) with 100. lra. }
    pose proof (round_pos_pos _ Hp) as Hr. fold (mul (truediv a n) (of_int 100)) in Hr.
    rewrite E in Hr. now apply Qlt_irrefl in Hr.
  - intros ->. unfold truediv.
    assert (E0 : of_int 0 / of_int n == 0).
    { change (of_int 0) with 0. unfold Qdiv. ring. }
    rewrite (round_comp _ _ E0), round_0. reflexivity.
Qed.

(** The rate is 100 only for a count that is the size, when the size is
    below 2^53. *)
Lemma rate_hundred_iff (a n : Z) :
  (0 <= a <= n)%Z -> (0 < n < 2 ^ 53)%Z ->
  (mul (truediv a n) (of_int 100) == 100 <-> a = n).
Proof.
  intros [H0 Han] [Hn H53]. split.
  - intros E. destruct (Z.eq_dec a n) as [Hz|Hz]; [exact Hz|exfalso].
    assert (Ea : of_int a == inject_Z a) by (apply round_int; lia).
    assert (En : of_int n == inject_Z n) by (apply round_int; lia).
    assert (QN : 0 < inject_Z n).
    { change 0 with (inject_Z 0). now rewrite <- Zlt_Qlt. }
    assert (QA : 0 <= inject_Z a).
    { change 0 with (inject_Z 0). now rewrite <- Zle_Qle. }
    assert (Q1 : inject_Z a + 1 <= inject_Z n).
    { change 1 with (inject_Z 1). rewrite <- inject_Z_plus, <- Zle_Qle. lia. }
    assert (Q53 : inject_Z n <= inject_Z (2 ^ 53)).
    { rewrite <- Zle_Qle. lia. }
    set (c := 1 - pow2 (-53)).
    assert (Hq0 : 0 <= of_int a / of_int n).
    { rewrite Ea, En. apply Qle_shift_div_l; lra. }
    assert (Hqc : of_int a / of_int n <= c).
    { rewrite Ea, En. apply Qle_shift_div_r; [exact QN|].
      unfold c. change (pow2 (-53)) with (1 / inject_Z (2 ^ 53)).
      assert (P : 0 < inject_Z (2 ^ 53)) by reflexivity.
      assert (D : inject_Z n / inject_Z (2 ^ 53) <= 1).
      { apply Qle_shift_div_r; lra. }
      setoid_replace ((1 - 1 / inject_Z (2 ^ 53)) * inject_Z n)
        with (inject_Z n - inject_Z n / inject_Z (2 ^ 53))
        by (unfold Qdiv; ring).
      lra. }
    pose proof (round_mono _ _ Hq0 Hqc) as Hq.
    fold (truediv a n) in Hq.
    assert (Hc : round c = c) by (vm_compute; reflexivity).
    rewrite Hc in Hq.
    assert (Hq' : 0 <= truediv a n).
    { apply (round_mono 0 _ (Qle_refl 0) Hq0). }
    assert (Hp0 : 0 <= truediv a n * of_int 100).
    { change (of_int 100) with 100. lra. }
    assert (Hpc : truediv a n * of_int 100 <= c * 100).
    { change (of_int 100) with 100. lra. }
    pose proof (round_mono _ _ Hp0 Hpc) as Hr.
    fold (mul (truediv a n) (of_int 100)) in Hr.
    assert (Hlt : round (c * 100) < 100) by (vm_compute; reflexivity).
    rewrite E in Hr. lra.
  - intros ->. unfold truediv.
    assert (HN : 1 <= of_int n) by (apply (of_int_mono 1 n); lia).
    assert (E1 : of_int n / of_int n == 1).
    { field. intros E. rewrite E in HN. lra. }
    rewrite (round_comp _ _ E1). reflexivity.
Qed.

End Rounding.

Section ArrestRates.
Import Py Pd PdGroup App Spec.

(** The lambda of line 181 on a group that is not empty. *)
Lemma arrest_rate_value (x : Series) :
  x <> [] ->
  (arrest_rate x
   == 100 * inject_Z (sum_mask (eq_scalar x true))
      / inject_Z (Z.of_nat (List.length x)))%Q
  /\ (0 <= arrest_rate x)%Q /\ (arrest_rate x <= 100)%Q.
Proof.
  intros Hne. unfold arrest_rate. rewrite (nonempty_length_pos _ Hne).
  set (A := sum_mask (eq_scalar x true)).
  set (N := Z.of_nat (List.length x)).
  assert (HN : 0 < N).
  { unfold N. destruct x; [congruence|]. cbn [List.length]. lia. }
  assert (HA : 0 <= A <= N).
  { unfold A, N, sum_mask, eq_scalar. split; [lia|].
    apply inj_le. rewrite <- (length_map (fun x => Py.eqb x (Bool true)) x).
    apply filter_length_le. }
  assert (QN : (0 < inject_Z N)%Q).
  { change (inject_Z 0 < inject_Z N)%Q. now rewrite <- Zlt_Qlt. }
  assert (Q0 : (0 <= inject_Z A / inject_Z N)%Q).
  { apply Qle_shift_div_l; [exact QN|]. rewrite Qmult_0_l.
    change (inject_Z 0 <= inject_Z A)%Q. rewrite <- Zle_Qle. lia. }
  assert (Q1 : (inject_Z A / inject_Z N <= 1)%Q).
  { apply Qle_shift_div_r; [exact QN|]. rewrite Qmult_1_l.
    rewrite <- Zle_Qle. lia. }
  rewrite Qred_correct. split; [|split].
  - field. intros H. rewrite H in QN. now apply Qlt_irrefl in QN.
  - apply Qmult_le_0_compat; [exact Q0|discriminate].
  - setoid_replace 100%Q with (1 * 100)%Q at 2 by reflexivity.
    apply Qmult_le_compat_r; [exact Q1|discriminate].
Qed.

(** Line 180 on a view with both columns: one rate per group key. *)
Lemma group_rates_rows (filtered_df : DataFrame) (i j : nat) :
  get_loc "Primary Type" (columns filtered_df) = Some i ->
  get_loc "Arrest" (columns filtered_df) = Some j ->
  group_rates filtered_df
  = Ok (map (fun k =>
               (k, arrest_rate
                     (map (cell j)
                          (filter (fun r => same_key (cell i r) k)
                                  (rows filtered_df)))))
            (group_keys (map (cell i) (rows filtered_df)))).
Proof.
  intros Hi Hj. unfold group_rates, getitem. rewrite Hi, Hj.
  cbn [bind]. unfold groupby_apply. f_equal.
  apply map_ext. intros k. now rewrite group_rows.
Qed.

Lemma group_size_rows (df : DataFrame) (i : nat) (k : object) :
  get_loc "Primary Type" (columns df) = Some i ->
  group_size df k
  = List.length (filter (fun r => same_key (cell i r) k) (rows df)).
Proof.
  intros Hi. unfold group_size. f_equal. apply filter_ext. intros r.
  unfold in_group, value_in. now rewrite Hi.
Qed.

Lemma group_arrests_rows (df : DataFrame) (i j : nat) (k : object) :
  get_loc "Primary Type" (columns df) = Some i ->
  get_loc "Arrest" (columns df) = Some j ->
  Z.of_nat (group_arrests df k)
  = sum_mask (eq_scalar
                (map (cell j)
                     (filter (fun r => same_key (cell i r) k) (rows df)))
                true).
Proof.
  intros Hi Hj. rewrite sum_mask_rows, filter_twice.
  unfold group_arrests. do 2 f_equal. apply filter_ext. intros r.
  unfold in_group, arrested, value_in. now rewrite Hi, Hj.
Qed.

(** What line 180 computes: one entry per distinct non-null primary
    type; its group is not empty and its rate is
    100 * count(arrest = true in group) / count(group), within [0, 100]. *)
Lemma group_rates_spec (filtered_df : DataFrame) :
  has_column filtered_df "Primary Type" = true ->
  has_column filtered_df "Arrest" = true ->
  exists rates,
    group_rates filtered_df = Ok rates
    /\ NoDup (map fst rates)
    /\ (forall r v, In r (rows filtered_df) ->
          value_in filtered_df "Primary Type" r = Some v ->
          notna v = true ->
          exists k, In k (map fst rates) /\ same_key v k = true)
    /\ (forall k rate, In (k, rate) rates ->
          notna k = true
          /\ (0 < group_size filtered_df k)%nat
          /\ (rate == 100 * inject_Z (Z.of_nat (group_arrests filtered_df k))
                      / inject_Z (Z.of_nat (group_size filtered_df k)))%Q
          /\ (0 <= rate)%Q /\ (rate <= 100)%Q).
Proof.
  intros Hpt Har. unfold has_column in Hpt, Har.
  destruct (has_column_get_loc _ _ Hpt) as [i Hi].
  destruct (has_column_get_loc _ _ Har) as [j Hj].
  eexists. split; [apply (group_rates_rows _ i j Hi Hj)|].
  rewrite map_map. cbn [fst]. rewrite map_id.
  split; [apply group_keys_nodup|split].
  - intros r v Hr Hv Hnn. unfold value_in in Hv. rewrite Hi in Hv.
    injection Hv as <-. apply group_keys_complete; [|exact Hnn].
    now apply in_map.
  - intros k rate Hin. apply in_map_iff in Hin.
    destruct Hin as [k' [E Hk]]. injection E as -> <-.
    destruct (group_keys_in _ _ Hk) as [Hnn Hcol].
    apply in_map_iff in Hcol. destruct Hcol as [r0 [Hr0 Hin0]].
    set (g := filter (fun r => same_key (cell i r) k) (rows filtered_df)).
    assert (Hg : map (cell j) g <> []).
    { assert (In r0 g).
      { apply filter_In. split; [exact Hin0|].
        rewrite Hr0. apply same_key_refl. }
      destruct g; [contradiction|discriminate]. }
    destruct (arrest_rate_value _ Hg) as (Hval & Hlo & Hhi).
    rewrite length_map in Hval.
    rewrite (group_size_rows _ i k Hi).
    rewrite (group_arrests_rows _ i j k Hi Hj). fold g.
    repeat split; auto.
    destruct g; [now elim Hg|cbn [List.length]; lia].
Qed.

Lemma arrests_within_group (x : Series) :
  0 <= sum_mask (eq_scalar x true) <= Z.of_nat (List.length x).
Proof.
  unfold sum_mask, eq_scalar. split; [lia|].
  apply inj_le. rewrite <- (length_map (fun x => Py.eqb x (Bool true)) x).
  apply filter_length_le.
Qed.

(** The lambda of line 181, in float64, on a group that is not empty: the
    value, its range, and how far it is from the exact quotient. *)
Lemma arrest_rate64_value (x : Series) :
  x <> [] ->
  arrest_rate64 x
  = F64.mul (F64.truediv (sum_mask (eq_scalar x true))
                         (Z.of_nat (List.length x)))
            (F64.of_int 100)
  /\ (0 <= arrest_rate64 x)%Q /\ (arrest_rate64 x <= 100)%Q
  /\ (Z.of_nat (List.length x) < 2 ^ 53 ->
      (Qabs (arrest_rate64 x
             - 100 * inject_Z (sum_mask (eq_scalar x true))
               / inject_Z (Z.of_nat (List.length x)))
       <= 100 * inject_Z (sum_mask (eq_scalar x true))
          / inject_Z (Z.of_nat (List.length x)) * F64.pow2 (-51))%Q).
Proof.
  intros Hne. unfold arrest_rate64. rewrite (nonempty_length_pos _ Hne).
  pose proof (arrests_within_group x) as HA.
  assert (HN : 0 < Z.of_nat (List.length x)).
  { destruct x; [congruence|]. cbn [List.length]. lia. }
  destruct (truediv_range _ _ HA HN) as [Q0 Q1].
  destruct (mul_100_range _ Q0 Q1) as [R0 R1].
  split; [reflexivity|split; [exact R0|split; [exact R1|]]].
  intros H53. apply rate_error; [exact HA|split; assumption].
Qed.

(** The float64 rate and the exact rate have their extremes together. *)
Lemma arrest_rate64_extremes (x : Series) :
  x <> [] ->
  ((arrest_rate64 x == 0)%Q <-> (arrest_rate x == 0)%Q)
  /\ (Z.of_nat (List.length x) < 2 ^ 53 ->
      ((arrest_rate64 x == 100)%Q <-> (arrest_rate x == 100)%Q)).
Proof.
  intros Hne.
  destruct (arrest_rate_value x Hne) as (Hval & _ & _).
  pose proof (arrests_within_group x) as HA.
  assert (HN : 0 < Z.of_nat (List.length x)).
  { destruct x; [congruence|]. cbn [List.length]. lia. }
  assert (QN : (0 < inject_Z (Z.of_nat (List.length x)))%Q).
  { change (inject_Z 0 < inject_Z (Z.of_nat (List.length x)))%Q.
    now rewrite <- Zlt_Qlt. }
  destruct (arrest_rate64_value x Hne) as (-> & _).
  set (a := sum_mask (eq_scalar x true)) in *.
  set (n := Z.of_nat (List.length x)) in *.
  assert (Hq : (100 * inject_Z a / inject_Z n * inject_Z n
                == 100 * inject_Z a)%Q).
  { field. intros Z0. rewrite Z0 in QN. now apply Qlt_irrefl in QN. }
  assert (E0 : (arrest_rate x == 0)%Q <-> a = 0).
  { rewrite Hval. split.
    - intros E. rewrite E in Hq. apply inject_Z_injective.
      change (inject_Z 0) with 0%Q. lra.
    - intros ->. unfold Qdiv. change (inject_Z 0) with 0%Q. ring. }
  assert (E100 : (arrest_rate x == 100)%Q <-> a = n).
  { rewrite Hval. split.
    - intros E. rewrite E in Hq. apply inject_Z_injective. lra.
    - intros ->. field. intros Z0. rewrite Z0 in QN.
      now apply Qlt_irrefl in QN. }
  split.
  - rewrite E0. now apply rate_zero_iff.
  - intros H53. rewrite E100. apply rate_hundred_iff; [exact HA|lia].
Qed.

(** Line 180 on a view with both columns: one rate per group key. *)
Lemma group_rates64_rows (filtered_df : DataFrame) (i j : nat) :
  get_loc "Primary Type" (columns filtered_df) = Some i ->
  get_loc "Arrest" (columns filtered_df) = Some j ->
  group_rates64 filtered_df
  = Ok (map (fun k =>
               (k, arrest_rate64
                     (map (cell j)
                          (filter (fun r => same_key (cell i r) k)
                                  (rows filtered_df)))))
            (group_keys (map (cell i) (rows filtered_df)))).
Proof.
  intros Hi Hj. unfold group_rates64, getitem. rewrite Hi, Hj.
  cbn [bind]. unfold groupby_apply. f_equal.
  apply map_ext. intros k. now rewrite group_rows.
Qed.

(** What line 180 computes: one entry per distinct non-null primary type;
    its group is not empty; its rate is the float64 value of
    (count(arrest = true in group) / count(group)) * 100, which lies in
    [0, 100] and, for a group of fewer than 2^53 rows, differs from
    100 * count / count by at most 2^-51 of it. *)
Lemma group_rates64_spec (filtered_df : DataFrame) :
  has_column filtered_df "Primary Type" = true ->
  has_column filtered_df "Arrest" = true ->
  exists rates,
    group_rates64 filtered_df = Ok rates
    /\ NoDup (map fst rates)
    /\ (forall r v, In r (rows filtered_df) ->
          value_in filtered_df "Primary Type" r = Some v ->
          notna v = true ->
          exists k, In k (map fst rates) /\ same_key v k = true)
    /\ (forall k rate, In (k, rate) rates ->
          notna k = true
          /\ (0 < group_size filtered_df k)%nat
          /\ rate = F64.mul
                      (F64.truediv (Z.of_nat (group_arrests filtered_df k))
                                   (Z.of_nat (group_size filtered_df k)))
                      (F64.of_int 100)
          /\ (0 <= rate)%Q /\ (rate <= 100)%Q
          /\ (Z.of_nat (group_size filtered_df k) < 2 ^ 53 ->
              (Qabs (rate
                     - 100 * inject_Z (Z.of_nat (group_arrests filtered_df k))
                       / inject_Z (Z.of_nat (group_size filtered_df k)))
               <= 100 * inject_Z (Z.of_nat (group_arrests filtered_df k))
                  / inject_Z (Z.of_nat (group_size filtered_df k))
                  * F64.pow2 (-51))%Q)).
Proof.
  intros Hpt Har. unfold has_column in Hpt, Har.
  destruct (has_column_get_loc _ _ Hpt) as [i Hi].
  destruct (has_column_get_loc _ _ Har) as [j Hj].
  eexists. split; [apply (group_rates64_rows _ i j Hi Hj)|].
  rewrite map_map. cbn [fst]. rewrite map_id.
  split; [apply group_keys_nodup|split].
  - intros r v Hr Hv Hnn. unfold value_in in Hv. rewrite Hi in Hv.
    injection Hv as <-. apply group_keys_complete; [|exact Hnn].
    now apply in_map.
  - intros k rate Hin. apply in_map_iff in Hin.
    destruct Hin as [k' [E Hk]]. injection E as -> <-.
    destruct (group_keys_in _ _ Hk) as [Hnn Hcol].
    apply in_map_iff in Hcol. destruct Hcol as [r0 [Hr0 Hin0]].
    set (g := filter (fun r => same_key (cell i r) k) (rows filtered_df)).
    assert (Hg : map (cell j) g <> []).
    { assert (In r0 g).
      { apply filter_In. split; [exact Hin0|].
        rewrite Hr0. apply same_key_refl. }
      destruct g; [contradiction|discriminate]. }
    destruct (arrest_rate64_value _ Hg) as (Hval & Hlo & Hhi & Herr).
    rewrite length_map in Hval, Herr.
    rewrite (group_size_rows _ i k Hi).
    rewrite (group_arrests_rows _ i j k Hi Hj). fold g.
    split; [exact Hnn|].
    split; [destruct g; [now elim Hg|cbn [List.length]; lia]|].
    split; [exact Hval|split; [exact Hlo|split; [exact Hhi|exact Herr]]].
Qed.

End ArrestRates.

Section ArrestRatesSorted.
Import Py Pd PdGroup App Spec Examples.

Lemma sorted_app_cross {A} (R : A -> A -> Prop) (l1 l2 : list A)
      (a b : A) :
  StronglySorted R (l1 ++ l2) -> In a l1 -> In b l2 -> R a b.
Proof.
  induction l1 as [|x l1 IH]; [intros _ []|].
  cbn [app]. intros Hs Ha Hb. apply StronglySorted_inv in Hs.
  destruct Hs as [Hs Hall]. destruct Ha as [->|Ha]; [|now apply IH].
  rewrite Forall_forall in Hall. apply Hall, in_or_app. now right.
Qed.

(** What lines 181-182 make of the group rates: the first 15 of a
    descending arrangement, so at most 15 entries in descending order, each
    an entry of the group rates, none lower than an entry left out. *)
Lemma top15_of_sorted (rates sorted : list (object * Q)) :
  sort_values_desc rates sorted ->
  StronglySorted descending (firstn 15 sorted)
  /\ (List.length (firstn 15 sorted) <= 15)%nat
  /\ incl (firstn 15 sorted) rates
  /\ (forall e e', In e (firstn 15 sorted) -> In e' rates ->
                   ~ In e' (firstn 15 sorted) -> (snd e' <= snd e)%Q).
Proof.
  intros [Hperm Hsorted].
  split; [now apply firstn_sorted|].
  split; [rewrite length_firstn; lia|].
  split.
  - intros e He. apply firstn_incl in He.
    eapply Permutation_in; [apply Permutation_sym, Hperm|exact He].
  - intros e e' He He' Hout.
    apply (Permutation_in _ Hperm) in He'.
    rewrite <- (firstn_skipn 15 sorted) in He', Hsorted.
    apply in_app_or in He'. destruct He' as [He'|He']; [contradiction|].
    apply (sorted_app_cross _ _ _ e e' Hsorted He He').
Qed.

(** Lines 180-182 always have a result on a view with both columns. *)
Lemma arrest_rates64_total (filtered_df : DataFrame) :
  has_column filtered_df "Primary Type" = true ->
  has_column filtered_df "Arrest" = true ->
  exists out, arrest_rates64 filtered_df out.
Proof.
  intros Hpt Har.
  destruct (group_rates64_spec _ Hpt Har) as (rates & Hr & _).
  exists (firstn 15 (sort_values_desc_stable rates)).
  exists rates, (sort_values_desc_stable rates).
  split; [exact Hr|split; [|reflexivity]].
  apply sort_values_desc_stable_admissible.
Qed.

(** The example of the claim has one admissible result. *)
Lemma arrest_rates64_example (out : list (object * Q)) :
  arrest_rates64 theft_theft_battery out ->
  out = [(Str "BATTERY", 100%Q); (Str "THEFT", 50%Q)].
Proof.
  intros (rates & sorted & Hr & [Hperm Hsorted] & ->).
  vm_compute in Hr. injection Hr as <-.
  apply Permutation_length_2_inv in Hperm. destruct Hperm as [->| ->].
  - reflexivity.
  - apply StronglySorted_inv in Hsorted. destruct Hsorted as [_ Hall].
    apply Forall_inv in Hall. unfold descending, Qle in Hall.
    cbn in Hall. lia.
Qed.

(** C7, amended: on a filtered view with the arrest and primary-type
    columns, every distinct non-null primary type has one group rate; no
    group is empty; the rate is the float64 value of
    (count(arrest = true in group) / count(group)) * 100, which lies in
    [0, 100] and is within 2^-51 of 100 * count / count, relative to it,
    for a group of fewer than 2^53 rows; lines 180-182 always have a result,
    and every result is the first 15 entries of a descending arrangement of
    these rates, so at most 15 entries, in descending order, none lower than
    an entry left out.  The order among equal rates is left open.  For types
    THEFT, THEFT, BATTERY with arrest true, false, true the result is
    BATTERY at 100.0 and then THEFT at 50.0. *)
Theorem arrest_rates64_descending_top15 :
  (forall filtered_df,
     has_column filtered_df "Primary Type" = true ->
     has_column filtered_df "Arrest" = true ->
     exists rates,
       group_rates64 filtered_df = Ok rates
       /\ NoDup (map fst rates)
       /\ (forall r v, In r (rows filtered_df) ->
             value_in filtered_df "Primary Type" r = Some v ->
             notna v = true ->
             exists k, In k (map fst rates) /\ same_key v k = true)
       /\ (forall k rate, In (k, rate) rates ->
             notna k = true
             /\ (0 < group_size filtered_df k)%nat
             /\ rate = F64.mul
                         (F64.truediv
                            (Z.of_nat (group_arrests filtered_df k))
                            (Z.of_nat (group_size filtered_df k)))
                         (F64.of_int 100)
             /\ (0 <= rate)%Q /\ (rate <= 100)%Q
             /\ (Z.of_nat (group_size filtered_df k) < 2 ^ 53 ->
                 (Qabs (rate
                        - 100 * inject_Z
                                  (Z.of_nat (group_arrests filtered_df k))
                          / inject_Z (Z.of_nat (group_size filtered_df k)))
                  <= 100 * inject_Z (Z.of_nat (group_arrests filtered_df k))
                     / inject_Z (Z.of_nat (group_size filtered_df k))
                     * F64.pow2 (-51))%Q))
       /\ (exists out, arrest_rates64 filtered_df out)
       /\ (forall out, arrest_rates64 filtered_df out ->
             (exists sorted, Permutation rates sorted
                             /\ StronglySorted descending sorted
                             /\ out = firstn 15 sorted)
             /\ StronglySorted descending out
             /\ (List.length out <= 15)%nat
             /\ incl out rates
             /\ (forall e e', In e out -> In e' rates -> ~ In e' out ->
                              (snd e' <= snd e)%Q)))
  /\ (forall out, arrest_rates64 theft_theft_battery out ->
                  out = [(Str "BATTERY", 100%Q); (Str "THEFT", 50%Q)]).
Proof.
  split; [|exact arrest_rates64_example].
  intros fdf Hpt Har.
  destruct (group_rates64_spec _ Hpt Har)
    as (rates & Hr & Hnd & Hall & Hval).
  exists rates.
  split; [exact Hr|split; [exact Hnd|split; [exact Hall|]]].
  split; [exact Hval|].
  split; [now apply arrest_rates64_total|].
  intros out (rates' & sorted & Hr' & Hs & ->).
  rewrite Hr in Hr'. injection Hr' as <-.
  split; [destruct Hs as [Hp Hso]; now exists sorted|].
  now apply top15_of_sorted.
Qed.

Lemma arrest_rates64_descending_top15_witness :
  exists rates,
    group_rates64 theft_theft_battery = Ok rates
    /\ NoDup (map fst rates)
    /\ exists out, arrest_rates64 theft_theft_battery out.
Proof.
  destruct (proj1 arrest_rates64_descending_top15 theft_theft_battery
                  eq_refl eq_refl)
    as (rates & Hr & Hnd & _ & _ & Hex & _).
  exists rates. split; [exact Hr|split; [exact Hnd|exact Hex]].
Defined.

Lemma all_zero_sorted (l : list string) :
  StronglySorted descending (map rate_zero l).
Proof.
  induction l as [|t l IH]; cbn [map]; constructor; [exact IH|].
  apply Forall_forall. intros e He. apply in_map_iff in He.
  destruct He as [t' [<- _]]. unfold descending, Qle. cbn. lia.
Qed.

(** C7 as stated fails twice.  The value: with one arrest among three
    incidents the rate the code computes is 33.33333333333333, the float64
    value of (1 / 3) * 100, which is not 100 * 1 / 3.  The tie order: with
    1025 crime types of equal arrest rate, beyond the sizes a quicksort
    leaves in place, the reverse of the key order is a descending
    arrangement, hence a result of [sort_values], and its first 15 entries
    are not the first 15 in stable order. *)
Lemma value_and_tie_order_refuted :
  ~ (arrest_rate64 one_arrest_in_three == 100 * 1 / 3)%Q
  /\ ~ (forall filtered_df out rates,
          group_rates64 filtered_df = Ok rates ->
          arrest_rates64 filtered_df out ->
          out = firstn 15 (sort_values_desc_stable rates)).
Proof.
  split.
  - vm_compute. discriminate.
  - intros Hstable.
    assert (Hr : group_rates64 no_arrest_anywhere
                 = Ok (map rate_zero tied_types))
      by (vm_compute; reflexivity).
    assert (Hc : arrest_rates64 no_arrest_anywhere
                   (firstn 15 (rev (map rate_zero tied_types)))).
    { exists (map rate_zero tied_types), (rev (map rate_zero tied_types)).
      split; [exact Hr|split; [|reflexivity]].
      split; [apply Permutation_rev|].
      rewrite <- map_rev. apply all_zero_sorted. }
    specialize (Hstable _ _ _ Hr Hc). vm_compute in Hstable.
    discriminate Hstable.
Qed.

End ArrestRatesSorted.

(* ================================================================== *)
(** ** Further properties of the filter engine *)

Section FilterEngine.
Import Py Pd App Spec.

(** The filtered view has the header of the table, and its rows are the
    rows of the table that pass the tests of the four dimensions, in the
    order of the table. *)
Theorem filtered_view_is_row_filter (df : DataFrame) (sel : Sidebar) :
  exists filtered_df,
    apply_filters df sel = Ok filtered_df
    /\ columns filtered_df = columns df
    /\ rows filtered_df
       = filter (fun r => forallb (fun d => keeps (columns df) sel d r)
                                  script_order) (rows df)
    /\ (forall r, In r (rows filtered_df) <->
                  In r (rows df)
                  /\ forall d, keeps (columns df) sel d r = true).
Proof.
  rewrite apply_filters_script_order, apply_filters_in_rows.
  eexists. split; [reflexivity|]. cbn [columns rows].
  split; [reflexivity|split; [reflexivity|]].
  intros r. rewrite filter_In. cbn [forallb script_order].
  rewrite !andb_true_iff. split.
  - intros (Hin & Hy & Ht & Hl & Ha & _). split; [exact Hin|].
    intros d. now destruct d.
  - intros [Hin Hall]. split; [exact Hin|].
    repeat split; apply Hall.
Qed.

Lemma filter_idempotent {A} (p : A -> bool) (l : list A) :
  filter p (filter p l) = filter p l.
Proof.
  rewrite filter_twice. apply filter_ext. intros x. now destruct (p x).
Qed.

(** Filtering is idempotent: the filters applied to a filtered view, with
    the same selection, return that view. *)
Theorem apply_filters_idempotent (df filtered_df : DataFrame)
        (sel : Sidebar) :
  apply_filters df sel = Ok filtered_df ->
  apply_filters filtered_df sel = Ok filtered_df.
Proof.
  rewrite !apply_filters_script_order, !apply_filters_in_rows.
  intros E. injection E as <-. cbn [columns rows].
  now rewrite filter_idempotent.
Qed.

Lemma keeps_with_arrest (cols : list string) (sel : Sidebar)
      (a : arrest_option) (d : dimension) (r : list object) :
  In d membership_dimensions ->
  keeps cols (with_arrest a sel) d r = keeps cols sel d r.
Proof.
  intros [<-|[<-|[<-|[]]]]; reflexivity.
Qed.

(** The view under an arrest status is the arrest test applied to the view
    the three membership dimensions give. *)
Lemma with_arrest_rows (df : DataFrame) (sel : Sidebar) (a : arrest_option)
      (i : nat) :
  get_loc "Arrest" (columns df) = Some i ->
  apply_filters df (with_arrest a sel)
  = Ok {| columns := columns df;
          rows := filter (fun r => match a with
                                   | All => true
                                   | Yes => arrest_true (cell i r)
                                   | No => arrest_false (cell i r)
                                   end)
                    (filter (fun r => forallb
                                        (fun d => keeps (columns df) sel d r)
                                        membership_dimensions)
                            (rows df)) |}.
Proof.
  intros Hi. rewrite apply_filters_script_order, apply_filters_in_rows.
  do 2 f_equal. rewrite filter_twice. apply filter_ext. intros r.
  cbn [forallb script_order membership_dimensions].
  rewrite !(keeps_with_arrest _ sel a) by (cbn; tauto).
  rewrite !andb_true_r, <- !andb_assoc. do 3 f_equal.
  unfold keeps. cbn [column_of]. rewrite Hi.
  now destruct a.
Qed.

Lemma arrest_true_not_false (x : object) :
  arrest_true x = true -> arrest_false x = false.
Proof.
  unfold arrest_true, arrest_false.
  destruct x as [|z|s|b]; cbn; try discriminate.
  - intros H. apply Z.eqb_eq in H. now subst.
  - now destruct b.
Qed.

Lemma length_filter_split {A} (p q : A -> bool) (l : list A) :
  (forall x, p x = true -> q x = false) ->
  (List.length (filter p l) + List.length (filter q l)
   + List.length (filter (fun x => negb (p x) && negb (q x)) l)
   = List.length l)%nat.
Proof.
  intros Hpq. induction l as [|x l IH]; [reflexivity|].
  cbn [filter]. destruct (p x) eqn:Ep.
  - rewrite (Hpq _ Ep). cbn [negb andb List.length]. lia.
  - destruct (q x); cbn [negb andb List.length]; lia.
Qed.

(** The arrest filter splits a view: with the arrest column in the table,
    the "Yes" view and the "No" view are the rows of the "All" view whose
    arrest cell equals [True], respectively [False]; no row is in both, and
    the rows of the "All" view in neither are those whose arrest cell is
    neither [True] nor [False] (a null, say). *)
Theorem arrest_filter_splits_view (df all_df yes_df no_df : DataFrame)
        (sel : Sidebar) :
  has_column df "Arrest" = true ->
  apply_filters df (with_arrest All sel) = Ok all_df ->
  apply_filters df (with_arrest Yes sel) = Ok yes_df ->
  apply_filters df (with_arrest No sel) = Ok no_df ->
  rows yes_df = filter (arrested df) (rows all_df)
  /\ rows no_df = filter (not_arrested df) (rows all_df)
  /\ (forall r, In r (rows yes_df) -> ~ In r (rows no_df))
  /\ (len yes_df + len no_df
      + List.length (filter (fun r => negb (arrested df r)
                                      && negb (not_arrested df r))
                            (rows all_df))
      = len all_df)%nat.
Proof.
  intros Hcol Ha Hy Hn. unfold has_column in Hcol.
  destruct (has_column_get_loc _ _ Hcol) as [i Hi].
  rewrite (with_arrest_rows _ _ _ i Hi) in Ha.
  rewrite (with_arrest_rows _ _ _ i Hi) in Hy.
  rewrite (with_arrest_rows _ _ _ i Hi) in Hn.
  injection Ha as <-. injection Hy as <-. injection Hn as <-.
  cbn [rows]. rewrite filter_true.
  set (base := filter _ (rows df)).
  assert (Et : forall r, arrested df r = arrest_true (cell i r)).
  { intros r. unfold arrested, value_in. now rewrite Hi. }
  assert (Ef : forall r, not_arrested df r = arrest_false (cell i r)).
  { intros r. unfold not_arrested, value_in. now rewrite Hi. }
  split; [now apply filter_ext|split; [now apply filter_ext|split]].
  - intros r Hyes Hno. apply filter_In in Hyes, Hno.
    destruct Hyes as [_ Hyes], Hno as [_ Hno].
    apply arrest_true_not_false in Hyes. congruence.
  - unfold len. cbn [rows].
    rewrite (filter_ext _ _ (fun r => eq_sym (Et r))).
    rewrite (filter_ext (fun r => arrest_false (cell i r)) _
                        (fun r => eq_sym (Ef r))).
    apply length_filter_split. intros r. rewrite Et, Ef.
    apply arrest_true_not_false.
Qed.

End FilterEngine.

(* ================================================================== *)
(** ** Further properties of the summary metrics *)

Section SummaryMetrics.
Import Py Pd App Spec.

(** The arrest metric of a view with the arrest column, row by row. *)
Lemma arrests_made_rows (filtered_df : DataFrame) (i : nat) :
  get_loc "Arrest" (columns filtered_df) = Some i ->
  arrests_made filtered_df
  = Ok (MInt (Z.of_nat (List.length
                          (filter (fun r => arrest_true (cell i r))
                                  (rows filtered_df))))).
Proof.
  intros Hi. unfold arrests_made, has_column, getitem.
  rewrite (get_loc_has_column _ _ _ Hi), Hi. cbn [bind]. do 2 f_equal.
  destruct (dtype_is_bool (map (cell i) (rows filtered_df))) eqn:E.
  - rewrite (sum_bool_column _ E). apply sum_mask_rows.
  - apply sum_mask_rows.
Qed.

Lemma with_own_arrest (sel : Sidebar) :
  with_arrest (selected_arrest sel) sel = sel.
Proof. now destruct sel. Qed.

Lemma filter_none {A} (p : A -> bool) (l : list A) :
  (forall x, In x l -> p x = false) -> filter p l = [].
Proof.
  induction l as [|x l IH]; [reflexivity|]. intros H. cbn [filter].
  rewrite (H x (or_introl eq_refl)). apply IH. intros y Hy. apply H.
  now right.
Qed.

(** The arrest metric follows the arrest filter: with the arrest column in
    the table, under "Yes" the metric "Arrests Made" shows the same number
    as "Total Incidents", and under "No" it shows 0. *)
Theorem arrests_made_under_arrest_filter (df filtered_df : DataFrame)
        (sel : Sidebar) :
  has_column df "Arrest" = true ->
  apply_filters df sel = Ok filtered_df ->
  (selected_arrest sel = Yes ->
     arrests_made filtered_df = Ok (total_incidents filtered_df))
  /\ (selected_arrest sel = No ->
        arrests_made filtered_df = Ok (MInt 0)).
Proof.
  intros Hcol Hf. unfold has_column in Hcol.
  destruct (has_column_get_loc _ _ Hcol) as [i Hi].
  rewrite <- (with_own_arrest sel), (with_arrest_rows _ _ _ i Hi) in Hf.
  injection Hf as <-.
  split; intros Ha; rewrite Ha;
    rewrite (arrests_made_rows _ i) by exact Hi; cbn [rows].
  - unfold total_incidents, len. cbn [rows].
    now rewrite filter_idempotent.
  - rewrite filter_none; [reflexivity|].
    intros r Hr. apply filter_In in Hr. destruct Hr as [_ Hr].
    unfold arrest_false in Hr. unfold arrest_true.
    destruct (cell i r) as [|z|s|b]; cbn in *; try reflexivity.
    + apply Z.eqb_eq in Hr. now subst.
    + now destruct b.
Qed.

Lemma unique_from_length (seen : list object) (s : Series) :
  (List.length (unique_from seen s) <= List.length s)%nat.
Proof.
  revert seen. induction s as [|x s IH]; intros seen; [reflexivity|].
  cbn [unique_from]. destruct (existsb (same_key x) seen); cbn [List.length].
  - specialize (IH seen). lia.
  - specialize (IH (x :: seen)). lia.
Qed.

(** Neither count exceeds the total: "Arrests Made" and "Crime Types",
    when they are numbers, lie between 0 and "Total Incidents". *)
Theorem count_metrics_within_total (filtered_df : DataFrame) (n : Z) :
  arrests_made filtered_df = Ok (MInt n)
  \/ crime_types_metric filtered_df = Ok (MInt n) ->
  0 <= n <= Z.of_nat (len filtered_df).
Proof.
  unfold len. intros [H|H].
  - destruct (has_column filtered_df "Arrest") eqn:Hc.
    + destruct (has_column_get_loc _ _ Hc) as [i Hi].
      rewrite (arrests_made_rows _ i Hi) in H. injection H as <-.
      pose proof (filter_length_le (fun r => arrest_true (cell i r))
                                   (rows filtered_df)). lia.
    + unfold arrests_made in H. rewrite Hc in H. discriminate.
  - unfold crime_types_metric, getitem in H.
    destruct (has_column filtered_df "Primary Type"); [|discriminate].
    destruct (get_loc "Primary Type" (columns filtered_df)) as [i|];
      [|discriminate].
    cbn [bind] in H. injection H as <-. unfold nunique, unique.
    pose proof (unique_from_length [] (dropna (map (cell i) (rows filtered_df)))).
    pose proof (filter_length_le notna (map (cell i) (rows filtered_df))).
    unfold dropna in *. rewrite length_map in *. lia.
Qed.

Lemma insert_length (x : object) (l : list object) :
  List.length (Py.insert x l) = S (List.length l).
Proof.
  induction l as [|y l IH]; [reflexivity|]. cbn [Py.insert].
  destruct (Py.ltb y x); cbn [List.length]; now rewrite ?IH.
Qed.

Lemma sorted_length (l l' : list object) :
  sorted l = Ok l' -> List.length l' = List.length l.
Proof.
  unfold sorted.
  destruct (existsb is_str l && existsb (fun x => negb (is_str x)) l);
    [discriminate|].
  intros E. injection E as <-.
  induction l as [|x l IH]; [reflexivity|].
  cbn [fold_right]. now rewrite insert_length, IH.
Qed.

(** On one table the "Crime Types" metric is the number of options the
    crime-type multiselect offers. *)
Theorem crime_types_metric_counts_options (df : DataFrame)
        (opts : list object) :
  crime_types df = Ok opts ->
  crime_types_metric df = Ok (MInt (Z.of_nat (List.length opts))).
Proof.
  unfold crime_types, options, crime_types_metric, has_column, getitem.
  destruct (get_loc "Primary Type" (columns df)) as [i|] eqn:Hi;
    [|discriminate].
  rewrite (get_loc_has_column _ _ _ Hi). cbn [bind]. intros Hs.
  now rewrite (sorted_length _ _ Hs).
Qed.

End SummaryMetrics.

(* ================================================================== *)
(** ** The options of the sidebar *)

Section StringOrder.

Lemma ascii_compare_refl (a : ascii) : Ascii.compare a a = Eq.
Proof. unfold Ascii.compare. apply N.compare_refl. Qed.

Lemma ascii_compare_lt_trans (a b c : ascii) :
  Ascii.compare a b = Lt -> Ascii.compare b c = Lt -> Ascii.compare a c = Lt.
Proof.
  unfold Ascii.compare. rewrite !N.compare_lt_iff. apply N.lt_trans.
Qed.

Lemma string_compare_lt_trans (a b c : string) :
  String.compare a b = Lt -> String.compare b c = Lt ->
  String.compare a c = Lt.
Proof.
  revert b c. induction a as [|x a IH]; intros [|y b] [|z c];
    cbn [String.compare]; try discriminate; try reflexivity.
  destruct (Ascii.compare x y) eqn:Exy; try discriminate;
    destruct (Ascii.compare y z) eqn:Eyz; try discriminate.
  - apply Ascii.compare_eq_iff in Exy, Eyz. subst.
    rewrite ascii_compare_refl. apply IH.
  - apply Ascii.compare_eq_iff in Exy. subst. now rewrite Eyz.
  - apply Ascii.compare_eq_iff in Eyz. subst. now rewrite Exy.
  - now rewrite (ascii_compare_lt_trans _ _ _ Exy Eyz).
Qed.

Lemma string_ltb_trans (a b c : string) :
  String.ltb a b = true -> String.ltb b c = true -> String.ltb a c = true.
Proof.
  unfold String.ltb. intros Hab Hbc.
  destruct (String.compare a b) eqn:Eab; try discriminate.
  destruct (String.compare b c) eqn:Ebc; try discriminate.
  now rewrite (string_compare_lt_trans _ _ _ Eab Ebc).
Qed.

Lemma string_ltb_total (a b : string) :
  String.eqb a b = false -> String.ltb a b = true \/ String.ltb b a = true.
Proof.
  intros Hne. apply String.eqb_neq in Hne. unfold String.ltb.
  rewrite (String.compare_antisym b a).
  destruct (String.compare a b) eqn:E; cbn; auto.
  apply String.compare_eq_iff in E. contradiction.
Qed.

End StringOrder.

Section Options.
Import Py Pd App Spec.

Lemma ltb_trans_kind (str : bool) (a b c : object) :
  of_kind str a = true -> of_kind str b = true -> of_kind str c = true ->
  Py.ltb a b = true -> Py.ltb b c = true -> Py.ltb a c = true.
Proof.
  destruct str; cbn [of_kind].
  - destruct a, b, c; try discriminate. cbn. intros _ _ _.
    apply string_ltb_trans.
  - destruct a as [|a|?|a], b as [|b|?|b], c as [|c|?|c];
      try discriminate; cbn; intros _ _ _; rewrite !Z.ltb_lt; lia.
Qed.

Lemma ltb_total_kind (str : bool) (a b : object) :
  of_kind str a = true -> of_kind str b = true ->
  same_key a b = false -> Py.ltb a b = true \/ Py.ltb b a = true.
Proof.
  destruct str; cbn [of_kind].
  - destruct a, b; try discriminate. cbn. intros _ _.
    apply string_ltb_total.
  - destruct a as [|a|?|a], b as [|b|?|b]; try discriminate; cbn;
      intros _ _; rewrite ?Z.eqb_neq, !Z.ltb_lt; try lia.
    destruct a, b; cbn; intros H; try discriminate; lia.
Qed.

Lemma same_key_sym (x y : object) : same_key x y = same_key y x.
Proof.
  destruct x as [|a|a|a], y as [|b|b|b]; cbn; try reflexivity.
  - apply Z.eqb_sym.
  - apply Z.eqb_sym.
  - apply String.eqb_sym.
  - apply Z.eqb_sym.
  - now destruct a, b.
Qed.

Lemma insert_perm (x : object) (l : list object) :
  Permutation (x :: l) (Py.insert x l).
Proof.
  induction l as [|y l IH]; cbn [Py.insert]; [reflexivity|].
  destruct (Py.ltb y x); [|reflexivity].
  rewrite perm_swap. now apply perm_skip.
Qed.

Lemma insertion_sort_perm (l : list object) :
  Permutation l (fold_right Py.insert [] l).
Proof.
  induction l as [|x l IH]; cbn [fold_right]; [reflexivity|].
  rewrite <- insert_perm. now apply perm_skip.
Qed.

Lemma insert_ascending (str : bool) (x : object) (l : list object) :
  of_kind str x = true ->
  Forall (fun y => of_kind str y = true) l ->
  Forall (fun y => same_key x y = false) l ->
  StronglySorted ascending l ->
  StronglySorted ascending (Py.insert x l).
Proof.
  intros Hx Hk Hd Hs. induction Hs as [|y l Hs IH Hall]; cbn [Py.insert].
  - repeat constructor.
  - apply Forall_cons_iff in Hk, Hd.
    destruct Hk as [Hy Hk], Hd as [Hxy Hd].
    destruct (Py.ltb y x) eqn:E.
    + constructor; [now apply IH|].
      eapply Permutation_Forall; [apply insert_perm|].
      constructor; [exact E|exact Hall].
    + assert (Hlt : Py.ltb x y = true).
      { destruct (ltb_total_kind str x y Hx Hy Hxy); congruence. }
      constructor; [now constructor|]. constructor; [exact Hlt|].
      rewrite Forall_forall in *. intros z Hz.
      apply (ltb_trans_kind str x y z Hx Hy (Hk z Hz) Hlt (Hall z Hz)).
Qed.

Lemma sort_unique_ascending (str : bool) (seen : list object) (s : Series) :
  Forall (fun y => of_kind str y = true) s ->
  StronglySorted ascending (fold_right Py.insert [] (unique_from seen s)).
Proof.
  revert seen. induction s as [|x s IH]; intros seen Hk;
    cbn [unique_from]; [constructor|].
  apply Forall_cons_iff in Hk. destruct Hk as [Hx Hk].
  destruct (existsb (same_key x) seen); [now apply IH|].
  cbn [fold_right].
  assert (Hin : forall y, In y (fold_right Py.insert []
                                  (unique_from (x :: seen) s)) ->
                          In y (unique_from (x :: seen) s)).
  { intros y Hy. eapply Permutation_in;
      [apply Permutation_sym, insertion_sort_perm|exact Hy]. }
  apply (insert_ascending str); [exact Hx| | |now apply IH].
  - apply Forall_forall. intros y Hy. rewrite Forall_forall in Hk.
    apply Hk. eapply unique_from_in, Hin, Hy.
  - apply Forall_forall. intros y Hy.
    destruct (unique_from_nodup (x :: seen) s) as [_ Hout].
    specialize (Hout y (Hin y Hy)). cbn [existsb] in Hout.
    apply orb_false_iff in Hout. rewrite same_key_sym. apply Hout.
Qed.

Lemma kind_of_sortable (l : list object) :
  Forall (fun y => notna y = true) l ->
  existsb is_str l && existsb (fun x => negb (is_str x)) l = false ->
  exists str, Forall (fun y => of_kind str y = true) l.
Proof.
  intros Hnn Hmix. apply andb_false_iff in Hmix. destruct Hmix as [H|H].
  - exists false. apply Forall_forall. intros y Hy.
    rewrite Forall_forall in Hnn. specialize (Hnn y Hy).
    assert (Hs : is_str y = false).
    { destruct (is_str y) eqn:E; [|reflexivity].
      rewrite <- H. symmetry. apply existsb_exists. now exists y. }
    destruct y; cbn in *; congruence.
  - exists true. apply Forall_forall. intros y Hy. cbn [of_kind].
    destruct (is_str y) eqn:E; [reflexivity|].
    rewrite <- H. apply existsb_exists. exists y.
    now rewrite E.
Qed.

Lemma options_sorted_members (df : DataFrame) (name : string)
        (opts : list object) :
  options df name = Ok opts ->
  StronglySorted ascending opts
  /\ NoDup opts
  /\ (forall o, In o opts ->
        notna o = true
        /\ exists r, In r (rows df) /\ value_in df name r = Some o)
  /\ (forall r v, In r (rows df) -> value_in df name r = Some v ->
        notna v = true ->
        exists o, In o opts /\ same_key v o = true).
Proof.
  intros Hopts. pose proof Hopts as H. unfold options, getitem in H.
  destruct (get_loc name (columns df)) as [i|] eqn:Hi; [|discriminate].
  cbn [bind] in H. set (s := map (cell i) (rows df)) in *.
  unfold sorted in H.
  destruct (existsb is_str (unique (dropna s))
            && existsb (fun x => negb (is_str x)) (unique (dropna s)))
    eqn:Hmix; [discriminate|].
  injection H as <-.
  assert (Hperm := insertion_sort_perm (unique (dropna s))).
  assert (Hnn : Forall (fun y => notna y = true) (unique (dropna s))).
  { apply Forall_forall. intros y Hy. apply unique_from_in in Hy.
    unfold dropna in Hy. now apply filter_In in Hy. }
  destruct (kind_of_sortable _ Hnn Hmix) as [str Hkind].
  split; [|split; [|split]].
  - unfold unique.
    assert (Hk : Forall (fun y => of_kind str y = true) (dropna s)).
    { apply Forall_forall. intros y Hy.
      destruct (unique_from_complete [] _ _ Hy) as [D|[k [Hk Hs]]];
        [discriminate|].
      rewrite Forall_forall in Hkind. specialize (Hkind k Hk).
      destruct str, y, k; cbn in *; congruence. }
    now apply (sort_unique_ascending str).
  - eapply Permutation_NoDup; [exact Hperm|]. apply unique_from_nodup.
  - intros o Ho. apply (Permutation_in _ (Permutation_sym Hperm)) in Ho.
    apply unique_from_in in Ho. unfold dropna in Ho.
    apply filter_In in Ho. destruct Ho as [Ho Hn]. split; [exact Hn|].
    apply in_map_iff in Ho. destruct Ho as [r [<- Hr]].
    exists r. split; [exact Hr|]. unfold value_in. now rewrite Hi.
  - intros r v Hr Hv Hn. unfold value_in in Hv. rewrite Hi in Hv.
    injection Hv as <-.
    assert (Hd : In (cell i r) (dropna s)).
    { apply filter_In. split; [now apply in_map|exact Hn]. }
    destruct (unique_from_complete [] _ _ Hd) as [D|[k [Hk Hs]]];
      [discriminate|].
    exists k. split; [|exact Hs]. eapply Permutation_in; eauto.
Qed.

(** The options a multiselect is given: strictly ascending, hence without
    duplicates; none is null; each is a value of the column; and every
    non-null value of the column is among them, up to [==]. *)
Theorem options_ascending_and_complete (df : DataFrame) (name : string)
        (opts : list object) :
  options df name = Ok opts ->
  StronglySorted ascending opts
  /\ NoDup opts
  /\ (forall o, In o opts ->
        notna o = true
        /\ exists r, In r (rows df) /\ value_in df name r = Some o)
  /\ (forall r v, In r (rows df) -> value_in df name r = Some v ->
        notna v = true ->
        exists o, In o opts /\ same_key v o = true).
Proof. exact (options_sorted_members df name opts). Qed.

Lemma options_raise_cases (df : DataFrame) (name : string) :
  (options df name = Raise (KeyError [name]) <-> has_column df name = false)
  /\ (forall e, options df name = Raise e ->
        e = KeyError [name]
        \/ e = TypeError "'<' not supported between instances").
Proof.
  unfold options, getitem, has_column. split; [split|].
  - destruct (existsb (String.eqb name) (columns df)) eqn:E;
      [|reflexivity].
    destruct (has_column_get_loc _ _ E) as [i ->]. cbn [bind].
    unfold sorted. now destruct (_ && _).
  - intros E. now rewrite (no_column_get_loc _ _ E).
  - intros e. destruct (get_loc name (columns df)); cbn [bind].
    + unfold sorted. destruct (_ && _); [|discriminate].
      intros E. injection E as <-. now right.
    + intros E. injection E as <-. now left.
Qed.

(** The options raise [KeyError] exactly when the table lacks the column,
    and the only other exception is the [TypeError] of [sorted]. *)
Theorem options_exceptions (df : DataFrame) (name : string) :
  (options df name = Raise (KeyError [name]) <-> has_column df name = false)
  /\ (forall e, options df name = Raise e ->
        e = KeyError [name]
        \/ e = TypeError "'<' not supported between instances").
Proof. exact (options_raise_cases df name). Qed.

End Options.

(* ================================================================== *)
(** ** Which exceptions the summary can raise *)

Section SummaryExceptions.
Import Py Pd App Spec.

Lemma apply_filters_ok (df : DataFrame) (sel : Sidebar) :
  exists filtered_df,
    apply_filters df sel = Ok filtered_df
    /\ columns filtered_df = columns df.
Proof.
  rewrite apply_filters_script_order, apply_filters_in_rows.
  eexists. split; reflexivity.
Qed.

Lemma arrests_made_ok (filtered_df : DataFrame) :
  exists m, arrests_made filtered_df = Ok m.
Proof.
  destruct (has_column filtered_df "Arrest") eqn:Hc.
  - destruct (has_column_get_loc _ _ Hc) as [i Hi].
    rewrite (arrests_made_rows _ i Hi). now eexists.
  - unfold arrests_made. rewrite Hc. now eexists.
Qed.

Lemma crime_types_metric_ok (filtered_df : DataFrame) :
  exists m, crime_types_metric filtered_df = Ok m.
Proof.
  unfold crime_types_metric, getitem.
  destruct (has_column filtered_df "Primary Type") eqn:Hc;
    [|now eexists].
  destruct (has_column_get_loc _ _ Hc) as [i ->]. now eexists.
Qed.

(** Where an exception of lines 36-109 comes from: it is the exception of
    the options of one of the three columns the sidebar reads, and a
    [KeyError] for that column when the table lacks it; or the filters ran
    and it is the exception of the year range of the filtered view, which
    has the year column.  The filters, the incident count and the arrest and
    crime-type metrics never raise, so a table without the arrest column is
    no cause of failure. *)
Theorem summary_exceptions (df : DataFrame) (sel : Sidebar) (e : exn) :
  sidebar_and_summary df sel = Raise e ->
  (exists name,
      In name ["Year"; "Primary Type"; "Location Description"]
      /\ options df name = Raise e
      /\ (has_column df name = false -> e = KeyError [name]))
  \/ (exists filtered_df,
        apply_filters df sel = Ok filtered_df
        /\ year_range filtered_df = Raise e
        /\ has_column filtered_df "Year" = true).
Proof.
  assert (Hopt : forall name e',
    In name ["Year"; "Primary Type"; "Location Description"] ->
    options df name = Raise e' ->
    exists name,
      In name ["Year"; "Primary Type"; "Location Description"]
      /\ options df name = Raise e'
      /\ (has_column df name = false -> e' = KeyError [name])).
  { intros name e' Hname He'. exists name.
    split; [exact Hname|split; [exact He'|]].
    intros Hc. apply (proj1 (options_raise_cases df name)) in Hc.
    congruence. }
  unfold sidebar_and_summary, years, crime_types, location_descriptions.
  destruct (options df "Year") as [ys|e1] eqn:E1; cbn [bind];
    [|intros E; injection E as <-; left;
      apply (Hopt "Year"); cbn; auto].
  destruct (options df "Primary Type") as [cts|e2] eqn:E2; cbn [bind];
    [|intros E; injection E as <-; left;
      apply (Hopt "Primary Type"); cbn; auto].
  destruct (options df "Location Description") as [locs|e3] eqn:E3;
    cbn [bind];
    [|intros E; injection E as <-; left;
      apply (Hopt "Location Description"); cbn; auto].
  destruct (apply_filters_ok df sel) as (fdf & -> & Hcols). cbn [bind].
  destruct (arrests_made_ok fdf) as [m2 ->].
  destruct (crime_types_metric_ok fdf) as [m3 ->]. cbn [bind].
  destruct (year_range fdf) as [m4|e4] eqn:E4; cbn [bind]; [discriminate|].
  intros E. injection E as <-.
  right. exists fdf. split; [reflexivity|split; [exact E4|]].
  unfold year_range in E4.
  destruct (has_column fdf "Year"); [reflexivity|discriminate].
Qed.

End SummaryExceptions.

(* ================================================================== *)
(** ** Further properties of the map view *)

Section MapSample.
Import Py Pd App Spec.

Lemma map_view_cases (filtered_df : DataFrame) (moved : option Z) :
  let valid := filter (has_coordinates filtered_df) (rows filtered_df) in
  (has_column filtered_df "Latitude"
   && has_column filtered_df "Longitude" = false ->
   map_view filtered_df moved
   = Raise (KeyError (filter (fun n => negb (has_column filtered_df n))
                             ["Latitude"; "Longitude"])))
  /\ (has_column filtered_df "Latitude"
      && has_column filtered_df "Longitude" = true ->
      valid = [] ->
      map_view filtered_df moved
      = Ok (MapWarning "No data points with valid coordinates available"))
  /\ (has_column filtered_df "Latitude"
      && has_column filtered_df "Longitude" = true ->
      valid <> [] ->
      has_column filtered_df "Date" = false ->
      map_view filtered_df moved
      = Raise (ValueError
          "Value of 'hover_data_0' is not the name of a column in 'data_frame'"))
  /\ (has_column filtered_df "Latitude"
      && has_column filtered_df "Longitude" = true ->
      valid <> [] ->
      has_column filtered_df "Date" = true ->
      exists slider sample hover_name hover_data color,
        map_view filtered_df moved
        = Ok (MapChart (List.length valid) slider sample
                hover_name hover_data color)).
Proof.
  intros valid. split; [|split; [|split]].
  - intros H. unfold map_view, dropna_subset. cbn [filter].
    destruct (has_column filtered_df "Latitude"),
             (has_column filtered_df "Longitude");
      try discriminate; reflexivity.
  - intros H Hv. apply andb_true_iff in H. destruct H as [Hlat Hlon].
    unfold map_view. rewrite (dropna_coordinates _ Hlat Hlon). cbn [bind].
    unfold len. cbn [rows]. fold valid. now rewrite Hv.
  - intros H Hv Hd. apply andb_true_iff in H. destruct H as [Hlat Hlon].
    rewrite (map_view_chart filtered_df moved Hlat Hlon Hv).
    now rewrite Hd.
  - intros H Hv Hd. apply andb_true_iff in H. destruct H as [Hlat Hlon].
    rewrite (map_view_chart filtered_df moved Hlat Hlon Hv).
    rewrite Hd. now do 5 eexists.
Qed.

(** The four outcomes of the map tab.  Without one of the coordinate columns
    [dropna] raises [KeyError] with the names that are missing, in the order
    latitude, longitude.  With both columns and no row that holds both
    coordinates the tab shows its warning.  With such a row and no [Date]
    column [px.scatter_map] raises [ValueError], whatever the slider.  With
    such a row and the [Date] column a chart is drawn, and the caption
    counts the rows that hold both coordinates. *)
Theorem map_view_outcomes (filtered_df : DataFrame) (moved : option Z) :
  let valid := filter (has_coordinates filtered_df) (rows filtered_df) in
  (has_column filtered_df "Latitude"
   && has_column filtered_df "Longitude" = false ->
   map_view filtered_df moved
   = Raise (KeyError (filter (fun n => negb (has_column filtered_df n))
                             ["Latitude"; "Longitude"])))
  /\ (has_column filtered_df "Latitude"
      && has_column filtered_df "Longitude" = true ->
      valid = [] ->
      map_view filtered_df moved
      = Ok (MapWarning "No data points with valid coordinates available"))
  /\ (has_column filtered_df "Latitude"
      && has_column filtered_df "Longitude" = true ->
      valid <> [] ->
      has_column filtered_df "Date" = false ->
      map_view filtered_df moved
      = Raise (ValueError
          "Value of 'hover_data_0' is not the name of a column in 'data_frame'"))
  /\ (has_column filtered_df "Latitude"
      && has_column filtered_df "Longitude" = true ->
      valid <> [] ->
      has_column filtered_df "Date" = true ->
      exists slider sample hover_name hover_data color,
        map_view filtered_df moved
        = Ok (MapChart (List.length valid) slider sample
                hover_name hover_data color)).
Proof. exact (map_view_cases filtered_df moved). Qed.

(** The position of the slider of line 204 over [n] available rows, [n]
    positive: between 1 and 1000; the default 500 when the slider was not
    moved; and between 100 and min(1000, n) when 500 rows or more are
    available. *)
Lemma slider_result_bounds (n : nat) (moved : option Z) :
  (0 < n)%nat ->
  let N := slider_result {| min_value := 100;
                            max_value := Z.min 1000 (Z.of_nat n);
                            value := 500 |} moved in
  1 <= N <= 1000
  /\ (moved = None -> N = 500)
  /\ ((500 <= n)%nat -> 100 <= N <= Z.min 1000 (Z.of_nat n)).
Proof.
  intros Hn N. subst N. unfold slider_result, slider_range.
  cbn [min_value max_value value fst snd].
  destruct moved as [v|]; [|lia].
  split; [lia|split; [discriminate|lia]].
Qed.

(** What the map plots.  A chart is only drawn over a view that has the
    [Date] column and a coordinate-valid row.  The sample has the header of
    the view and holds the first N coordinate-valid rows of the view in
    their order, N the position of the slider, so every plotted row is a row
    of the view with both coordinates.  It holds at least one row, never more
    than are available and never more than 1000; an untouched slider plots
    the first 500 rows, or all when fewer are available; with 500 rows or
    more available N lies between 100 and min(1000, available) and exactly N
    rows are plotted.  The hover name and the colour are the same column,
    and every name of the hover data, [Date] among them, is a column. *)
Theorem map_sample_is_valid_prefix (filtered_df sample : DataFrame)
        (moved : option Z) (available : nat) (slider : Slider)
        (hover_name color : option string) (hover_data : list string) :
  map_view filtered_df moved
  = Ok (MapChart available slider sample hover_name hover_data color) ->
  let valid := filter (has_coordinates filtered_df) (rows filtered_df) in
  let N := slider_result slider moved in
  available = List.length valid
  /\ (0 < available <= len filtered_df)%nat
  /\ has_column filtered_df "Date" = true
  /\ slider = {| min_value := 100;
                 max_value := Z.min 1000 (Z.of_nat available);
                 value := 500 |}
  /\ columns sample = columns filtered_df
  /\ rows sample = firstn (Z.to_nat N) valid
  /\ (forall r, In r (rows sample) ->
        In r (rows filtered_df) /\ has_coordinates filtered_df r = true)
  /\ (1 <= len sample <= available)%nat
  /\ (len sample <= 1000)%nat
  /\ (moved = None -> len sample = Nat.min 500 available)
  /\ ((500 <= available)%nat ->
      100 <= N <= Z.min 1000 (Z.of_nat available)
      /\ Z.of_nat (len sample) = N)
  /\ hover_name = color
  /\ In "Date" hover_data
  /\ (forall name, In name hover_data -> has_column filtered_df name = true).
Proof.
  intros Hm valid N.
  destruct (has_column filtered_df "Latitude"
            && has_column filtered_df "Longitude") eqn:Hc.
  2:{ destruct (map_view_cases filtered_df moved) as [Hraise _].
      rewrite (Hraise Hc) in Hm. discriminate. }
  destruct (map_view_cases filtered_df moved) as (_ & Hwarn & _).
  apply andb_true_iff in Hc. destruct Hc as [Hlat Hlon].
  assert (Hne : valid <> []).
  { intros Hv. fold valid in Hwarn.
    rewrite (Hwarn (proj2 (andb_true_iff _ _) (conj Hlat Hlon)) Hv) in Hm.
    discriminate. }
  rewrite (map_view_chart filtered_df moved Hlat Hlon Hne) in Hm.
  fold valid in Hm.
  destruct (has_column filtered_df "Date") eqn:Hd; [|discriminate].
  injection Hm as <- <- <- <- <- <-.
  assert (Hpos : (0 < List.length valid)%nat).
  { destruct valid; [congruence|cbn; lia]. }
  destruct (slider_result_bounds (List.length valid) moved Hpos)
    as (HN & Hdef & Hbig).
  subst N. set (N := slider_result _ moved) in *.
  assert (Hrows : rows (head {| columns := columns filtered_df;
                                rows := valid |} N)
                  = firstn (Z.to_nat N) valid).
  { unfold head. cbn [rows].
    destruct (0 <=? N) eqn:E; [reflexivity|]. apply Z.leb_gt in E. lia. }
  assert (Hlen : len (head {| columns := columns filtered_df;
                              rows := valid |} N)
                 = Nat.min (Z.to_nat N) (List.length valid)).
  { unfold len. rewrite Hrows. apply length_firstn. }
  split; [reflexivity|].
  split; [split; [exact Hpos|unfold len; apply filter_length_le]|].
  split; [reflexivity|].
  split; [reflexivity|].
  split; [reflexivity|].
  split; [exact Hrows|].
  split.
  { intros r Hr. rewrite Hrows in Hr. apply firstn_incl in Hr.
    now apply filter_In in Hr. }
  split; [rewrite Hlen; lia|].
  split; [rewrite Hlen; lia|].
  split; [intros Hm; rewrite Hlen, (Hdef Hm); reflexivity|].
  split; [intros Hb; rewrite Hlen; lia|].
  split; [reflexivity|].
  split; [destruct (has_column _ "Description"); cbn; auto|].
  intros name Hin.
  destruct (has_column filtered_df "Description") eqn:Hde;
    cbn [In] in Hin; intuition (subst; assumption).
Qed.

End MapSample.

(* ================================================================== *)
(** ** Column assignment and the loader *)

Section Loader.
Import Py Pd App Spec.

Lemma cell_set_cell (i j : nat) (v : object) (r : list object) :
  cell j (set_cell i v r) = if Nat.eqb j i then v else cell j r.
Proof.
  unfold cell. revert j r. induction i as [|i IH]; intros j r.
  - destruct r, j; cbn; try reflexivity. now destruct j.
  - destruct r as [|x r], j as [|j]; cbn [set_cell nth Nat.eqb];
      try reflexivity.
    + rewrite IH. destruct (Nat.eqb j i); [reflexivity|]. now destruct j.
    + apply IH.
Qed.

Lemma set_cells_length (i : nat) (rs : list (list object)) (s : Series) :
  List.length s = List.length rs ->
  List.length (set_cells i rs s) = List.length rs.
Proof.
  revert s. induction rs as [|r rs IH]; intros [|v s]; cbn; try congruence.
  intros H. f_equal. apply IH. congruence.
Qed.

Lemma set_cells_same (i : nat) (rs : list (list object)) (s : Series) :
  List.length s = List.length rs ->
  map (cell i) (set_cells i rs s) = s.
Proof.
  revert s. induction rs as [|r rs IH]; intros [|v s]; cbn [set_cells map];
    try reflexivity; try discriminate.
  intros H. rewrite cell_set_cell, Nat.eqb_refl. f_equal. apply IH.
  cbn in H. congruence.
Qed.

Lemma set_cells_other (i j : nat) (rs : list (list object)) (s : Series) :
  List.length s = List.length rs -> j <> i ->
  map (cell j) (set_cells i rs s) = map (cell j) rs.
Proof.
  intros Hlen Hji. revert s Hlen.
  induction rs as [|r rs IH]; intros [|v s]; cbn [set_cells map];
    try reflexivity; try discriminate.
  intros H. rewrite cell_set_cell.
  apply Nat.eqb_neq in Hji. rewrite Hji. f_equal. apply IH.
  cbn in H. congruence.
Qed.

Lemma get_loc_name (cols : list string) (a : string) (i : nat) :
  get_loc a cols = Some i -> nth_error cols i = Some a /\ (i < List.length cols)%nat.
Proof.
  revert i. induction cols as [|c cols IH]; intros i; cbn [get_loc];
    [discriminate|].
  destruct (String.eqb a c) eqn:E.
  - intros H. injection H as <-. apply String.eqb_eq in E. subst.
    cbn. split; [reflexivity|lia].
  - destruct (get_loc a cols) as [k|]; [|discriminate]. cbn.
    intros H. injection H as <-. destruct (IH k eq_refl). cbn.
    split; [assumption|lia].
Qed.

Lemma get_loc_app_other (cols : list string) (a b : string) :
  a <> b -> get_loc a (cols ++ [b]) = get_loc a cols.
Proof.
  intros Hab. induction cols as [|c cols IH]; cbn [app get_loc].
  - apply String.eqb_neq in Hab. now rewrite Hab.
  - destruct (String.eqb a c); [reflexivity|]. now rewrite IH.
Qed.

Lemma get_loc_app_new (cols : list string) (a : string) :
  get_loc a cols = None -> get_loc a (cols ++ [a]) = Some (List.length cols).
Proof.
  induction cols as [|c cols IH]; cbn [app get_loc List.length].
  - now rewrite String.eqb_refl.
  - destruct (String.eqb a c); [discriminate|].
    destruct (get_loc a cols); [discriminate|]. intros _.
    now rewrite IH.
Qed.

Lemma setitem_reads_back (df : DataFrame) (name : string) (s : Series) :
  (List.length s <> len df ->
     setitem df name s
     = Raise (ValueError "Length of values does not match length of index"))
  /\ (List.length s = len df ->
        exists df',
          setitem df name s = Ok df'
          /\ getitem df' name = Ok s
          /\ (forall other, other <> name ->
                getitem df' other = getitem df other)
          /\ len df' = len df
          /\ columns df' = if has_column df name then columns df
                           else columns df ++ [name]).
Proof.
  unfold setitem, len. split; intros Hlen.
  - apply Nat.eqb_neq in Hlen. now rewrite Hlen.
  - rewrite (proj2 (Nat.eqb_eq _ _) Hlen).
    unfold has_column. destruct (get_loc name (columns df)) as [i|] eqn:Hi.
    + eexists. split; [reflexivity|]. unfold getitem. cbn [columns rows].
      rewrite Hi, (get_loc_has_column _ _ _ Hi).
      split; [now rewrite set_cells_same|split; [|split]].
      * intros other Hne.
        destruct (get_loc other (columns df)) as [j|] eqn:Hj; [|reflexivity].
        rewrite set_cells_other; [reflexivity|exact Hlen|].
        intros ->. apply get_loc_name in Hi, Hj. destruct Hi, Hj. congruence.
      * now apply set_cells_length.
      * reflexivity.
    + eexists. split; [reflexivity|]. unfold getitem. cbn [columns rows].
      rewrite (get_loc_app_new _ _ Hi).
      assert (Hno : existsb (String.eqb name) (columns df) = false).
      { destruct (existsb _ _) eqn:E; [|reflexivity].
        destruct (has_column_get_loc _ _ E). congruence. }
      rewrite Hno.
      split; [now rewrite set_cells_same|split; [|split]].
      * intros other Hne. rewrite (get_loc_app_other _ _ _ Hne).
        destruct (get_loc other (columns df)) as [j|] eqn:Hj; [|reflexivity].
        rewrite set_cells_other; [reflexivity|exact Hlen|].
        apply get_loc_name in Hj. lia.
      * now apply set_cells_length.
      * reflexivity.
Qed.

(** Column assignment and column read: after [df[name] = s] the column
    [name] reads as [s], every other column reads as before, and the table
    has as many rows as before; the header is unchanged when the column
    existed and has the new name at its end otherwise.  A series of another
    length than the table is refused with [ValueError]. *)
Theorem setitem_then_getitem (df : DataFrame) (name : string) (s : Series) :
  (List.length s <> len df ->
     setitem df name s
     = Raise (ValueError "Length of values does not match length of index"))
  /\ (List.length s = len df ->
        exists df',
          setitem df name s = Ok df'
          /\ getitem df' name = Ok s
          /\ (forall other, other <> name ->
                getitem df' other = getitem df other)
          /\ len df' = len df
          /\ columns df' = if has_column df name then columns df
                           else columns df ++ [name]).
Proof. exact (setitem_reads_back df name s). Qed.

Lemma setitem_existing (df : DataFrame) (name : string) (s s' : Series) :
  getitem df name = Ok s -> List.length s' = List.length s ->
  exists df',
    setitem df name s' = Ok df'
    /\ getitem df' name = Ok s'
    /\ (forall other, other <> name -> getitem df' other = getitem df other)
    /\ len df' = len df
    /\ columns df' = columns df.
Proof.
  intros Hs Hlen.
  assert (Hl : List.length s' = len df).
  { unfold getitem in Hs. destruct (get_loc name (columns df)); [|discriminate].
    injection Hs as <-. rewrite Hlen. apply length_map. }
  destruct (proj2 (setitem_reads_back df name s') Hl)
    as (df' & E & Hg & Ho & Hn & Hc).
  exists df'. repeat split; try assumption.
  unfold getitem in Hs. unfold has_column in Hc.
  destruct (get_loc name (columns df)) eqn:Hi; [|discriminate].
  now rewrite (get_loc_has_column _ _ _ Hi) in Hc.
Qed.

(** The loader, for converters that return a column of the length they
    were given: it never raises; the loaded table has the header and the
    number of rows of the table read; the [Date] and [Year] columns, where
    present, hold the converted values, and every other column reads as it
    was read from the file.  A missing [Date] or [Year] column stays
    missing. *)
Theorem load_data_converts_two_columns
        (to_datetime to_numeric : Series -> Series) (read_csv : DataFrame) :
  (forall s, List.length (to_datetime s) = List.length s) ->
  (forall s, List.length (to_numeric s) = List.length s) ->
  exists df,
    load_data to_datetime to_numeric read_csv = Ok df
    /\ columns df = columns read_csv
    /\ len df = len read_csv
    /\ (forall s, getitem read_csv "Date" = Ok s ->
          getitem df "Date" = Ok (to_datetime s))
    /\ (forall s, getitem read_csv "Year" = Ok s ->
          getitem df "Year" = Ok (to_numeric s))
    /\ (forall name, name <> "Date" -> name <> "Year" ->
          getitem df name = getitem read_csv name).
Proof.
  intros Hd Hn. unfold load_data. cbn [bind].
  assert (Step : forall (df0 : DataFrame) (name : string)
                        (conv : Series -> Series),
    (forall s, List.length (conv s) = List.length s) ->
    exists df1,
      (if has_column df0 name
       then s <- getitem df0 name ;; setitem df0 name (conv s)
       else Ok df0) = Ok df1
      /\ columns df1 = columns df0
      /\ len df1 = len df0
      /\ (forall s, getitem df0 name = Ok s -> getitem df1 name = Ok (conv s))
      /\ (forall other, other <> name ->
            getitem df1 other = getitem df0 other)).
  { intros df0 name conv Hconv.
    destruct (has_column df0 name) eqn:Hc.
    - destruct (has_column_get_loc _ _ Hc) as [i Hi].
      assert (Hs : getitem df0 name = Ok (map (cell i) (rows df0))).
      { unfold getitem. now rewrite Hi. }
      rewrite Hs. cbn [bind].
      destruct (setitem_existing df0 name _ (conv (map (cell i) (rows df0)))
                  Hs (Hconv _)) as (df1 & E & Hg & Ho & Hl & Hcol).
      exists df1. rewrite E. repeat split; try assumption.
      intros s Hs'. injection Hs' as <-. exact Hg.
    - exists df0. repeat split; try reflexivity.
      intros s Hs. unfold getitem in Hs.
      rewrite (no_column_get_loc _ _ Hc) in Hs. discriminate. }
  destruct (Step read_csv "Date" to_datetime Hd)
    as (df1 & -> & Hc1 & Hl1 & Hg1 & Ho1). cbn [bind].
  destruct (Step df1 "Year" to_numeric Hn)
    as (df2 & -> & Hc2 & Hl2 & Hg2 & Ho2). cbn [bind].
  exists df2. split; [reflexivity|].
  split; [congruence|split; [congruence|split; [|split]]].
  - intros s Hs. rewrite Ho2 by discriminate. now apply Hg1.
  - intros s Hs. apply Hg2. rewrite Ho1 by discriminate. exact Hs.
  - intros name Hnd Hny. rewrite Ho2 by exact Hny. now apply Ho1.
Qed.

End Loader.

(* ================================================================== *)
(** ** Counting values *)

Section Counting.
Import Py Pd PdCount App Spec.

Lemma same_key_canon (x y : object) :
  same_key x y = true <-> canon x = canon y.
Proof.
  destruct x as [|a|a|a], y as [|b|b|b]; cbn;
    rewrite ?Z.eqb_eq, ?String.eqb_eq;
    try (split; [discriminate|intros H; discriminate H]);
    try (split; congruence); try tauto.
  destruct a, b; cbn; split; congruence.
Qed.

Lemma same_key_trans (x y z : object) :
  same_key x y = true -> same_key y z = true -> same_key x z = true.
Proof. rewrite !same_key_canon. congruence. Qed.

Lemma same_key_false_trans (x y z : object) :
  same_key x y = true -> same_key y z = false -> same_key x z = false.
Proof.
  intros Hxy Hyz. destruct (same_key x z) eqn:E; [|reflexivity].
  rewrite <- Hyz. symmetry. apply (same_key_trans y x z); [|exact E].
  now rewrite same_key_sym.
Qed.

Lemma existsb_same_key (x y : object) (seen : list object) :
  same_key x y = true ->
  existsb (same_key x) seen = existsb (same_key y) seen.
Proof.
  intros Hxy. induction seen as [|z seen IH]; [reflexivity|].
  cbn [existsb]. rewrite IH. f_equal.
  destruct (same_key y z) eqn:E.
  - now apply (same_key_trans x y z).
  - now apply (same_key_false_trans x y z).
Qed.

(** Every value that is not yet seen is counted under exactly one of the
    labels [unique] gives. *)
Lemma unique_from_partition (seen : list object) (l : list object) :
  List.length (filter (fun x => negb (existsb (same_key x) seen)) l)
  = fold_right (fun k acc => (count_matching l k + acc)%nat) O
               (unique_from seen l).
Proof.
  revert seen. induction l as [|x l IH]; intros seen; [reflexivity|].
  cbn [filter unique_from].
  destruct (existsb (same_key x) seen) eqn:Ex; cbn [negb].
  - rewrite IH.
    assert (Hk : forall k, In k (unique_from seen l) ->
                           count_matching (x :: l) k = count_matching l k).
    { intros k Hk. unfold count_matching. cbn [filter].
      destruct (same_key x k) eqn:E; [|reflexivity].
      destruct (unique_from_nodup seen l) as [_ Hout].
      specialize (Hout k Hk).
      rewrite <- (existsb_same_key x k seen E) in Hout. congruence. }
    induction (unique_from seen l) as [|k ks IHk]; [reflexivity|].
    cbn [fold_right]. rewrite Hk by now left.
    rewrite IHk; [reflexivity|]. intros k' Hk'. apply Hk. now right.
  - cbn [List.length fold_right].
    assert (Hrest : forall ks,
      (forall k, In k ks -> same_key k x = false) ->
      fold_right (fun k acc => (count_matching (x :: l) k + acc)%nat) O ks
      = fold_right (fun k acc => (count_matching l k + acc)%nat) O ks).
    { induction ks as [|k ks IHk]; intros Hks; [reflexivity|].
      cbn [fold_right]. rewrite IHk by (intros; apply Hks; now right).
      f_equal. unfold count_matching. cbn [filter].
      rewrite same_key_sym, (Hks k) by now left. reflexivity. }
    rewrite Hrest.
    2:{ intros k Hk. destruct (unique_from_nodup (x :: seen) l) as [_ Hout].
        specialize (Hout k Hk). cbn [existsb] in Hout.
        now apply orb_false_iff in Hout. }
    rewrite <- IH. unfold count_matching at 1. cbn [filter].
    rewrite same_key_refl. cbn [List.length]. f_equal.
    clear IH Hrest. induction l as [|y l IHl]; [reflexivity|].
    cbn [filter existsb].
    destruct (same_key y x) eqn:Eyx; cbn [orb negb List.length].
    + rewrite (existsb_same_key y x seen Eyx), Ex.
      cbn [negb List.length]. now rewrite IHl.
    + destruct (existsb (same_key y) seen); cbn [negb List.length];
        now rewrite IHl.
Qed.

Lemma total_counts_nat (s : Series) (ks : list object) :
  total (map (fun k => (k, occurrences s k)) ks)
  = Z.of_nat (fold_right (fun k acc => (count_matching s k + acc)%nat) O ks).
Proof.
  induction ks as [|k ks IH]; [reflexivity|].
  cbn [map total fold_right snd] in *. unfold total in IH.
  rewrite IH. unfold occurrences, count_matching. lia.
Qed.

Lemma count_matching_dropna (s : Series) (k : object) :
  notna k = true -> count_matching (dropna s) k = count_matching s k.
Proof.
  intros Hk. unfold count_matching, dropna. rewrite filter_twice.
  f_equal. apply filter_ext. intros x.
  destruct x, k; cbn in *; try reflexivity; try discriminate.
  all: now rewrite andb_true_l.
Qed.

(** The counts of a column add up to the number of its non-null cells. *)
Lemma total_counts (s : Series) :
  total (counts s) = Z.of_nat (List.length (dropna s)).
Proof.
  unfold counts. rewrite total_counts_nat. f_equal. unfold unique.
  rewrite <- (filter_true (dropna s)) at 2.
  rewrite (filter_ext (fun _ => true)
                      (fun x => negb (existsb (same_key x) []))) by reflexivity.
  rewrite unique_from_partition.
  assert (H : forall ks, (forall k, In k ks -> notna k = true) ->
    fold_right (fun k acc => (count_matching s k + acc)%nat) O ks
    = fold_right (fun k acc => (count_matching (dropna s) k + acc)%nat) O ks).
  { induction ks as [|k ks IH]; intros Hks; [reflexivity|].
    cbn [fold_right]. rewrite IH by (intros; apply Hks; now right).
    now rewrite count_matching_dropna by (apply Hks; now left). }
  apply H. intros k Hk. apply unique_from_in in Hk.
  unfold dropna in Hk. now apply filter_In in Hk.
Qed.

Lemma total_perm (l l' : list (object * Z)) :
  Permutation l l' -> total l = total l'.
Proof.
  unfold total. induction 1; cbn [fold_right]; lia.
Qed.

Lemma total_app (l l' : list (object * Z)) :
  total (l ++ l') = total l + total l'.
Proof.
  unfold total. induction l as [|x l IH]; cbn [app fold_right]; lia.
Qed.

Lemma total_nonneg (l : list (object * Z)) :
  (forall e, In e l -> 0 <= snd e) -> 0 <= total l.
Proof.
  unfold total. induction l as [|x l IH]; intros H; cbn [fold_right]; [lia|].
  specialize (H x (or_introl eq_refl)) as Hx.
  assert (0 <= fold_right (fun e acc => snd e + acc) 0 l).
  { apply IH. intros e He. apply H. now right. }
  lia.
Qed.

(** An entry of [counts]: a non-null value of the column with the number
    of cells equal to it, which is positive. *)
Lemma counts_entry (s : Series) (k : object) (n : Z) :
  In (k, n) (counts s) ->
  notna k = true /\ In k s /\ n = occurrences s k /\ 0 < n.
Proof.
  unfold counts. intros H. apply in_map_iff in H.
  destruct H as [k' [E Hk]]. injection E as -> <-.
  apply unique_from_in in Hk. unfold dropna in Hk. apply filter_In in Hk.
  destruct Hk as [Hin Hnn]. repeat split; try assumption.
  unfold occurrences.
  assert (In k (filter (fun x => same_key x k) s)).
  { apply filter_In. split; [exact Hin|apply same_key_refl]. }
  destruct (filter _ s); [contradiction|cbn [List.length]; lia].
Qed.

Lemma counts_labels_nodup (s : Series) : NoDup (map fst (counts s)).
Proof.
  unfold counts. rewrite map_map. cbn [fst]. rewrite map_id.
  apply unique_from_nodup.
Qed.

End Counting.

(* ================================================================== *)
(** ** The frequency charts *)

Section ValueCounts.
Import Py Pd PdCount App Spec.

Lemma insert_count_perm (x : object * Z) (l : list (object * Z)) :
  Permutation (x :: l) (insert_count x l).
Proof.
  induction l as [|y l IH]; cbn [insert_count]; [reflexivity|].
  destruct (snd x <? snd y); [|reflexivity].
  rewrite perm_swap. now apply perm_skip.
Qed.

Lemma insert_count_sorted (x : object * Z) (l : list (object * Z)) :
  StronglySorted by_count_desc l ->
  StronglySorted by_count_desc (insert_count x l).
Proof.
  induction 1 as [|y l Hs IH Hall]; cbn [insert_count].
  - repeat constructor.
  - destruct (snd x <? snd y) eqn:E.
    + apply Z.ltb_lt in E. constructor; [exact IH|].
      eapply Permutation_Forall; [apply insert_count_perm|].
      constructor; [unfold by_count_desc; lia|exact Hall].
    + apply Z.ltb_ge in E. constructor; [now constructor|].
      constructor; [exact E|].
      eapply Forall_impl; [|exact Hall].
      intros z Hz. unfold by_count_desc in *. lia.
Qed.

(** [value_counts] always has a result: the stable one. *)
Lemma value_counts_stable_admissible (s : Series) :
  value_counts s (value_counts_stable s).
Proof.
  unfold value_counts, value_counts_stable. split.
  - induction (counts s) as [|x l IH]; cbn [fold_right]; [reflexivity|].
    rewrite <- insert_count_perm. now apply perm_skip.
  - induction (counts s) as [|x l IH]; cbn [fold_right]; [constructor|].
    now apply insert_count_sorted.
Qed.

Lemma total_firstn_le (n : nat) (l : list (object * Z)) :
  (forall e, In e l -> 0 <= snd e) -> total (firstn n l) <= total l.
Proof.
  intros H. rewrite <- (firstn_skipn n l) at 2. rewrite total_app.
  assert (0 <= total (skipn n l)).
  { apply total_nonneg. intros e He. apply H.
    rewrite <- (firstn_skipn n l). apply in_or_app. now right. }
  lia.
Qed.

(** The top-15 frequency tables of lines 139 and 166: a result always
    exists; it has at most 15 entries in descending order of count, with
    distinct labels; each entry is a non-null value of the column with the
    number of cells equal to it, which is positive; no value left out is
    more frequent than one kept; the counts add up to at most the number of
    non-null cells, and to exactly that number when the column has at most
    15 distinct values. *)
Theorem top_counts_properties (s : Series) :
  (exists out, top_counts s out)
  /\ forall out, top_counts s out ->
       (List.length out <= 15)%nat
       /\ StronglySorted by_count_desc out
       /\ NoDup (map fst out)
       /\ (forall k n, In (k, n) out ->
             notna k = true /\ n = occurrences s k /\ 0 < n)
       /\ (forall e e', In e out -> In e' (counts s) -> ~ In e' out ->
                        snd e' <= snd e)
       /\ total out <= Z.of_nat (List.length (dropna s))
       /\ ((List.length (counts s) <= 15)%nat ->
             total out = Z.of_nat (List.length (dropna s))).
Proof.
  split.
  - exists (firstn 15 (value_counts_stable s)), (value_counts_stable s).
    split; [apply value_counts_stable_admissible|reflexivity].
  - intros out (vc & [Hperm Hsorted] & ->).
    assert (Hentry : forall k n, In (k, n) vc ->
              notna k = true /\ n = occurrences s k /\ 0 < n).
    { intros k n Hin.
      apply (Permutation_in _ (Permutation_sym Hperm)) in Hin.
      destruct (counts_entry _ _ _ Hin) as (A & _ & B & C). auto. }
    assert (Hpos : forall e, In e vc -> 0 <= snd e).
    { intros [k n] He. destruct (Hentry k n He) as (_ & _ & Hn).
      cbn [snd]. lia. }
    split; [rewrite length_firstn; lia|].
    split; [now apply firstn_sorted|].
    split; [|split; [|split; [|split]]].
    + assert (Hnd : NoDup (map fst vc)).
      { eapply Permutation_NoDup;
          [apply Permutation_map, Hperm|apply counts_labels_nodup]. }
      rewrite <- (firstn_skipn 15 vc), map_app in Hnd.
      now apply NoDup_app_remove_r in Hnd.
    + intros k n Hin. apply Hentry. now apply firstn_incl in Hin.
    + intros e e' He He' Hout.
      apply (Permutation_in _ Hperm) in He'.
      rewrite <- (firstn_skipn 15 vc) in He', Hsorted.
      apply in_app_or in He'. destruct He' as [He'|He']; [contradiction|].
      apply (sorted_app_cross _ _ _ e e' Hsorted He He').
    + rewrite <- total_counts, (total_perm _ _ Hperm).
      now apply total_firstn_le.
    + intros Hfew. rewrite <- total_counts, (total_perm _ _ Hperm).
      rewrite firstn_all2; [reflexivity|].
      now rewrite <- (Permutation_length Hperm).
Qed.

Lemma ltb_asym (a b : object) :
  Py.ltb a b = true -> Py.ltb b a = false.
Proof.
  destruct a as [|a|a|a], b as [|b|b|b]; cbn; try discriminate;
    try (rewrite Z.ltb_lt, Z.ltb_ge; lia).
  unfold String.ltb. rewrite (String.compare_antisym b a).
  now destruct (String.compare a b).
Qed.

(** Two arrangements of the same entries in strictly ascending order of
    an asymmetric relation are the same list. *)
Lemma sorted_perm_unique {A} (R : A -> A -> Prop) (l l' : list A) :
  (forall a b, R a b -> R b a -> False) ->
  StronglySorted R l -> StronglySorted R l' -> Permutation l l' -> l = l'.
Proof.
  intros Hasym Hs. revert l'.
  induction Hs as [|a l Hs IH Hall]; intros l' Hs' Hperm.
  - now apply Permutation_nil in Hperm.
  - destruct Hs' as [|b l' Hs' Hall'].
    + apply Permutation_sym, Permutation_nil in Hperm. discriminate.
    + assert (Eab : a = b).
      { assert (Ha : In a (b :: l'))
          by (eapply Permutation_in; [exact Hperm|now left]).
        assert (Hb : In b (a :: l))
          by (eapply Permutation_in;
              [apply Permutation_sym, Hperm|now left]).
        destruct Ha as [Ha|Ha]; [now symmetry|].
        destruct Hb as [Hb|Hb]; [exact Hb|].
        rewrite Forall_forall in Hall, Hall'.
        exfalso. apply (Hasym a b); [now apply Hall|now apply Hall']. }
      subst b. f_equal. apply IH; [exact Hs'|].
      now apply Permutation_cons_inv in Hperm.
Qed.

Lemma counts_by_label_perm (s : Series) :
  Permutation (counts s) (counts_by_label s).
Proof.
  unfold counts, counts_by_label. apply Permutation_map.
  apply insertion_sort_perm.
Qed.

Lemma counts_by_label_sorted (s : Series) :
  existsb is_str s = false ->
  StronglySorted by_index_asc (counts_by_label s).
Proof.
  intros Hnum. unfold counts_by_label.
  assert (Hk : Forall (fun y => of_kind false y = true) (dropna s)).
  { apply Forall_forall. intros y Hy. unfold dropna in Hy.
    apply filter_In in Hy. destruct Hy as [Hin Hnn].
    assert (Hs : is_str y = false).
    { destruct (is_str y) eqn:E; [|reflexivity].
      rewrite <- Hnum. symmetry. apply existsb_exists. now exists y. }
    destruct y; cbn in *; congruence. }
  pose proof (sort_unique_ascending false [] _ Hk) as Hs.
  fold (unique (dropna s)) in Hs.
  induction Hs as [|k ks Hs IH Hall]; cbn [map]; constructor;
    [exact IH|].
  rewrite Forall_forall in *. intros e He. apply in_map_iff in He.
  destruct He as [k' [<- Hk']]. unfold by_index_asc. cbn [fst].
  now apply Hall.
Qed.

(** The yearly counts of line 152 do not depend on how [value_counts]
    orders equal counts: any two results are the same list.  Each result is
    in strictly ascending order of year, holds every non-null year of the
    column once with the number of its rows, and its counts add up to the
    number of rows with a year.  On a numeric column the result exists: the
    counts in ascending order of year. *)
Theorem year_counts_determined (s : Series) :
  (forall out1 out2, year_counts s out1 -> year_counts s out2 -> out1 = out2)
  /\ (forall out, year_counts s out ->
        StronglySorted by_index_asc out
        /\ Permutation (counts s) out
        /\ (forall k n, In (k, n) out ->
              notna k = true /\ n = occurrences s k /\ 0 < n)
        /\ total out = Z.of_nat (List.length (dropna s)))
  /\ (existsb is_str s = false -> year_counts s (counts_by_label s)).
Proof.
  assert (Hres : forall out, year_counts s out ->
            StronglySorted by_index_asc out /\ Permutation (counts s) out).
  { intros out (vc & [Hp _] & [Hp' Hs]). split; [exact Hs|].
    now rewrite Hp. }
  split; [|split].
  - intros out1 out2 H1 H2.
    destruct (Hres _ H1) as [Hs1 Hp1], (Hres _ H2) as [Hs2 Hp2].
    apply (sorted_perm_unique by_index_asc); try assumption.
    + intros a b Hab Hba. unfold by_index_asc in *.
      apply ltb_asym in Hab. congruence.
    + now rewrite <- Hp1.
  - intros out H. destruct (Hres _ H) as [Hs Hp].
    split; [exact Hs|split; [exact Hp|split]].
    + intros k n Hin. apply (Permutation_in _ (Permutation_sym Hp)) in Hin.
      destruct (counts_entry _ _ _ Hin) as (A & _ & B & C). auto.
    + now rewrite <- (total_perm _ _ Hp), total_counts.
  - intros Hnum. exists (value_counts_stable s).
    split; [apply value_counts_stable_admissible|].
    split; [|now apply counts_by_label_sorted].
    destruct (value_counts_stable_admissible s) as [Hp _].
    rewrite <- Hp. apply counts_by_label_perm.
Qed.

End ValueCounts.

(* ================================================================== *)
(** ** Further properties of the arrest rates *)

Section RateExtremes.
Import Py Pd PdGroup App Spec.

Lemma sum_mask_count (x : Series) :
  sum_mask (eq_scalar x true)
  = Z.of_nat (List.length (filter arrest_true x)).
Proof.
  unfold sum_mask, eq_scalar, arrest_true. f_equal.
  induction x as [|y x IH]; [reflexivity|]. cbn [map filter].
  destruct (Py.eqb y (Bool true)); cbn [List.length]; now rewrite IH.
Qed.

Lemma rate_eq_100 (a n : Z) :
  0 < n -> ((100 * inject_Z a / inject_Z n == 100)%Q <-> a = n).
Proof.
  intros Hn. destruct n as [|p|p]; try lia.
  unfold Qeq, Qdiv, Qmult, Qinv, inject_Z. cbn [Qnum Qden].
  rewrite ?Pos.mul_1_l, ?Pos.mul_1_r. split; intros H; lia.
Qed.

Lemma rate_eq_0 (a n : Z) :
  0 < n -> ((100 * inject_Z a / inject_Z n == 0)%Q <-> a = 0).
Proof.
  intros Hn. destruct n as [|p|p]; try lia.
  unfold Qeq, Qdiv, Qmult, Qinv, inject_Z. cbn [Qnum Qden].
  rewrite ?Pos.mul_1_l, ?Pos.mul_1_r. split; intros H; lia.
Qed.

Lemma rate_100_or_0 (x : Series) :
  x <> [] ->
  (arrest_rate x = 100%Q <-> forallb arrest_true x = true)
  /\ (arrest_rate x = 0%Q
      <-> forallb (fun c => negb (arrest_true c)) x = true).
Proof.
  intros Hne. destruct (arrest_rate_value x Hne) as [Hval _].
  rewrite sum_mask_count in Hval.
  assert (Hn : 0 < Z.of_nat (List.length x)).
  { destruct x; [congruence|cbn [List.length]; lia]. }
  assert (Hred : forall q : Q, arrest_rate x = Qred q <-> (arrest_rate x == q)%Q).
  { intros q. unfold arrest_rate. rewrite (nonempty_length_pos _ Hne).
    split; intros H.
    - rewrite <- (Qred_correct q), <- H. reflexivity.
    - apply Qred_complete. now rewrite Qred_correct in H. }
  split.
  - change 100%Q with (Qred 100). rewrite Hred, Hval, (rate_eq_100 _ _ Hn).
    rewrite Nat2Z.inj_iff. split.
    + apply filter_length_forallb.
    + intros H. now rewrite forallb_filter_id.
  - change 0%Q with (Qred 0). rewrite Hred, Hval, (rate_eq_0 _ _ Hn).
    change 0 with (Z.of_nat 0). rewrite Nat2Z.inj_iff. split.
    + intros H. apply List.length_zero_iff_nil in H.
      apply forallb_forall. intros c Hc.
      destruct (arrest_true c) eqn:E; [|reflexivity].
      assert (In c (filter arrest_true x)) by (apply filter_In; auto).
      rewrite H in *. contradiction.
    + intros H. rewrite forallb_forall in H.
      rewrite filter_none; [reflexivity|].
      intros c Hc. specialize (H c Hc). now apply negb_true_iff in H.
Qed.




End RateExtremes.

(* ================================================================== *)
(** ** The float64 rates at their extremes *)

Section RateExtremes64.
Import Py Pd PdGroup App Spec.

(** A float64 rate is a reduced fraction: two that denote the same value
    are the same. *)
Lemma arrest_rate64_reduced (x : Series) (q : Q) :
  (arrest_rate64 x == q)%Q -> arrest_rate64 x = Qred q.
Proof.
  assert (H : exists r, arrest_rate64 x = Qred r).
  { unfold arrest_rate64. destruct (0 <? List.length x)%nat; [|now exists 0%Q].
    unfold F64.mul. generalize (F64.truediv (sum_mask (eq_scalar x true))
                                  (Z.of_nat (List.length x))
                                * F64.of_int 100)%Q.
    intros z. unfold F64.round. destruct (Qeq_bool z 0); [now exists 0%Q|].
    now eexists. }
  destruct H as [r ->]. intros E. apply Qred_complete.
  now rewrite Qred_correct in E.
Qed.

Lemma rate64_100_or_0 (x : Series) :
  x <> [] ->
  (forallb arrest_true x = true -> arrest_rate64 x = 100%Q)
  /\ (arrest_rate64 x = 0%Q
      <-> forallb (fun c => negb (arrest_true c)) x = true)
  /\ (Z.of_nat (List.length x) < 2 ^ 53 ->
      arrest_rate64 x = 100%Q -> forallb arrest_true x = true).
Proof.
  intros Hne.
  destruct (rate_100_or_0 x Hne) as [H100 H0].
  destruct (arrest_rate64_extremes x Hne) as [E0 E100].
  pose proof (arrests_within_group x) as HA.
  assert (HN : 0 < Z.of_nat (List.length x)).
  { destruct x; [congruence|]. cbn [List.length]. lia. }
  split; [|split].
  - intros Hall. apply H100 in Hall.
    assert (Ha : sum_mask (eq_scalar x true) = Z.of_nat (List.length x)).
    { destruct (arrest_rate_value x Hne) as (Hval & _).
      rewrite Hall in Hval. symmetry in Hval.
      now apply (rate_eq_100 _ _ HN) in Hval. }
    unfold arrest_rate64. rewrite (nonempty_length_pos _ Hne), Ha.
    unfold F64.truediv.
    assert (H1 : (1 <= F64.of_int (Z.of_nat (List.length x)))%Q).
    { apply (of_int_mono 1); lia. }
    assert (E1 : (F64.of_int (Z.of_nat (List.length x))
                  / F64.of_int (Z.of_nat (List.length x)) == 1)%Q).
    { field. intros E. rewrite E in H1. lra. }
    rewrite (round_comp _ _ E1). reflexivity.
  - split.
    + intros E. apply H0.
      assert (E' : (arrest_rate x == 0)%Q) by (apply E0; now rewrite E).
      unfold arrest_rate in *. rewrite (nonempty_length_pos _ Hne) in *.
      change 0%Q with (Qred 0). apply Qred_complete.
      now rewrite Qred_correct in E'.
    + intros Hnone. apply H0 in Hnone.
      change 0%Q with (Qred 0). apply arrest_rate64_reduced.
      apply E0. now rewrite Hnone.
  - intros H53 E. apply H100.
    assert (E' : (arrest_rate x == 100)%Q)
      by (apply (E100 H53); now rewrite E).
    unfold arrest_rate in *. rewrite (nonempty_length_pos _ Hne) in *.
    change 100%Q with (Qred 100). apply Qred_complete.
    now rewrite Qred_correct in E'.
Qed.

(** The extremes of the float64 rate of a group that is not empty: it is 0
    exactly when no row of the group has an arrest; it is 100 when every row
    has one, and for a group of fewer than 2^53 rows only then: rounding
    never makes a lower rate 100. *)
Theorem arrest_rate64_extremes_of_group (x : Series) :
  x <> [] ->
  (forallb arrest_true x = true -> arrest_rate64 x = 100%Q)
  /\ (arrest_rate64 x = 0%Q
      <-> forallb (fun c => negb (arrest_true c)) x = true)
  /\ (Z.of_nat (List.length x) < 2 ^ 53 ->
      arrest_rate64 x = 100%Q -> forallb arrest_true x = true).
Proof. exact (rate64_100_or_0 x). Qed.

Lemma arrest_rates64_entry (filtered_df : DataFrame) (i j : nat)
      (data : list (object * Q)) (k : object) (rate : Q) :
  get_loc "Primary Type" (columns filtered_df) = Some i ->
  get_loc "Arrest" (columns filtered_df) = Some j ->
  arrest_rates64 filtered_df data ->
  In (k, rate) data ->
  let x := map (cell j) (filter (fun r => same_key (cell i r) k)
                                (rows filtered_df)) in
  rate = arrest_rate64 x /\ x <> [].
Proof.
  intros Hi Hj (rates & sorted & Hr & [Hperm _] & ->) Hin x.
  apply firstn_incl in Hin.
  apply (Permutation_in _ (Permutation_sym Hperm)) in Hin.
  rewrite (group_rates64_rows _ i j Hi Hj) in Hr. injection Hr as <-.
  apply in_map_iff in Hin. destruct Hin as [k' [E Hk]].
  injection E as -> <-. split; [reflexivity|].
  destruct (group_keys_in _ _ Hk) as [_ Hcol].
  apply in_map_iff in Hcol. destruct Hcol as [r0 [Hr0 Hin0]].
  assert (In r0 (filter (fun r => same_key (cell i r) k)
                        (rows filtered_df))).
  { apply filter_In. split; [exact Hin0|].
    rewrite Hr0. apply same_key_refl. }
  unfold x. destruct (filter _ (rows filtered_df));
    [contradiction|discriminate].
Qed.

(** The float64 arrest rates follow the arrest filter: on a table with the
    primary-type and arrest columns, under "Yes" every crime type in the
    result of lines 180-182 has rate 100.0, and under "No" every one has
    rate 0.0. *)
Theorem arrest_rates64_under_arrest_filter (df filtered_df : DataFrame)
        (sel : Sidebar) (data : list (object * Q)) :
  has_column df "Primary Type" = true ->
  has_column df "Arrest" = true ->
  apply_filters df sel = Ok filtered_df ->
  arrest_rates64 filtered_df data ->
  (selected_arrest sel = Yes ->
     forall k rate, In (k, rate) data -> rate = 100%Q)
  /\ (selected_arrest sel = No ->
        forall k rate, In (k, rate) data -> rate = 0%Q).
Proof.
  intros Hpt Har Hf Hdata.
  destruct (has_column_get_loc _ _ Hpt) as [i Hi].
  destruct (has_column_get_loc _ _ Har) as [j Hj].
  rewrite <- (with_own_arrest sel), (with_arrest_rows _ _ _ j Hj) in Hf.
  injection Hf as Hf.
  assert (Hcols : columns filtered_df = columns df) by now rewrite <- Hf.
  assert (Hrows : rows filtered_df
                  = filter (fun r => match selected_arrest sel with
                                     | All => true
                                     | Yes => arrest_true (cell j r)
                                     | No => arrest_false (cell j r)
                                     end)
                      (filter (fun r => forallb
                                 (fun d => keeps (columns df) sel d r)
                                 membership_dimensions) (rows df)))
    by now rewrite <- Hf.
  clear Hf. rewrite <- Hcols in Hi, Hj.
  split; intros Ha k rate Hin; rewrite Ha in Hrows;
    destruct (arrest_rates64_entry filtered_df i j data k rate
                Hi Hj Hdata Hin) as [-> Hne];
    destruct (rate64_100_or_0 _ Hne) as (Hall & Hnone & _);
    [apply Hall|apply Hnone];
    apply forallb_forall; intros c Hc;
    apply in_map_iff in Hc; destruct Hc as [r [<- Hr]];
    apply filter_In in Hr; destruct Hr as [Hr _];
    rewrite Hrows in Hr;
    apply filter_In in Hr; destruct Hr as [_ Hr].
  - exact Hr.
  - unfold arrest_false in Hr. unfold arrest_true.
    destruct (cell j r) as [|z|s|b]; cbn in *; try reflexivity.
    + apply Z.eqb_eq in Hr. now subst.
    + now destruct b.
Qed.

End RateExtremes64.

(* ================================================================== *)
(** ** Selecting every option *)

Section EveryOption.
Import Py Pd App Spec.

Lemma filter_isin_rows (vs : list object) (name : string) (df : DataFrame)
      (i : nat) :
  get_loc name (columns df) = Some i -> vs <> [] ->
  filter_isin vs name df
  = Ok {| columns := columns df;
          rows := filter (fun r => existsb (same_key (cell i r)) vs)
                         (rows df) |}.
Proof.
  intros Hi Hne. unfold filter_isin, has_column, getitem.
  rewrite (get_loc_has_column _ _ _ Hi), Hi.
  destruct vs as [|v vs]; [congruence|]. cbn [truthy andb bind].
  unfold getitem_mask. now rewrite isin_rows.
Qed.

(** Selecting every option is not the same as selecting none: with all the
    options of a column selected, and at least one option, the membership
    filter keeps exactly the rows whose value in the column is not null. *)
Theorem every_option_keeps_known_rows (df : DataFrame) (name : string)
        (opts : list object) :
  options df name = Ok opts -> opts <> [] ->
  filter_isin opts name df
  = Ok {| columns := columns df;
          rows := filter (known_in df name) (rows df) |}.
Proof.
  intros Hopts Hne.
  destruct (options_get_loc _ _ _ Hopts) as [i Hi].
  rewrite (filter_isin_rows _ _ _ i Hi Hne). do 2 f_equal.
  apply filter_ext_in. intros r Hr. unfold known_in, value_in.
  rewrite Hi. cbn [option_map].
  destruct (options_sorted_members _ _ _ Hopts)
    as (_ & _ & Hin & Hall).
  destruct (notna (cell i r)) eqn:E.
  - destruct (Hall r (cell i r) Hr) as (o & Ho & Hs);
      [unfold value_in; now rewrite Hi|exact E|].
    apply existsb_exists. now exists o.
  - destruct (existsb (same_key (cell i r)) opts) eqn:Ex; [|reflexivity].
    apply existsb_exists in Ex. destruct Ex as (o & Ho & Hs).
    destruct (Hin o Ho) as [Hn _].
    rewrite <- E. symmetry. now apply (same_key_notna _ o).
Qed.

End EveryOption.

(* ================================================================== *)
(** ** Instances *)

Section Instances.
Import Py Pd PdGroup PdCount App Spec Examples.

Lemma apply_filters_idempotent_witness :
  apply_filters
    {| columns := columns incidents;
       rows := [[Num 2020; Str "THEFT"; NaN; Bool false; Num 41; Num (-87)]] |}
    picks
  = Ok {| columns := columns incidents;
          rows := [[Num 2020; Str "THEFT"; NaN; Bool false;
                    Num 41; Num (-87)]] |}.
Proof.
  exact (apply_filters_idempotent incidents _ picks eq_refl).
Defined.

Lemma arrest_filter_splits_view_witness :
  rows {| columns := columns incidents_unknown_arrest;
          rows := [[Str "THEFT"; Bool true]] |}
  = filter (arrested incidents_unknown_arrest)
           (rows incidents_unknown_arrest)
  /\ (1 + 1
      + List.length (filter (fun r => negb (arrested incidents_unknown_arrest r)
                                      && negb (not_arrested
                                                 incidents_unknown_arrest r))
                            (rows incidents_unknown_arrest))
      = 3)%nat.
Proof.
  destruct (arrest_filter_splits_view incidents_unknown_arrest
              incidents_unknown_arrest
              {| columns := columns incidents_unknown_arrest;
                 rows := [[Str "THEFT"; Bool true]] |}
              {| columns := columns incidents_unknown_arrest;
                 rows := [[Str "BATTERY"; Bool false]] |}
              no_selection eq_refl eq_refl eq_refl eq_refl)
    as (Hyes & _ & _ & Hsum).
  split; [exact Hyes|exact Hsum].
Defined.

Lemma arrests_made_under_arrest_filter_witness :
  arrests_made {| columns := columns incidents_unknown_arrest;
                  rows := [[Str "THEFT"; Bool true]] |}
  = Ok (MInt 1).
Proof.
  exact (proj1 (arrests_made_under_arrest_filter incidents_unknown_arrest
                  {| columns := columns incidents_unknown_arrest;
                     rows := [[Str "THEFT"; Bool true]] |}
                  picks_arrested eq_refl eq_refl) eq_refl).
Defined.

Lemma count_metrics_within_total_witness : 0 <= 2 <= 4.
Proof.
  exact (count_metrics_within_total incidents 2 (or_introl eq_refl)).
Defined.

Lemma crime_types_metric_counts_options_witness :
  crime_types_metric incidents = Ok (MInt 2).
Proof.
  exact (crime_types_metric_counts_options incidents
           [Str "BATTERY"; Str "THEFT"] eq_refl).
Defined.

Lemma options_ascending_and_complete_witness :
  StronglySorted ascending [Num 2019; Num 2020]
  /\ NoDup [Num 2019; Num 2020].
Proof.
  destruct (options_ascending_and_complete incidents "Year"
              [Num 2019; Num 2020] eq_refl) as (Hs & Hn & _).
  split; [exact Hs|exact Hn].
Defined.

Lemma summary_exceptions_witness :
  (exists name,
      In name ["Year"; "Primary Type"; "Location Description"]
      /\ options incidents_without_year name = Raise (KeyError ["Year"])
      /\ (has_column incidents_without_year name = false ->
          KeyError ["Year"] = KeyError [name]))
  \/ (exists filtered_df,
        apply_filters incidents_without_year no_selection = Ok filtered_df
        /\ year_range filtered_df = Raise (KeyError ["Year"])
        /\ has_column filtered_df "Year" = true).
Proof.
  exact (summary_exceptions incidents_without_year no_selection
           (KeyError ["Year"]) eq_refl).
Defined.

Lemma map_view_outcomes_witness :
  map_view incidents_without_coordinates None
  = Raise (KeyError ["Latitude"; "Longitude"])
  /\ map_view incidents_nowhere None
     = Ok (MapWarning "No data points with valid coordinates available")
  /\ map_view incidents (Some 100)
     = Raise (ValueError
         "Value of 'hover_data_0' is not the name of a column in 'data_frame'")
  /\ exists slider sample hover_name hover_data color,
       map_view incidents_200_dated (Some 150)
       = Ok (MapChart 200 slider sample hover_name hover_data color).
Proof.
  split; [|split; [|split]].
  - exact (proj1 (map_view_outcomes incidents_without_coordinates None)
             eq_refl).
  - exact (proj1 (proj2 (map_view_outcomes incidents_nowhere None))
             eq_refl eq_refl).
  - exact (proj1 (proj2 (proj2 (map_view_outcomes incidents (Some 100))))
             eq_refl ltac:(discriminate) eq_refl).
  - exact (proj2 (proj2 (proj2 (map_view_outcomes incidents_200_dated
                                  (Some 150))))
             eq_refl ltac:(discriminate) eq_refl).
Defined.

Lemma map_sample_is_valid_prefix_witness :
  (500 = List.length (filter (has_coordinates incidents_500_dated)
                             (rows incidents_500_dated)))%nat
  /\ rows (head {| columns := columns incidents_500_dated;
                   rows := filter (has_coordinates incidents_500_dated)
                                  (rows incidents_500_dated) |} 100)
     = firstn 100 (filter (has_coordinates incidents_500_dated)
                          (rows incidents_500_dated)).
Proof.
  destruct (map_sample_is_valid_prefix incidents_500_dated
              (head {| columns := columns incidents_500_dated;
                       rows := filter (has_coordinates incidents_500_dated)
                                      (rows incidents_500_dated) |} 100)
              (Some 100) 500
              {| min_value := 100; max_value := 500; value := 500 |}
              (Some "Primary Type") (Some "Primary Type") ["Date"]
              ltac:(vm_compute; reflexivity))
    as (Ha & _ & _ & _ & _ & Hrows & _).
  split; [exact Ha|exact Hrows].
Defined.

Lemma setitem_then_getitem_witness :
  setitem raw_incidents "Year" [Num 2019]
  = Raise (ValueError "Length of values does not match length of index")
  /\ exists df',
       setitem raw_incidents "Year" [Num 2019; NaN] = Ok df'
       /\ getitem df' "Year" = Ok [Num 2019; NaN].
Proof.
  split.
  - apply (proj1 (setitem_then_getitem raw_incidents "Year" [Num 2019])).
    discriminate.
  - destruct (proj2 (setitem_then_getitem raw_incidents "Year"
                       [Num 2019; NaN]) eq_refl) as (df' & E & Hg & _).
    exists df'. split; [exact E|exact Hg].
Defined.

Lemma load_data_converts_two_columns_witness :
  exists df,
    load_data numbers_or_null numbers_or_null raw_incidents = Ok df
    /\ columns df = columns raw_incidents
    /\ getitem df "Year" = Ok [Num 2019; NaN]
    /\ getitem df "Primary Type" = Ok [Str "THEFT"; Str "BATTERY"].
Proof.
  destruct (load_data_converts_two_columns numbers_or_null numbers_or_null
              raw_incidents
              (fun s => length_map _ s) (fun s => length_map _ s))
    as (df & E & Hc & _ & _ & Hy & Ho).
  exists df. split; [exact E|split; [exact Hc|split]].
  - exact (Hy [Num 2019; Str "n/a"] eq_refl).
  - rewrite (Ho "Primary Type") by discriminate. reflexivity.
Defined.



Lemma arrest_rate64_extremes_of_group_witness :
  arrest_rate64 [Bool true; Num 1] = 100%Q
  /\ arrest_rate64 [Bool false; NaN] = 0%Q.
Proof.
  split.
  - apply (proj1 (arrest_rate64_extremes_of_group [Bool true; Num 1]
                    ltac:(discriminate))). reflexivity.
  - apply (proj2 (proj1 (proj2 (arrest_rate64_extremes_of_group
                                  [Bool false; NaN] ltac:(discriminate))))).
    reflexivity.
Defined.

Lemma arrest_rates64_under_arrest_filter_witness :
  arrest_rates64
    {| columns := columns incidents;
       rows := [ [Num 2019; Str "THEFT"; Str "STREET";
                  Bool true; Num 41; Num (-87)];
                 [NaN; Str "BATTERY"; Str "APARTMENT";
                  Bool true; NaN; NaN] ] |}
    [(Str "BATTERY", 100%Q); (Str "THEFT", 100%Q)]
  /\ snd (Str "THEFT", 100%Q) = 100%Q.
Proof.
  assert (Hdata : arrest_rates64
                    {| columns := columns incidents;
                       rows := [ [Num 2019; Str "THEFT"; Str "STREET";
                                  Bool true; Num 41; Num (-87)];
                                 [NaN; Str "BATTERY"; Str "APARTMENT";
                                  Bool true; NaN; NaN] ] |}
                    [(Str "BATTERY", 100%Q); (Str "THEFT", 100%Q)]).
  { exists [(Str "BATTERY", 100%Q); (Str "THEFT", 100%Q)],
           [(Str "BATTERY", 100%Q); (Str "THEFT", 100%Q)].
    split; [vm_compute; reflexivity|split; [|reflexivity]].
    split; [apply Permutation_refl|].
    repeat constructor. unfold descending, Qle. cbn. lia. }
  split; [exact Hdata|].
  apply (proj1 (arrest_rates64_under_arrest_filter incidents _ picks_arrested
                  _ eq_refl eq_refl eq_refl Hdata) eq_refl (Str "THEFT")).
  right. now left.
Defined.

Lemma every_option_keeps_known_rows_witness :
  filter_isin [Num 2019; Num 2020] "Year" incidents
  = Ok {| columns := columns incidents;
          rows := filter (known_in incidents "Year") (rows incidents) |}.
Proof.
  apply (every_option_keeps_known_rows incidents "Year"
           [Num 2019; Num 2020] eq_refl).
  discriminate.
Defined.

Lemma options_exceptions_witness :
  options incidents_without_year "Year" = Raise (KeyError ["Year"]).
Proof.
  exact (proj2 (proj1 (options_exceptions incidents_without_year "Year"))
               eq_refl).
Defined.

Lemma top_counts_properties_witness :
  (List.length [(Str "THEFT", 2); (Str "BATTERY", 1)] <= 15)%nat
  /\ total [(Str "THEFT", 2); (Str "BATTERY", 1)] = 3.
Proof.
  assert (H : top_counts [Str "THEFT"; Str "THEFT"; Str "BATTERY"]
                         [(Str "THEFT", 2); (Str "BATTERY", 1)]).
  { exists [(Str "THEFT", 2); (Str "BATTERY", 1)].
    split; [|reflexivity]. split; [apply Permutation_refl|].
    repeat constructor. unfold by_count_desc. cbn. lia. }
  destruct (proj2 (top_counts_properties
                     [Str "THEFT"; Str "THEFT"; Str "BATTERY"]) _ H)
    as (Hlen & _ & _ & _ & _ & _ & Htot).
  split; [exact Hlen|]. apply Htot. cbn. lia.
Defined.

Lemma year_counts_determined_witness :
  year_counts [Num 2020; Num 2019; NaN; Num 2020]
              [(Num 2019, 1); (Num 2020, 2)].
Proof.
  exact (proj2 (proj2 (year_counts_determined
                         [Num 2020; Num 2019; NaN; Num 2020])) eq_refl).
Defined.

End Instances.
